(** * The opportunities module of the member platform

    A shallow embedding of [packages/core/src/modules/opportunities.ts]:
    the use cases that add, bookmark, check, refine, report and delete
    opportunities, over an explicit model of the relational store and of
    the external collaborators the module calls.

    Conventions.
    - A string is the UTF-8 encoding of the JavaScript string, a
      surrogate on its own being encoded as the code point it is.
      [Js.length] counts UTF-16 code units, as [length] does, and white
      space is the white space of the language, ASCII or not.
    - A [Date] is its epoch time in milliseconds, a [Z].
    - A nullable column is an [option]; [undefined] in an update object
      is an absent assignment.
    - An [async] function is a computation over the world (store and
      effect log) that either returns or rejects. *)

From Stdlib Require Import List String Ascii ZArith Bool Lia PeanoNat.
From Stdlib Require Import Sorted.
Import ListNotations.

Local Open Scope string_scope.

(* ================================================================== *)
(** ** JavaScript string primitives *)

Module Js.

Definition is_upper (c : ascii) : bool :=
  let n := nat_of_ascii c in (65 <=? n)%nat && (n <=? 90)%nat.

Definition lower_char (c : ascii) : ascii :=
  if is_upper c then ascii_of_nat (nat_of_ascii c + 32) else c.

(** [toLowerCase] on the letters of ASCII.  The module lower-cases a
    page only to search it for the phrases of [EXPIRED_PHRASES]; these
    are ASCII, none holds a [k] and none ends in [i], the two ASCII
    letters that a character outside ASCII lower-cases to or starts
    with (the Kelvin sign, the dotted capital I), so the search finds
    the same under the full mapping. *)
Fixpoint toLowerCase (s : string) : string :=
  match s with
  | EmptyString => EmptyString
  | String c r => String (lower_char c) (toLowerCase r)
  end.

Fixpoint startsWith (p s : string) : bool :=
  match p, s with
  | EmptyString, _ => true
  | String a p', String b s' => Ascii.eqb a b && startsWith p' s'
  | String _ _, EmptyString => false
  end.

(** [s.includes(p)] *)
Fixpoint includes (p s : string) : bool :=
  startsWith p s ||
  match s with
  | EmptyString => false
  | String _ s' => includes p s'
  end.

(** A text from the numbers of its bytes. *)
Definition bytes (l : list nat) : string :=
  fold_right (fun n s => String (ascii_of_nat n) s) EmptyString l.

(** The white space of [trim] and of the class [\s]: the characters
    WhiteSpace and LineTerminator of the language, each in UTF-8. *)
Definition WHITE_SPACE : list string := Eval cbv in
  map bytes
    [ [9]; [10]; [11]; [12]; [13]; [32];   (* TAB LF VT FF CR SP *)
      [194; 160];                           (* U+00A0 *)
      [225; 154; 128];                      (* U+1680 *)
      [226; 128; 128]; [226; 128; 129];     (* U+2000, U+2001 *)
      [226; 128; 130]; [226; 128; 131];     (* U+2002, U+2003 *)
      [226; 128; 132]; [226; 128; 133];     (* U+2004, U+2005 *)
      [226; 128; 134]; [226; 128; 135];     (* U+2006, U+2007 *)
      [226; 128; 136]; [226; 128; 137];     (* U+2008, U+2009 *)
      [226; 128; 138];                      (* U+200A *)
      [226; 128; 168]; [226; 128; 169];     (* U+2028, U+2029 *)
      [226; 128; 175];                      (* U+202F *)
      [226; 129; 159];                      (* U+205F *)
      [227; 128; 128];                      (* U+3000 *)
      [239; 187; 191] ].                    (* U+FEFF *)

(** The bytes of the white-space character the text starts with, none
    when it starts with another character. *)
Definition space_width (s : string) : nat :=
  match find (fun x => startsWith x s) WHITE_SPACE with
  | Some x => String.length x
  | None => 0
  end.

(** [skip] counts the bytes still to drop of the white-space character
    that is being dropped. *)
Fixpoint trimStart_from (skip : nat) (s : string) : string :=
  match s with
  | EmptyString => EmptyString
  | String _ r =>
      match skip with
      | S k => trimStart_from k r
      | O =>
          match space_width s with
          | O => s
          | S k => trimStart_from k r
          end
      end
  end.

Definition trimStart (s : string) : string := trimStart_from 0 s.

(** What is left of the text once nothing but white space follows. *)
Fixpoint trimEnd (s : string) : string :=
  match s with
  | EmptyString => EmptyString
  | String c r =>
      match trimStart s with
      | EmptyString => EmptyString
      | String _ _ => String c (trimEnd r)
      end
  end.

Definition trim (s : string) : string := trimEnd (trimStart s).

(** The UTF-16 code units of the character a byte starts: one, two for
    a character beyond the basic plane, none for a byte that continues
    a character. *)
Definition units (c : ascii) : nat :=
  let n := nat_of_ascii c in
  if (n <? 128)%nat then 1%nat
  else if (n <? 192)%nat then 0%nat
  else if (n <? 240)%nat then 1%nat
  else 2%nat.

(** [s.length] *)
Fixpoint length (s : string) : nat :=
  match s with
  | EmptyString => 0%nat
  | String c r => (units c + length r)%nat
  end.

(** The first of the two code units of a character of four bytes, as
    the three bytes that encode this surrogate. *)
Definition high_surrogate (s : string) : string :=
  match s with
  | String b1 (String b2 (String b3 _)) =>
      let point := ((N_of_ascii b1 - 240) * 262144 +
                    (N_of_ascii b2 - 128) * 4096 +
                    (N_of_ascii b3 - 128) * 64)%N in
      let high := (55296 + (point - 65536) / 1024)%N in
      String (ascii_of_N 237)
        (String (ascii_of_N (128 + (high / 64) mod 64))
           (String (ascii_of_N (128 + high mod 64)) EmptyString))
  | _ => EmptyString
  end.

(** [s.slice(0, n)]: the first [n] code units.  A cut between the two
    code units of a character leaves the first one. *)
Fixpoint slice_to (n : nat) (s : string) : string :=
  match s with
  | EmptyString => EmptyString
  | String c r =>
      match units c with
      | 0 => String c (slice_to n r)
      | 1 =>
          match n with
          | S k => String c (slice_to k r)
          | O => EmptyString
          end
      | _ =>
          match n with
          | S (S k) => String c (slice_to k r)
          | 1 => high_surrogate s
          | O => EmptyString
          end
      end
  end.

(** Truthiness of a string: only the empty string is falsy. *)
Definition truthy (s : string) : bool :=
  match s with EmptyString => false | String _ _ => true end.

(** Truthiness of [string | null | undefined]. *)
Definition truthy_opt (s : option string) : bool :=
  match s with Some v => truthy v | None => false end.

(** Insertion sort standing for [order by name asc]. *)
Fixpoint insert_sorted (x : string) (l : list string) : list string :=
  match l with
  | [] => [x]
  | y :: l' => if String.leb x y then x :: l else y :: insert_sorted x l'
  end.

Definition sort (l : list string) : list string :=
  fold_right insert_sorted [] l.

End Js.

(* ================================================================== *)
(** ** Results, rejections *)

(** [Result<T>] of [@/shared/utils/core]. *)
Inductive Result (A : Type) : Type :=
| success (data : A)
| fail (code : Z) (error : string).
Arguments success {A} data.
Arguments fail {A} code error.

Definition ok {A} (r : Result A) : bool :=
  match r with success _ => true | fail _ _ => false end.

(** What a rejected promise carries. *)
Inductive Rejection : Type :=
| NoResultError                 (* [executeTakeFirstOrThrow] found no row *)
| DatabaseError (why : string)  (* the driver rejected the statement *)
| ExternalError (why : string). (* a collaborator rejected *)

Inductive Outcome (A : Type) : Type :=
| Returned (a : A)
| Thrown (e : Rejection).
Arguments Returned {A} a.
Arguments Thrown {A} e.

(* ================================================================== *)
(** ** PostgreSQL [ILIKE] *)

Module Like.

Definition backslash : ascii := "\"%char.
Definition percent : ascii := "%"%char.
Definition underscore : ascii := "_"%char.

(** How the matcher of the server ends: the text matches the pattern,
    it does not, it ran out before the pattern did (so that no later
    start can match either), or the pattern is refused. *)
Inductive verdict : Type :=
| Match
| NoMatch
| Abort
| BadEscape.

(** The bytes of the character that starts with [c]: the text of the
    database is well-formed UTF-8. *)
Definition char_bytes (c : ascii) : nat :=
  let n := nat_of_ascii c in
  if (n <? 192)%nat then 1%nat
  else if (n <? 224)%nat then 2%nat
  else if (n <? 240)%nat then 3%nat
  else if (n <? 248)%nat then 4%nat
  else 1%nat.

Fixpoint drop (n : nat) (s : string) : string :=
  match n, s with
  | S k, String _ r => drop k r
  | _, _ => s
  end.

(** The text past its first character. *)
Definition next_char (t : string) : string :=
  match t with
  | EmptyString => EmptyString
  | String c r => drop (char_bytes c - 1) r
  end.

(** Is what is left of a pattern nothing but [%]? *)
Fixpoint only_percent (p : string) : bool :=
  match p with
  | EmptyString => true
  | String c p' => Ascii.eqb c percent && only_percent p'
  end.

(** Past a [%], with the pattern at a literal [first]: the starts of the
    text are tried from left to right, character by character, where
    the text has [first]; [rest] judges what follows it.  The search
    ends at the first verdict that is not [NoMatch]. *)
Fixpoint scan (first : ascii) (rest : string -> verdict) (skip : nat)
    (t : string) : verdict :=
  match t with
  | EmptyString => Abort
  | String x t' =>
      match skip with
      | S k => scan first rest k t'
      | O =>
          if Ascii.eqb x first then
            match rest t' with
            | NoMatch => scan first rest (char_bytes x - 1) t'
            | v => v
            end
          else scan first rest (char_bytes x - 1) t'
      end
  end.

(** The matcher: [%] is any sequence of characters, [_] any one
    character, a backslash takes the next byte of the pattern
    literally.  A pattern that ends in a lone backslash is refused, but
    only when the matcher comes to that backslash with text left, or
    past a [%].  [wild] tells that a [%] has just been read: further
    wildcards are then taken first. *)
Fixpoint matchText (wild : bool) (p t : string) {struct p} : verdict :=
  match p with
  | EmptyString =>
      if wild then Match
      else match t with EmptyString => Match | String _ _ => NoMatch end
  | String c p' =>
      if wild then
        if Ascii.eqb c percent then matchText true p' t
        else if Ascii.eqb c underscore then
          match t with
          | EmptyString => Abort
          | String _ _ => matchText true p' (next_char t)
          end
        else if Ascii.eqb c backslash then
          match p' with
          | EmptyString => BadEscape
          | String d p'' => scan d (matchText false p'') 0 t
          end
        else scan c (matchText false p') 0 t
      else
        match t with
        | EmptyString => if only_percent p then Match else Abort
        | String x t' =>
            if Ascii.eqb c backslash then
              match p' with
              | EmptyString => BadEscape
              | String d p'' =>
                  if Ascii.eqb d x then matchText false p'' t' else NoMatch
              end
            else if Ascii.eqb c percent then matchText true p' t
            else if Ascii.eqb c underscore then matchText false p' (next_char t)
            else if Ascii.eqb c x then matchText false p' t' else NoMatch
        end
  end.

(** [value ILIKE pattern]: both sides are lower-cased, then matched.
    Letters outside ASCII fold as the locale of the database says,
    which the module does not tell; they are compared as they are. *)
Definition ilike (value pattern : string) : Outcome bool :=
  match matchText false (Js.toLowerCase pattern) (Js.toLowerCase value) with
  | Match => Returned true
  | NoMatch | Abort => Returned false
  | BadEscape =>
      Thrown (DatabaseError "LIKE pattern must not end with escape character")
  end.

End Like.

(* ================================================================== *)
(** ** JSON values and the [zod] schema of the AI response *)

Local Unset Elimination Schemes.
Inductive json : Type :=
| JNull
| JBool (b : bool)
| JNumber (literal : string)
| JString (s : string)
| JArray (items : list json)
| JObject (fields : list (string * json)).
Local Set Elimination Schemes.

Module Zod.

(** [obj[key]]; [None] is [undefined]. *)
Fixpoint get (key : string) (fields : list (string * json)) : option json :=
  match fields with
  | [] => None
  | (k, v) :: rest => if String.eqb k key then Some v else get key rest
  end.

(** [z.string()] *)
Definition string_ (v : option json) : option string :=
  match v with
  | Some (JString s) => Some s
  | _ => None
  end.

(** [z.string().trim().min(1)] with an optional [.max(n)]: the checks
    run in order on the trimmed value, which is also the output, and
    compare its [length]. *)
Definition trimmed (max : option nat) (v : option json) : option string :=
  match string_ v with
  | Some s =>
      let t := Js.trim s in
      if (1 <=? Js.length t)%nat &&
         match max with
         | Some m => (Js.length t <=? m)%nat
         | None => true
         end
      then Some t else None
  | None => None
  end.

(** [schema.nullable()] accepts [null]; [undefined] goes to [schema]. *)
Definition nullable {A} (schema : option json -> option A)
    (v : option json) : option (option A) :=
  match v with
  | Some JNull => Some None
  | _ => option_map Some (schema v)
  end.

Fixpoint all {A} (schema : option json -> option A) (items : list json)
    : option (list A) :=
  match items with
  | [] => Some []
  | x :: rest =>
      match schema (Some x), all schema rest with
      | Some a, Some l => Some (a :: l)
      | _, _ => None
      end
  end.

(** [z.array(schema).min(1)] *)
Definition array_min1 {A} (schema : option json -> option A)
    (v : option json) : option (list A) :=
  match v with
  | Some (JArray (x :: rest)) => all schema (x :: rest)
  | _ => None
  end.

End Zod.

Record RefineOpportunityResponse : Type := {
  company : option string;
  description : option string;
  expiresAt : option string;
  tags : option (list string);
  title : option string;
}.

(** [RefineOpportunityResponse.parse(json)]; [None] is a [ZodError]. *)
Definition RefineOpportunityResponse_parse (j : json)
    : option RefineOpportunityResponse :=
  match j with
  | JObject fields =>
      match Zod.nullable (Zod.trimmed None) (Zod.get "company" fields),
            Zod.nullable (Zod.trimmed (Some 500%nat)) (Zod.get "description" fields),
            Zod.nullable Zod.string_ (Zod.get "expiresAt" fields),
            Zod.nullable (Zod.array_min1 (Zod.trimmed None)) (Zod.get "tags" fields),
            Zod.nullable (Zod.trimmed (Some 100%nat)) (Zod.get "title" fields)
      with
      | Some c, Some d, Some e, Some t, Some ti =>
          Some {| company := c; description := d; expiresAt := e;
                  tags := t; title := ti |}
      | _, _, _, _, _ => None
      end
  | _ => None
  end.

(* ================================================================== *)
(** ** The store: one list of rows per table *)

Module Opportunity.
Record row : Type := {
  id : string;
  link : string;
  title : string;
  description : string;
  companyId : option string;
  postedBy : option string;
  createdAt : Z;
  expiresAt : option Z;
  lastExpirationCheck : option Z;
  refinedAt : option Z;
  slackChannelId : option string;
  slackMessageId : option string;
}.

(** The object given to [.set(...)]: a field that is absent or
    [undefined] leaves its column alone. *)
Record patch : Type := {
  set_title : option string;
  set_description : option string;
  set_companyId : option (option string);
  set_expiresAt : option (option Z);
  set_lastExpirationCheck : option (option Z);
  set_refinedAt : option (option Z);
}.

Definition no_change : patch :=
  {| set_title := None; set_description := None; set_companyId := None;
     set_expiresAt := None; set_lastExpirationCheck := None;
     set_refinedAt := None |}.

Definition assign {A} (new : option A) (old : A) : A :=
  match new with Some v => v | None => old end.

Definition apply (p : patch) (o : row) : row :=
  {| id := id o;
     link := link o;
     title := assign (set_title p) (title o);
     description := assign (set_description p) (description o);
     companyId := assign (set_companyId p) (companyId o);
     postedBy := postedBy o;
     createdAt := createdAt o;
     expiresAt := assign (set_expiresAt p) (expiresAt o);
     lastExpirationCheck :=
       assign (set_lastExpirationCheck p) (lastExpirationCheck o);
     refinedAt := assign (set_refinedAt p) (refinedAt o);
     slackChannelId := slackChannelId o;
     slackMessageId := slackMessageId o |}.
End Opportunity.

Module Tag.
Record row : Type := { id : string; name : string; color : string }.
End Tag.

Module TagAssociation.
Record row : Type := { opportunityId : string; tagId : string }.
Definition same (a b : row) : bool :=
  String.eqb (opportunityId a) (opportunityId b) &&
  String.eqb (tagId a) (tagId b).
End TagAssociation.

Module Bookmark.
Record row : Type := { opportunityId : string; studentId : string }.
End Bookmark.

Module Report.
Record row : Type := {
  opportunityId : string;
  reason : string;
  reporterId : string;
}.
End Report.

Module Admin.
Record row : Type := { memberId : string; deletedAt : option Z }.
End Admin.

Record Database : Type := {
  opportunities : list Opportunity.row;
  opportunityTags : list Tag.row;
  opportunityTagAssociations : list TagAssociation.row;
  opportunityBookmarks : list Bookmark.row;
  opportunityReports : list Report.row;
  admins : list Admin.row;
}.

Definition with_opportunities (d : Database) (l : list Opportunity.row)
    : Database :=
  {| opportunities := l;
     opportunityTags := opportunityTags d;
     opportunityTagAssociations := opportunityTagAssociations d;
     opportunityBookmarks := opportunityBookmarks d;
     opportunityReports := opportunityReports d;
     admins := admins d |}.

Definition with_associations (d : Database) (l : list TagAssociation.row)
    : Database :=
  {| opportunities := opportunities d;
     opportunityTags := opportunityTags d;
     opportunityTagAssociations := l;
     opportunityBookmarks := opportunityBookmarks d;
     opportunityReports := opportunityReports d;
     admins := admins d |}.

Definition with_bookmarks (d : Database) (l : list Bookmark.row)
    : Database :=
  {| opportunities := opportunities d;
     opportunityTags := opportunityTags d;
     opportunityTagAssociations := opportunityTagAssociations d;
     opportunityBookmarks := l;
     opportunityReports := opportunityReports d;
     admins := admins d |}.

Definition with_reports (d : Database) (l : list Report.row) : Database :=
  {| opportunities := opportunities d;
     opportunityTags := opportunityTags d;
     opportunityTagAssociations := opportunityTagAssociations d;
     opportunityBookmarks := opportunityBookmarks d;
     opportunityReports := l;
     admins := admins d |}.

(* ================================================================== *)
(** ** Effects the module fires at its collaborators *)

Inductive Job : Type :=
| ActivityCompleted (opportunityBookmarkedBy opportunityId studentId : string)
| CheckExpired (force : bool) (opportunityId : string)
| RefinementRequested (opportunityId slackChannelId slackUserId : string)
| AddedToBoard (channel opportunityId threadId : string).

Inductive Effect : Type :=
| PageRequested (link : string)
| ExceptionReported (e : Rejection)
| CompletionRequested (content : string) (tagNames : list string)
| Queued (j : Job)
| Tracked (event company user : string)
| Logged (what : string).

Record World : Type := {
  db : Database;
  effects : list Effect;
}.

(* ================================================================== *)
(** ** Asynchronous computations *)

Definition Async (A : Type) : Type := World -> Outcome A * World.

Definition ret {A} (a : A) : Async A := fun w => (Returned a, w).

Definition throw {A} (e : Rejection) : Async A := fun w => (Thrown e, w).

Definition bind {A B} (m : Async A) (k : A -> Async B) : Async B :=
  fun w =>
    match m w with
    | (Returned a, w') => k a w'
    | (Thrown e, w') => (Thrown e, w')
    end.

Declare Scope async_scope.
Delimit Scope async_scope with async.
Notation "x <- m ;; k" := (bind m (fun x => k))
  (at level 61, m at next level, right associativity) : async_scope.
Notation "m ;;; k" := (bind m (fun _ => k))
  (at level 61, right associativity) : async_scope.
Local Open Scope async_scope.

(** [try { m } catch (e) { handler(e) }] *)
Definition try_catch {A} (m : Async A) (handler : Rejection -> Async A)
    : Async A :=
  fun w =>
    match m w with
    | (Returned a, w') => (Returned a, w')
    | (Thrown e, w') => handler e w'
    end.

(** [db.transaction().execute(...)]: a rejection inside rolls the store
    back; what was sent to collaborators stays sent. *)
Definition transaction {A} (m : Async A) : Async A :=
  fun w =>
    match m w with
    | (Returned a, w') => (Returned a, w')
    | (Thrown e, w') => (Thrown e, {| db := db w; effects := effects w' |})
    end.

Definition emit (e : Effect) : Async unit :=
  fun w => (Returned tt, {| db := db w; effects := effects w ++ [e] |}).

Definition lift {A} (o : Outcome A) : Async A := fun w => (o, w).

Definition query {A} (f : Database -> A) : Async A :=
  fun w => (Returned (f (db w)), w).

Definition execute (f : Database -> Database) : Async unit :=
  fun w => (Returned tt, {| db := f (db w); effects := effects w |}).

(** A statement the server may refuse: the store changes only when it
    is accepted. *)
Definition attempt (f : Database -> Outcome Database) : Async unit :=
  fun w =>
    match f (db w) with
    | Returned d => (Returned tt, {| db := d; effects := effects w |})
    | Thrown e => (Thrown e, w)
    end.

Definition when (b : bool) (m : Async unit) : Async unit :=
  if b then m else ret tt.

Definition reportException (e : Rejection) : Async unit :=
  emit (ExceptionReported e).

Definition job (j : Job) : Async unit := emit (Queued j).

(* ================================================================== *)
(** ** External collaborators *)

(** Everything the module imports and does not define: the clock, the
    id generator, the page fetcher, the AI client, [JSON.parse], the
    [Date] constructor, the company resolver and the [companies] table
    it owns.  The AI client is asked with the two values the prompt
    template embeds, the page content and the names of the catalog
    tags; the rest of the request is constant.  One environment is the
    collaborators as they answer during one call. *)
Record Env : Type := {
  now : Z;                                  (* [new Date()] *)
  nextMonth : Z;                            (* [dayjs().add(1, 'month')] *)
  freshId : string;                         (* [id()] *)
  getPageContent : string -> Outcome string;
  getChatCompletion : string -> list string -> Outcome (Result string);
  JSON_parse : string -> option json;       (* [None]: it throws *)
  Date_of_string : string -> option Z;      (* [None]: an invalid date *)
  saveCompanyIfNecessary : string -> Outcome (option string);
  companyName : string -> option string;
}.

(* ================================================================== *)
(** ** Statements against the store *)

Module Sql.

(** A [where] clause whose predicate the server may reject. *)
Fixpoint where_ {A} (p : A -> Outcome bool) (rows : list A)
    : Outcome (list A) :=
  match rows with
  | [] => Returned []
  | r :: rest =>
      match p r with
      | Thrown e => Thrown e
      | Returned b =>
          match where_ p rest with
          | Thrown e => Thrown e
          | Returned l => Returned (if b then r :: l else l)
          end
      end
  end.

(** [selectFrom('opportunities').where('link', 'ilike', pattern)] *)
Definition opportunities_ilike (pattern : string) (d : Database)
    : Outcome (list Opportunity.row) :=
  where_ (fun o => Like.ilike (Opportunity.link o) pattern) (opportunities d).

Definition has_id (oid : string) (o : Opportunity.row) : bool :=
  String.eqb (Opportunity.id o) oid.

(** [selectFrom('opportunities').where('id', '=', oid)] *)
Definition opportunities_by_id (oid : string) (d : Database)
    : list Opportunity.row :=
  filter (has_id oid) (opportunities d).

(** [insertInto('opportunities').values(o)] *)
Definition insert_opportunity (o : Opportunity.row) (d : Database)
    : Database :=
  with_opportunities d (opportunities d ++ [o]).

(** Modelled from the spec: tag associations, bookmarks and reports
    refer to their posting by a foreign key that cascades; the schema
    that declares it is not part of the module, whose only word on it
    is the comment on [deleteOpportunity].

    [deleteFrom('opportunities').where('id', '=', oid)]: the statement
    names the postings, the rows of the dependent tables go by the
    cascade. *)
Definition delete_opportunity (oid : string) (d : Database) : Database :=
  {| opportunities := filter (fun o => negb (has_id oid o)) (opportunities d);
     opportunityTags := opportunityTags d;
     opportunityTagAssociations :=
       filter (fun a => negb (String.eqb (TagAssociation.opportunityId a) oid))
              (opportunityTagAssociations d);
     opportunityBookmarks :=
       filter (fun b => negb (String.eqb (Bookmark.opportunityId b) oid))
              (opportunityBookmarks d);
     opportunityReports :=
       filter (fun r => negb (String.eqb (Report.opportunityId r) oid))
              (opportunityReports d);
     admins := admins d |}.

(** Modelled from the spec: the same foreign key refuses the insert of
    a dependent row whose [opportunityId] names no posting. *)
Definition posting_known (oid : string) (d : Database) : bool :=
  existsb (has_id oid) (opportunities d).

Definition FOREIGN_KEY : Rejection :=
  DatabaseError "insert violates foreign key constraint".

(** [updateTable('opportunities').set(p).where(cond)] *)
Definition update_opportunities (cond : Opportunity.row -> bool)
    (p : Opportunity.patch) (d : Database) : Database :=
  with_opportunities d
    (map (fun o => if cond o then Opportunity.apply p o else o)
         (opportunities d)).

(** The rows a [.returning(...)] clause hands back: the updated ones. *)
Definition updated_rows (cond : Opportunity.row -> bool)
    (p : Opportunity.patch) (d : Database) : list Opportunity.row :=
  map (Opportunity.apply p) (filter cond (opportunities d)).

Definition refinedAt_is_null (o : Opportunity.row) : bool :=
  match Opportunity.refinedAt o with None => true | Some _ => false end.

(** [insertInto(t).values(rows)] with an empty array compiles to a
    statement without columns or tuples, which the server rejects. *)
Definition values_given {A} (rows : list A) : Outcome unit :=
  match rows with
  | [] => Thrown (DatabaseError "syntax error in INSERT: no values")
  | _ :: _ => Returned tt
  end.

(** Modelled from the spec: the identity of a tag association is the
    pair (opportunityId, tagId); the schema that declares the key the
    [onConflict] clause reacts to is not part of the module. *)
Definition add_association (l : list TagAssociation.row)
    (a : TagAssociation.row) : list TagAssociation.row :=
  if existsb (TagAssociation.same a) l then l else l ++ [a].

(** [insertInto('opportunityTagAssociations').values(rows)
      .onConflict((oc) => oc.doNothing())], the rows it leaves.  This
    is the whole statement where the rows name a posting that the
    transaction has just updated, as in [refineOpportunity]. *)
Definition insert_associations (rows : list TagAssociation.row)
    (d : Database) : Database :=
  with_associations d (fold_left add_association rows
                                 (opportunityTagAssociations d)).

(** The same statement where the caller names the posting, as in
    [editOpportunity]: a row that is stored already is skipped before
    the foreign key is looked at, every other row must name a known
    posting. *)
Definition insert_associations_checked (rows : list TagAssociation.row)
    (d : Database) : Outcome Database :=
  if forallb (fun a =>
                existsb (TagAssociation.same a) (opportunityTagAssociations d) ||
                posting_known (TagAssociation.opportunityId a) d)
             rows
  then Returned (insert_associations rows d)
  else Thrown FOREIGN_KEY.

(** [selectFrom('opportunityTags').where('name', 'in', names)] *)
Definition tags_named (names : list string) (d : Database) : list Tag.row :=
  filter (fun t => existsb (String.eqb (Tag.name t)) names)
         (opportunityTags d).

Definition is_bookmark (oid member : string) (b : Bookmark.row) : bool :=
  String.eqb (Bookmark.opportunityId b) oid &&
  String.eqb (Bookmark.studentId b) member.

(** Modelled from the spec: the identity of a report is the pair
    (opportunityId, reporterId); the schema that declares the key the
    [onConflict] clause reacts to is not part of the module. *)
Definition is_report (oid reporter : string) (r : Report.row) : bool :=
  String.eqb (Report.opportunityId r) oid &&
  String.eqb (Report.reporterId r) reporter.

(** [insertInto('opportunityBookmarks').values(b)] *)
Definition insert_bookmark (b : Bookmark.row) (d : Database)
    : Outcome Database :=
  if posting_known (Bookmark.opportunityId b) d
  then Returned (with_bookmarks d (opportunityBookmarks d ++ [b]))
  else Thrown FOREIGN_KEY.

(** [insertInto('opportunityReports').values(r)
      .onConflict((oc) => oc.doNothing())]: a report that is stored
    already is skipped before the foreign key is looked at. *)
Definition insert_report (r : Report.row) (d : Database) : Outcome Database :=
  if existsb (is_report (Report.opportunityId r) (Report.reporterId r))
             (opportunityReports d)
  then Returned d
  else if posting_known (Report.opportunityId r) d
  then Returned (with_reports d (opportunityReports d ++ [r]))
  else Thrown FOREIGN_KEY.

(** [selectFrom('opportunityReports').select(countAll)
      .where('opportunityId', '=', oid)] *)
Definition count_reports (oid : string) (d : Database) : Z :=
  Z.of_nat (List.length
    (filter (fun r => String.eqb (Report.opportunityId r) oid)
            (opportunityReports d))).

(** [selectFrom('admins').where('memberId', '=', member)] *)
Definition admins_of (member : string) (d : Database) : list Admin.row :=
  filter (fun a => String.eqb (Admin.memberId a) member) (admins d).

(** [exists (select from admins where memberId = member
                                  and deletedAt is null)] *)
Definition active_admin (member : string) (d : Database) : bool :=
  existsb (fun a => String.eqb (Admin.memberId a) member &&
                    match Admin.deletedAt a with None => true | Some _ => false end)
          (admins d).

End Sql.

(* ================================================================== *)
(** ** Use cases *)

Definition EXPIRED_PHRASES : list string :=
  [ "404";
    "closed";
    "does not exist";
    "doesn't exist";
    "expired";
    "filled";
    "no longer accepting";
    "no longer available";
    "no longer exists";
    "no longer open";
    "not accepting";
    "not available";
    "not be found";
    "not currently accepting";
    "not found";
    "not open";
    "oops";
    "removed";
    "sorry" ].

(** [EXPIRED_PHRASES.some((phrase) =>
       content.toLowerCase().includes(phrase))] *)
Definition hasExpiredPhrase (content : string) : bool :=
  existsb (fun phrase => Js.includes phrase (Js.toLowerCase content))
          EXPIRED_PHRASES.

Record RefineOpportunityInput : Type := {
  content : string;
  opportunityId : string;
  slackChannelId : option string;
  slackUserId : option string;
}.

(** The columns [refineOpportunity] asks back from its update. *)
Module Refined.
Record row : Type := {
  id : string;
  refinedAt : option Z;
  slackChannelId : option string;
  slackMessageId : option string;
}.
Definition project (o : Opportunity.row) : row :=
  {| id := Opportunity.id o;
     refinedAt := Opportunity.refinedAt o;
     slackChannelId := Opportunity.slackChannelId o;
     slackMessageId := Opportunity.slackMessageId o |}.
End Refined.

Definition THREE_HOURS : Z := 3 * 60 * 60 * 1000.

Inductive BookmarkAction : Type := deleted | created.

Section UseCases.

Variable E : Env.

Definition fetchPage (link : string) : Async string :=
  emit (PageRequested link) ;;; lift (getPageContent E link).

Definition sendOpportunityRefinementNotification
    (oid channel user : string) : Async unit :=
  job (RefinementRequested oid channel user).

(** The object [refineOpportunity] gives to [.set(...)]. *)
Definition refinePatch (data : RefineOpportunityResponse)
    (companyId : option string) (expiresAt : option (option Z))
    : Opportunity.patch :=
  {| Opportunity.set_title :=
       if Js.truthy_opt (title data) then title data else None;
     Opportunity.set_description :=
       if Js.truthy_opt (description data) then description data else None;
     Opportunity.set_companyId := Some companyId;
     Opportunity.set_expiresAt := expiresAt;
     Opportunity.set_lastExpirationCheck := None;
     Opportunity.set_refinedAt := None |}.

(** [.set({ refinedAt: new Date() })] *)
Definition refinedNow : Opportunity.patch :=
  {| Opportunity.set_title := None;
     Opportunity.set_description := None;
     Opportunity.set_companyId := None;
     Opportunity.set_expiresAt := None;
     Opportunity.set_lastExpirationCheck := None;
     Opportunity.set_refinedAt := Some (Some (now E)) |}.

(** [.where('id', '=', oid).where('refinedAt', 'is', null)] *)
Definition neverRefined (oid : string) (r : Opportunity.row) : bool :=
  Sql.has_id oid r && Sql.refinedAt_is_null r.

Definition tagRows (oid : string) (matchedTags : list Tag.row)
    : list TagAssociation.row :=
  map (fun tag => {| TagAssociation.opportunityId := oid;
                     TagAssociation.tagId := Tag.id tag |})
      matchedTags.

(** [data.company ? await saveCompanyIfNecessary(trx, data.company) : null] *)
Definition resolveCompany (data : RefineOpportunityResponse)
    : Outcome (option string) :=
  match company data with
  | Some c => if Js.truthy c then saveCompanyIfNecessary E c else Returned None
  | None => Returned None
  end.

(** [data.expiresAt ? new Date(data.expiresAt) : undefined]; the driver
    rejects an invalid date when the update is sent. *)
Definition resolveExpiry (data : RefineOpportunityResponse)
    : Outcome (option (option Z)) :=
  match expiresAt data with
  | Some s =>
      if Js.truthy s then
        match Date_of_string E s with
        | Some t => Returned (Some (Some t))
        | None =>
            Thrown (DatabaseError "invalid input syntax for type timestamp")
        end
      else Returned None
  | None => Returned None
  end.

(** The body of the transaction of [refineOpportunity]. *)
Definition refineTransaction (input : RefineOpportunityInput)
    (data : RefineOpportunityResponse) : Async Refined.row :=
  companyId <- lift (resolveCompany data) ;;
  expiresAt <- lift (resolveExpiry data) ;;
  let p := refinePatch data companyId expiresAt in
  rows <- query (Sql.updated_rows (Sql.has_id (opportunityId input)) p) ;;
  execute (Sql.update_opportunities (Sql.has_id (opportunityId input)) p) ;;;
  match rows with
  | [] => throw NoResultError
  | o :: _ =>
      let opportunity := Refined.project o in
      execute (Sql.update_opportunities
                 (neverRefined (opportunityId input)) refinedNow) ;;;
      match tags data with
      | None => ret opportunity
      | Some names =>
          matchedTags <- query (Sql.tags_named names) ;;
          let rows := tagRows (Refined.id opportunity) matchedTags in
          lift (Sql.values_given rows) ;;;
          execute (Sql.insert_associations rows) ;;;
          ret opportunity
      end
  end.

Definition refineOpportunity (input : RefineOpportunityInput)
    : Async (Result (option Refined.row)) :=
  tagNames <- query (fun d => Js.sort (map Tag.name (opportunityTags d))) ;;
  emit (CompletionRequested (content input) tagNames) ;;;
  completionResult <- lift (getChatCompletion E (content input) tagNames) ;;
  match completionResult with
  | fail code error => ret (fail code error)
  | success completion =>
      match JSON_parse E completion with
      | None =>
          emit (Logged "Failed to parse JSON from AI response.") ;;;
          ret (fail 400 "Failed to parse JSON from AI response.")
      | Some json =>
          match RefineOpportunityResponse_parse json with
          | None =>
              emit (Logged "ZodError") ;;;
              ret (fail 400 "Failed to validate JSON from AI response.")
          | Some data =>
              if negb (Js.truthy_opt (title data)) ||
                 negb (Js.truthy_opt (description data))
              then
                match slackChannelId input, slackUserId input with
                | Some channel, Some user =>
                    when (Js.truthy channel && Js.truthy user)
                         (sendOpportunityRefinementNotification
                            (opportunityId input) channel user)
                | _, _ => ret tt
                end ;;;
                ret (success None)
              else
                opportunity <- transaction (refineTransaction input data) ;;
                match Refined.slackChannelId opportunity,
                      Refined.slackMessageId opportunity,
                      Refined.refinedAt opportunity with
                | Some channel, Some message, None =>
                    when (Js.truthy channel && Js.truthy message)
                         (job (AddedToBoard channel (Refined.id opportunity)
                                            message))
                | _, _, _ => ret tt
                end ;;;
                ret (success (Some opportunity))
          end
      end
  end.

Definition addOpportunity (link postedBy : string) : Async (Result string) :=
  matching <- (fun w => (Sql.opportunities_ilike link (db w), w)) ;;
  match matching with
  | _ :: _ => ret (fail 409 "Someone already posted this link.")
  | [] =>
      let opportunity :=
        {| Opportunity.id := freshId E;
           Opportunity.link := link;
           Opportunity.title := "Opportunity";
           Opportunity.description := "N/A";
           Opportunity.companyId := None;
           Opportunity.postedBy := Some postedBy;
           Opportunity.createdAt := now E;
           Opportunity.expiresAt := Some (nextMonth E);
           Opportunity.lastExpirationCheck := None;
           Opportunity.refinedAt := None;
           Opportunity.slackChannelId := None;
           Opportunity.slackMessageId := None |} in
      execute (Sql.insert_opportunity opportunity) ;;;
      websiteContent <-
        try_catch (fetchPage link)
                  (fun e => reportException e ;;; ret EmptyString) ;;
      if negb (Js.truthy websiteContent) then ret (success (freshId E))
      else if hasExpiredPhrase websiteContent then
        execute (Sql.delete_opportunity (freshId E)) ;;;
        ret (fail 404
          "It looks like the opportunity you are trying to add has closed.")
      else
        refineOpportunity
          {| content := websiteContent;
             opportunityId := freshId E;
             slackChannelId := None;
             slackUserId := None |} ;;;
        ret (success (freshId E))
  end.

Definition bookmarkOpportunity (memberId oid : string)
    : Async (Result unit) :=
  action <- transaction (
    numDeletedRows <-
      query (fun d => List.length (filter (Sql.is_bookmark oid memberId)
                                          (opportunityBookmarks d))) ;;
    execute (fun d =>
      with_bookmarks d
        (filter (fun b => negb (Sql.is_bookmark oid memberId b))
                (opportunityBookmarks d))) ;;;
    if (0 <? numDeletedRows)%nat then ret deleted
    else
      attempt (Sql.insert_bookmark
                 {| Bookmark.opportunityId := oid;
                    Bookmark.studentId := memberId |}) ;;;
      ret created) ;;
  match action with
  | deleted => ret tt
  | created =>
      found <- query (fun d => hd_error (Sql.opportunities_by_id oid d)) ;;
      match found with
      | None => ret tt
      | Some o =>
          match Opportunity.companyId o with
          | Some c =>
              match companyName E c with
              | Some n =>
                  when (Js.truthy n)
                       (emit (Tracked "Opportunity Bookmarked" n memberId))
              | None => ret tt
              end
          | None => ret tt
          end ;;;
          match Opportunity.postedBy o with
          | Some poster =>
              when (Js.truthy poster)
                   (job (ActivityCompleted memberId oid poster))
          | None => ret tt
          end
      end
  end ;;;
  ret (success tt).

Definition isSelectedForCheck (oid : string) (force : bool)
    (o : Opportunity.row) : bool :=
  Sql.has_id oid o &&
  match Opportunity.expiresAt o with
  | Some t => (now E <? t)%Z
  | None => false
  end &&
  (force ||
   match Opportunity.lastExpirationCheck o with
   | None => true
   | Some t => (t <=? now E - THREE_HOURS)%Z
   end).

Definition checkForExpiredOpportunity (oid : string) (force : bool)
    : Async (Result bool) :=
  found <- query (fun d => hd_error (filter (isSelectedForCheck oid force)
                                            (opportunities d))) ;;
  match found with
  | None => ret (success false)
  | Some o =>
      if negb (Js.truthy (Opportunity.link o)) then ret (success false)
      else
        execute (Sql.update_opportunities (Sql.has_id oid)
          {| Opportunity.set_title := None;
             Opportunity.set_description := None;
             Opportunity.set_companyId := None;
             Opportunity.set_expiresAt := None;
             Opportunity.set_lastExpirationCheck := Some (Some (now E));
             Opportunity.set_refinedAt := None |}) ;;;
        fetched <-
          try_catch (c <- fetchPage (Opportunity.link o) ;; ret (Some c))
                    (fun e => reportException e ;;; ret None) ;;
        match fetched with
        | None => ret (fail 500 "Failed to get page content.")
        | Some page =>
            let hasExpired := hasExpiredPhrase page in
            when hasExpired
              (execute (Sql.update_opportunities (Sql.has_id oid)
                 {| Opportunity.set_title := None;
                    Opportunity.set_description := None;
                    Opportunity.set_companyId := None;
                    Opportunity.set_expiresAt := Some (Some (now E));
                    Opportunity.set_lastExpirationCheck := None;
                    Opportunity.set_refinedAt := None |})) ;;;
            ret (success hasExpired)
        end
  end.

Definition hasOpportunityWritePermission (memberId oid : string)
    : Async bool :=
  found <- query (fun d =>
    hd_error (filter (fun o =>
                        Sql.has_id oid o &&
                        (match Opportunity.postedBy o with
                         | Some poster => String.eqb poster memberId
                         | None => false
                         end || Sql.active_admin memberId d))
                     (opportunities d))) ;;
  ret (match found with Some _ => true | None => false end).

Definition deleteOpportunity (memberId : option string) (oid : string)
    : Async (Result string) :=
  allowed <-
    match memberId with
    | Some m =>
        if Js.truthy m then hasOpportunityWritePermission m oid else ret true
    | None => ret true
    end ;;
  if negb allowed then
    ret (fail 403 "You do not have permission to delete this opportunity.")
  else
    transaction (execute (Sql.delete_opportunity oid)) ;;;
    ret (success oid).

Definition reportOpportunity (oid reason reporterId : string)
    : Async (Result bool) :=
  attempt (Sql.insert_report
             {| Report.opportunityId := oid;
                Report.reason := reason;
                Report.reporterId := reporterId |}) ;;;
  reports <- query (Sql.count_reports oid) ;;
  admin <- query (fun d => hd_error (Sql.admins_of reporterId d)) ;;
  let shouldRemove :=
    (2 <=? reports)%Z ||
    match admin with Some _ => true | None => false end in
  when shouldRemove
    (execute (Sql.update_opportunities (Sql.has_id oid)
       {| Opportunity.set_title := None;
          Opportunity.set_description := None;
          Opportunity.set_companyId := None;
          Opportunity.set_expiresAt := Some (Some (now E));
          Opportunity.set_lastExpirationCheck := None;
          Opportunity.set_refinedAt := None |})) ;;;
  ret (success shouldRemove).

End UseCases.

(* ================================================================== *)
(** ** Vocabulary of the properties *)

Section Vocabulary.

Variable E : Env.

Local Open Scope Z_scope.

Definition bookmarkRows (memberId oid : string) (d : Database) : nat :=
  List.length (filter (Sql.is_bookmark oid memberId) (opportunityBookmarks d)).

Definition isBookmarked (memberId oid : string) (d : Database) : bool :=
  existsb (Sql.is_bookmark oid memberId) (opportunityBookmarks d).

(** The bookmark table after one call. *)
Definition toggled (memberId oid : string) (l : list Bookmark.row)
    : list Bookmark.row :=
  let others := filter (fun b => negb (Sql.is_bookmark oid memberId b)) l in
  if existsb (Sql.is_bookmark oid memberId) l then others
  else others ++ [{| Bookmark.opportunityId := oid;
                     Bookmark.studentId := memberId |}].

(** No pair has two bookmark rows. *)
Definition atMostOnePerPair (d : Database) : Prop :=
  forall memberId oid, (bookmarkRows memberId oid d <= 1)%nat.

Definition isPoster (m oid : string) (d : Database) : Prop :=
  exists o, In o (opportunities d) /\ Opportunity.id o = oid /\
            Opportunity.postedBy o = Some m.

(** The second half of C10 as it is worded. *)
Definition forbidden_only_without_permission
    (memberId : option string) (oid : string) (w : World) : Prop :=
  forall msg,
    fst (deleteOpportunity memberId oid w) = Returned (fail 403 msg) ->
    exists m, memberId = Some m /\
              ~ isPoster m oid (db w) /\
              Sql.active_admin m (db w) = false.

Definition notExpired (o : Opportunity.row) : Prop :=
  exists t, Opportunity.expiresAt o = Some t /\ now E < t.

Definition dueForCheck (o : Opportunity.row) : Prop :=
  Opportunity.lastExpirationCheck o = None \/
  exists c, Opportunity.lastExpirationCheck o = Some c /\
            c <= now E - THREE_HOURS.

Definition checkedRecently (o : Opportunity.row) : Prop :=
  exists c, Opportunity.lastExpirationCheck o = Some c /\
            now E - c < THREE_HOURS.

Fixpoint hasBackslash (s : string) : bool :=
  match s with
  | EmptyString => false
  | String c r => Ascii.eqb c Like.backslash || hasBackslash r
  end.

(** What [value ILIKE pattern] says when the pattern is accepted. *)
Definition ilikeHolds (value pattern : string) : bool :=
  match Like.ilike value pattern with
  | Returned b => b
  | Thrown _ => false
  end.

(** Nothing but the wildcards [%] and [_]. *)
Fixpoint wildcards (s : string) : bool :=
  match s with
  | EmptyString => true
  | String c r =>
      (Ascii.eqb c Like.percent || Ascii.eqb c Like.underscore) && wildcards r
  end.

Definition CLOSED_MESSAGE : string :=
  "It looks like the opportunity you are trying to add has closed.".

(** The AI answered, and its answer parsed and validated as [data]. *)
Definition extracted (input : RefineOpportunityInput) (w : World)
    (data : RefineOpportunityResponse) : Prop :=
  exists completion j,
    getChatCompletion E (content input)
      (Js.sort (map Tag.name (opportunityTags (db w)))) =
      Returned (success completion) /\
    JSON_parse E completion = Some j /\
    RefineOpportunityResponse_parse j = Some data.

(** The answer carries both a title and a description. *)
Definition usable (data : RefineOpportunityResponse) : bool :=
  Js.truthy_opt (title data) && Js.truthy_opt (description data).

Definition committed (r : Outcome (Result (option Refined.row))) : Prop :=
  exists row, r = Returned (success (Some row)).

(** The store a committed refinement leaves. *)
Definition committedDb (oid : string) (data : RefineOpportunityResponse)
    (companyId : option string) (expiry : option (option Z))
    (d : Database) : Database :=
  let d1 := Sql.update_opportunities (Sql.has_id oid)
              (refinePatch data companyId expiry) d in
  let d2 := Sql.update_opportunities (neverRefined oid) (refinedNow E) d1 in
  match tags data with
  | None => d2
  | Some names =>
      Sql.insert_associations (tagRows oid (Sql.tags_named names d2)) d2
  end.

(** What a committed refinement makes of one row. *)
Definition refinedRow (oid : string) (p : Opportunity.patch)
    (o : Opportunity.row) : Opportunity.row :=
  let o1 := if Sql.has_id oid o then Opportunity.apply p o else o in
  if neverRefined oid o1 then Opportunity.apply (refinedNow E) o1 else o1.

Definition refinedAtColumn (d : Database) : list (option Z) :=
  map Opportunity.refinedAt (opportunities d).

(** How one call may move [refinedAt]: not at all, or from null to now
    when the refinement committed. *)
Definition setOnce (wasCommitted : Prop) (before after : option Z) : Prop :=
  after = before \/
  (before = None /\ after = Some (now E) /\ wasCommitted).

(** The extraction [data] shows on the row [o] and in the store [d']. *)
Definition applied (oid : string) (data : RefineOpportunityResponse)
    (d d' : Database) (o : Opportunity.row) : Prop :=
  Some (Opportunity.title o) = title data /\
  Some (Opportunity.description o) = description data /\
  Returned (Opportunity.companyId o) = resolveCompany E data /\
  forall names tag,
    tags data = Some names ->
    In tag (opportunityTags d) -> In (Tag.name tag) names ->
    In {| TagAssociation.opportunityId := oid;
          TagAssociation.tagId := Tag.id tag |}
       (opportunityTagAssociations d').

End Vocabulary.

(** A run of refinements, each with the collaborators of its moment. *)
Fixpoint refineAll (calls : list (Env * RefineOpportunityInput)) (w : World)
    : World :=
  match calls with
  | [] => w
  | (E, input) :: rest => refineAll rest (snd (refineOpportunity E input w))
  end.

(** C6 as it is worded: a valid extraction with a null [expiresAt]
    leaves [expiresAt] alone and its other fields are on the posting. *)
Definition null_expiry_applies_extraction (E : Env)
    (input : RefineOpportunityInput) (w : World) : Prop :=
  forall data,
    extracted E input w data ->
    expiresAt data = None ->
    let d' := db (snd (refineOpportunity E input w)) in
    map Opportunity.expiresAt (opportunities d') =
      map Opportunity.expiresAt (opportunities (db w)) /\
    (forall o, In o (opportunities d') ->
               Opportunity.id o = opportunityId input ->
               (forall t, title data = Some t -> Opportunity.title o = t) /\
               (forall d, description data = Some d ->
                          Opportunity.description o = d)).

(* ================================================================== *)
(** ** Scenarios *)

Module Scenario.

Local Open Scope Z_scope.

Definition noon : Z := 1700000000000.

(** No collaborator answers: pages time out, the AI is unavailable. *)
Definition offline : Env :=
  {| now := noon;
     nextMonth := noon + 2592000000;
     freshId := "opp-2";
     getPageContent := fun _ => Thrown (ExternalError "timeout");
     getChatCompletion := fun _ _ => Returned (fail 500 "unavailable");
     JSON_parse := fun _ => None;
     Date_of_string := fun _ => None;
     saveCompanyIfNecessary := fun _ => Returned None;
     companyName := fun _ => None |}.

Definition posting (oid url : string) : Opportunity.row :=
  {| Opportunity.id := oid;
     Opportunity.link := url;
     Opportunity.title := "Opportunity";
     Opportunity.description := "N/A";
     Opportunity.companyId := None;
     Opportunity.postedBy := Some "member-1";
     Opportunity.createdAt := noon - 1000;
     Opportunity.expiresAt := Some (noon + 2592000000);
     Opportunity.lastExpirationCheck := None;
     Opportunity.refinedAt := None;
     Opportunity.slackChannelId := None;
     Opportunity.slackMessageId := None |}.

Definition emptyDb : Database :=
  {| opportunities := [];
     opportunityTags := [];
     opportunityTagAssociations := [];
     opportunityBookmarks := [];
     opportunityReports := [];
     admins := [] |}.

Definition world (d : Database) : World := {| db := d; effects := [] |}.

(** One open posting; [member-7] used to be an admin. *)
Definition formerAdmin : World :=
  world {| opportunities := [posting "opp-1" "https://x.test/job"];
           opportunityTags := [];
           opportunityTagAssociations := [];
           opportunityBookmarks := [];
           opportunityReports := [];
           admins := [{| Admin.memberId := "member-7";
                         Admin.deletedAt := Some (noon - 5000) |}] |}.

(** No posting at all; [admin-1] is an admin in office. *)
Definition adminOnly : World :=
  world {| opportunities := [];
           opportunityTags := [];
           opportunityTagAssociations := [];
           opportunityBookmarks := [];
           opportunityReports := [];
           admins := [{| Admin.memberId := "admin-1";
                         Admin.deletedAt := None |}] |}.

End Scenario.

Module ExpiryScenario.

Local Open Scope Z_scope.

(** A posting checked one hour ago. *)
Definition checkedAnHourAgo : Opportunity.row :=
  {| Opportunity.id := "opp-1";
     Opportunity.link := "https://x.test/job";
     Opportunity.title := "Opportunity";
     Opportunity.description := "N/A";
     Opportunity.companyId := None;
     Opportunity.postedBy := Some "member-1";
     Opportunity.createdAt := Scenario.noon - 86400000;
     Opportunity.expiresAt := Some (Scenario.noon + 2592000000);
     Opportunity.lastExpirationCheck := Some (Scenario.noon - 3600000);
     Opportunity.refinedAt := None;
     Opportunity.slackChannelId := None;
     Opportunity.slackMessageId := None |}.

Definition board : World :=
  Scenario.world
    {| opportunities := [checkedAnHourAgo];
       opportunityTags := [];
       opportunityTagAssociations := [];
       opportunityBookmarks := [];
       opportunityReports := [];
       admins := [] |}.

End ExpiryScenario.

Module SubmissionScenario.

Local Open Scope Z_scope.

(** The page of the link announces that the posting has expired. *)
Definition closedPage : Env :=
  {| now := Scenario.noon;
     nextMonth := Scenario.noon + 2592000000;
     freshId := "opp-2";
     getPageContent := fun _ => Returned "This posting has EXPIRED.";
     getChatCompletion := fun _ _ => Returned (fail 500 "unavailable");
     JSON_parse := fun _ => None;
     Date_of_string := fun _ => None;
     saveCompanyIfNecessary := fun _ => Returned None;
     companyName := fun _ => None |}.

Definition backslashLink : string := "https://x.test/jobs?ref=a\b".

(** One posting, whose link carries a backslash in its query. *)
Definition backslashBoard : World :=
  Scenario.world
    {| opportunities := [Scenario.posting "opp-1" backslashLink];
       opportunityTags := [];
       opportunityTagAssociations := [];
       opportunityBookmarks := [];
       opportunityReports := [];
       admins := [] |}.

End SubmissionScenario.

Module Json.

Definition quote : string := String "034"%char EmptyString.

(** [JSON.stringify] on values whose strings need no escape. *)
Fixpoint stringify (j : json) : string :=
  match j with
  | JNull => "null"
  | JBool true => "true"
  | JBool false => "false"
  | JNumber literal => literal
  | JString s => quote ++ s ++ quote
  | JArray items =>
      "[" ++
      (fix each (l : list json) : string :=
         match l with
         | [] => EmptyString
         | [x] => stringify x
         | x :: rest => stringify x ++ "," ++ each rest
         end) items ++ "]"
  | JObject fields =>
      "{" ++
      (fix each (l : list (string * json)) : string :=
         match l with
         | [] => EmptyString
         | [(k, v)] => quote ++ k ++ quote ++ ":" ++ stringify v
         | (k, v) :: rest =>
             quote ++ k ++ quote ++ ":" ++ stringify v ++ "," ++ each rest
         end) fields ++ "}"
  end.

End Json.

Module RefineScenario.

Local Open Scope Z_scope.

Definition answer (title_ tags_ : json) : json :=
  JObject [ ("company", JString "Acme");
            ("description", JString "Paid summer internship for sophomores.");
            ("expiresAt", JNull);
            ("tags", tags_);
            ("title", title_) ].

(** Every field inferred, the tag taken from the catalog. *)
Definition complete : json :=
  answer (JString "Software Engineering Intern") (JArray [JString "Internship"]).

(** No title inferred. *)
Definition untitled : json := answer JNull JNull.

(** A tag that the catalog does not hold. *)
Definition strayTag : json :=
  answer (JString "Software Engineering Intern") (JArray [JString "Remote"]).

(** The AI answers [reply] as text; the page of every link is a live
    job description. *)
Definition answering (reply : string) (parsed : option json) (at_ : Z) : Env :=
  {| now := at_;
     nextMonth := at_ + 2592000000;
     freshId := "opp-2";
     getPageContent := fun _ => Returned "Senior Engineer... apply now";
     getChatCompletion := fun _ _ => Returned (success reply);
     JSON_parse := fun s => if String.eqb s reply then parsed else None;
     Date_of_string := fun _ => None;
     saveCompanyIfNecessary := fun name => Returned (Some ("company:" ++ name));
     companyName := fun _ => None |}.

Definition assistant (reply : json) (at_ : Z) : Env :=
  answering (Json.stringify reply) (Some reply) at_.

(** The same, with a company resolver that rejects. *)
Definition resolverDown (reply : json) (at_ : Z) : Env :=
  {| now := at_;
     nextMonth := at_ + 2592000000;
     freshId := "opp-2";
     getPageContent := getPageContent (assistant reply at_);
     getChatCompletion := getChatCompletion (assistant reply at_);
     JSON_parse := JSON_parse (assistant reply at_);
     Date_of_string := fun _ => None;
     saveCompanyIfNecessary := fun _ => Thrown (ExternalError "connection lost");
     companyName := fun _ => None |}.

Definition catalog : list Tag.row :=
  [{| Tag.id := "tag-1"; Tag.name := "Internship"; Tag.color := "blue" |}].

(** One unrefined posting and the catalog. *)
Definition board : World :=
  Scenario.world
    {| opportunities := [Scenario.posting "opp-1" "https://x.test/job"];
       opportunityTags := catalog;
       opportunityTagAssociations := [];
       opportunityBookmarks := [];
       opportunityReports := [];
       admins := [] |}.

(** The catalog and no posting yet. *)
Definition emptyBoard : World :=
  Scenario.world
    {| opportunities := [];
       opportunityTags := catalog;
       opportunityTagAssociations := [];
       opportunityBookmarks := [];
       opportunityReports := [];
       admins := [] |}.

Definition pasted : RefineOpportunityInput :=
  {| content := "Acme is hiring interns for the summer.";
     opportunityId := "opp-1";
     slackChannelId := None;
     slackUserId := None |}.

Definition untitledData : RefineOpportunityResponse :=
  {| company := Some "Acme";
     description := Some "Paid summer internship for sophomores.";
     expiresAt := None;
     tags := None;
     title := None |}.

Definition completeData : RefineOpportunityResponse :=
  {| company := Some "Acme";
     description := Some "Paid summer internship for sophomores.";
     expiresAt := None;
     tags := Some ["Internship"];
     title := Some "Software Engineering Intern" |}.

End RefineScenario.

(* ================================================================== *)
(** ** The rest of the module: chat messages, tags, edits, sweeps *)

(** A row of [slackMessages], a table the module reads and another
    module writes. *)
Module SlackMessage.
Record row : Type := {
  channelId : string;
  id : string;
  studentId : option string;
  text : option string;
  userId : string;
}.
End SlackMessage.

(** The expression
    [/<(https?:\/\/[^\s|>]+)(?:\|[^>]+)?>/] of [getFirstLinkInMessage]. *)
Module LinkPattern.

(** The characters the class [[^\s|>]] leaves out. *)
Definition EXCLUDED : list string := Eval cbv in (Js.WHITE_SPACE ++ ["|"; ">"]).

(** [[^\s|>]], asked of the text where a character starts. *)
Definition is_link_char (s : string) : bool :=
  negb (existsb (fun x => Js.startsWith x s) EXCLUDED).

(** [[^\s|>]+]: the longest run of such characters, and what follows
    it.  The class is asked at every byte: within a character of
    several bytes no excluded character starts. *)
Fixpoint span_link (s : string) : string * string :=
  match s with
  | EmptyString => (EmptyString, EmptyString)
  | String c r =>
      if is_link_char s then let (a, b) := span_link r in (String c a, b)
      else (EmptyString, s)
  end.

(** [[^>]] *)
Definition is_label_char (c : ascii) : bool := negb (Ascii.eqb c ">").

(** The longest prefix of bytes of a class, and what follows it. *)
Fixpoint span (f : ascii -> bool) (s : string) : string * string :=
  match s with
  | EmptyString => (EmptyString, EmptyString)
  | String c r =>
      if f c then let (a, b) := span f r in (String c a, b)
      else (EmptyString, s)
  end.

(** What follows the link: [>], or [|], a label and [>].  A shorter link
    or label would be followed by a character of its own class, so the
    greedy choice is the only one that can match. *)
Definition closes (rest : string) : bool :=
  match rest with
  | String c rest' =>
      if Ascii.eqb c ">" then true
      else if Ascii.eqb c "|" then
        match span is_label_char rest' with
        | (String _ _, String _ _) => true   (* stops at [>] *)
        | _ => false
        end
      else false
  | EmptyString => false
  end.

(** After [<] and the scheme: the link characters and the closing. *)
Definition link_after (scheme rest : string) : option string :=
  match span_link rest with
  | (String c body, rest') =>
      if closes rest' then Some (scheme ++ String c body) else None
  | (EmptyString, _) => None
  end.

(** A match that starts at the first character; the group it captures. *)
Definition match_here (s : string) : option string :=
  match s with
  | String c r =>
      if Ascii.eqb c "<" then
        if Js.startsWith "https://" r then
          link_after "https://" (String.substring 8 (String.length r - 8) r)
        else if Js.startsWith "http://" r then
          link_after "http://" (String.substring 7 (String.length r - 7) r)
        else None
      else None
  | EmptyString => None
  end.

End LinkPattern.

(** [message.match(...)?.[1]]: the leftmost match. *)
Fixpoint getFirstLinkInMessage (message : string) : option string :=
  match LinkPattern.match_here message with
  | Some link => Some link
  | None =>
      match message with
      | String _ rest => getFirstLinkInMessage rest
      | EmptyString => None
      end
  end.

(** What [createOpportunityFromSlack] hands back on success. *)
Inductive SlackCreation : Type :=
| NothingToDo                               (* [success({})] *)
| PlaceholderOnly (id : string)             (* [success(opportunity)] *)
| RefinementDone (row : option Refined.row). (* what the refinement returned *)

Module Edit.
(** [EditOpportunityInput] after validation; [expiresAt] is the instant
    the date denotes. *)
Record input : Type := {
  companyId : option string;
  companyName : option string;
  description : string;
  expiresAt : Z;
  tags : list string;
  title : string;
}.
End Edit.

Record CreateOpportunityTagInput : Type := {
  tagColor : string;
  tagId : string;
  tagName : string;
}.

(** The jobs of the [opportunity] queue. *)
Inductive OpportunityBullJob : Type :=
| check_expired (opportunityId : string) (force : bool)
| check_expired_all (limit : Z)
| create (sendNotification : option bool) (slackChannelId slackMessageId : string).

Inductive JobData : Type :=
| ExpiredData (expired : bool)
| NoData
| CreationData (c : SlackCreation).

(** How a job of the queue ends: with data, with the [Error] the worker
    throws for a failed result, or with a rejection it did not catch. *)
Inductive JobEnd : Type :=
| Completed (data : JobData)
| Failed (message : string)
| Crashed (e : Rejection).

Module Sweep.

(** [order by createdAt asc], by insertion. *)
Fixpoint insert_by_createdAt (o : Opportunity.row) (l : list Opportunity.row)
    : list Opportunity.row :=
  match l with
  | [] => [o]
  | x :: l' =>
      if (Opportunity.createdAt o <=? Opportunity.createdAt x)%Z
      then o :: l
      else x :: insert_by_createdAt o l'
  end.

Definition oldest_first (l : list Opportunity.row) : list Opportunity.row :=
  fold_right insert_by_createdAt [] l.

End Sweep.

Section MoreUseCases.

Variable E : Env.

(** The table [slackMessages] as it stands during the call. *)
Variable slackMessages : list SlackMessage.row.

(** [redis.sismember('slack:opportunity_channels', channelId)] *)
Variable isOpportunityChannel : string -> Outcome bool.

(** [saveCompanyIfNecessary] at the type [editOpportunity] calls it,
    with a name that may be null. *)
Variable saveCompanyNamed : option string -> Outcome (option string).

(** [.where('expiresAt', '>', new Date())
      .where('lastExpirationCheck', 'is', null)] *)
Definition neverChecked (o : Opportunity.row) : bool :=
  match Opportunity.expiresAt o with
  | Some t => (now E <? t)%Z
  | None => false
  end &&
  match Opportunity.lastExpirationCheck o with
  | None => true
  | Some _ => false
  end.

(** [.limit(limit)]; the server rejects a negative limit. *)
Definition limited {A} (limit : Z) (rows : list A) : Outcome (list A) :=
  if (limit <? 0)%Z then Thrown (DatabaseError "LIMIT must not be negative")
  else Returned (firstn (Z.to_nat limit) rows).

Fixpoint queueChecks (rows : list Opportunity.row) : Async unit :=
  match rows with
  | [] => ret tt
  | o :: rest =>
      job (CheckExpired true (Opportunity.id o)) ;;; queueChecks rest
  end.

Definition checkForExpiredOpportunities (limit : Z) : Async (Result unit) :=
  found <- (fun w =>
    (limited limit
       (Sweep.oldest_first (filter neverChecked (opportunities (db w)))),
     w)) ;;
  queueChecks found ;;;
  ret (success tt).

Definition isFromMessage (channel message : string) (o : Opportunity.row)
    : bool :=
  match Opportunity.slackChannelId o, Opportunity.slackMessageId o with
  | Some c, Some m => String.eqb c channel && String.eqb m message
  | _, _ => false
  end.

Definition checkForDeletedOpportunity (channelId : string)
    (deletedAt : option Z) (messageId : string) : Async unit :=
  match deletedAt with
  | None => ret tt
  | Some _ =>
      isChannel <- lift (isOpportunityChannel channelId) ;;
      if negb isChannel then ret tt
      else
        found <- query (fun d =>
          hd_error (filter (isFromMessage channelId messageId)
                           (opportunities d))) ;;
        match found with
        | Some o => deleteOpportunity None (Opportunity.id o) ;;; ret tt
        | None => ret tt
        end
  end.

(** [.set({ description: 'N/A' })] of the upsert. *)
Definition descriptionReset : Opportunity.patch :=
  {| Opportunity.set_title := None;
     Opportunity.set_description := Some "N/A";
     Opportunity.set_companyId := None;
     Opportunity.set_expiresAt := None;
     Opportunity.set_lastExpirationCheck := None;
     Opportunity.set_refinedAt := None |}.

(** Modelled from the spec: the pair (slackChannelId, slackMessageId) is
    unique when both are present; the schema that declares the key the
    [onConflict] clause names is not part of the module.

    [insertInto('opportunities').values(o)
       .onConflict((oc) => oc.columns(['slackChannelId', 'slackMessageId'])
                             .doUpdateSet({ description: 'N/A' }))
       .returning(['id'])]: the id of the row of the message when there is
    one, after its description is set, and else the id of the new row. *)
Definition upsertFromMessage (channel message : string)
    (o : Opportunity.row) : Async string :=
  existing <- query (fun d =>
    hd_error (filter (isFromMessage channel message) (opportunities d))) ;;
  match existing with
  | Some old =>
      execute (Sql.update_opportunities (isFromMessage channel message)
                                        descriptionReset) ;;;
      ret (Opportunity.id old)
  | None =>
      execute (Sql.insert_opportunity o) ;;;
      ret (Opportunity.id o)
  end.

Definition MESSAGE_NOT_FOUND : string :=
  "Could not create opportunity b/c Slack message was not found.".

Definition createOpportunityFromSlack (sendNotification : option bool)
    (slackChannelId slackMessageId : string) : Async (Result SlackCreation) :=
  let sendNotification :=
    match sendNotification with Some b => b | None => true end in
  let slackMessage :=
    hd_error (filter (fun m =>
                        String.eqb (SlackMessage.channelId m) slackChannelId &&
                        String.eqb (SlackMessage.id m) slackMessageId)
                     slackMessages) in
  match slackMessage with
  | None => ret (fail 404 MESSAGE_NOT_FOUND)
  | Some slackMessage =>
      match SlackMessage.text slackMessage with
      | None => ret (fail 404 MESSAGE_NOT_FOUND)
      | Some EmptyString => ret (fail 404 MESSAGE_NOT_FOUND)
      | Some text =>
          match getFirstLinkInMessage text with
          | None => ret (success NothingToDo)
          | Some link =>
              matching <- (fun w => (Sql.opportunities_ilike link (db w), w)) ;;
              match matching with
              | _ :: _ => ret (success NothingToDo)
              | [] =>
                  let isProtectedURL :=
                    Js.includes "docs.google.com" link ||
                    Js.includes "linkedin.com" link in
                  websiteContent <-
                    (if isProtectedURL then ret EmptyString
                     else try_catch (fetchPage E link)
                            (fun e => reportException e ;;; ret EmptyString)) ;;
                  oid <- upsertFromMessage slackChannelId slackMessageId
                    {| Opportunity.id := freshId E;
                       Opportunity.link := link;
                       Opportunity.title := "Opportunity";
                       Opportunity.description := "N/A";
                       Opportunity.companyId := None;
                       Opportunity.postedBy := SlackMessage.studentId slackMessage;
                       Opportunity.createdAt := now E;
                       Opportunity.expiresAt := Some (nextMonth E);
                       Opportunity.lastExpirationCheck := None;
                       Opportunity.refinedAt := None;
                       Opportunity.slackChannelId := Some slackChannelId;
                       Opportunity.slackMessageId := Some slackMessageId |} ;;
                  if Js.truthy websiteContent then
                    refined <- refineOpportunity E
                      {| content := Js.slice_to 10000 websiteContent;
                         opportunityId := oid;
                         slackChannelId := Some slackChannelId;
                         slackUserId := Some (SlackMessage.userId slackMessage) |} ;;
                    ret (match refined with
                         | success row => success (RefinementDone row)
                         | fail code error => fail code error
                         end)
                  else
                    when sendNotification
                      (sendOpportunityRefinementNotification oid slackChannelId
                         (SlackMessage.userId slackMessage)) ;;;
                    ret (success (PlaceholderOnly oid))
              end
          end
      end
  end.

(** The columns of a tag that the module reads; [createdAt], which this
    insert also writes, is read nowhere in it. *)
Definition createOpportunityTag (input : CreateOpportunityTagInput)
    : Async (Result unit) :=
  existingTag <- (fun w =>
    (Sql.where_ (fun t => Like.ilike (Tag.name t) (tagName input))
                (opportunityTags (db w)), w)) ;;
  match existingTag with
  | _ :: _ => ret (fail 409 "A tag with that name already exists.")
  | [] =>
      transaction (execute (fun d =>
        {| opportunities := opportunities d;
           opportunityTags :=
             opportunityTags d ++
             [{| Tag.id := tagId input;
                 Tag.name := tagName input;
                 Tag.color := tagColor input |}];
           opportunityTagAssociations := opportunityTagAssociations d;
           opportunityBookmarks := opportunityBookmarks d;
           opportunityReports := opportunityReports d;
           admins := admins d |})) ;;;
      ret (success tt)
  end.

(** [.set({ companyId, description, expiresAt, title })] *)
Definition editPatch (input : Edit.input) (companyId : option string)
    : Opportunity.patch :=
  {| Opportunity.set_title := Some (Edit.title input);
     Opportunity.set_description := Some (Edit.description input);
     Opportunity.set_companyId := Some companyId;
     Opportunity.set_expiresAt := Some (Some (Edit.expiresAt input));
     Opportunity.set_lastExpirationCheck := None;
     Opportunity.set_refinedAt := None |}.

(** [deleteFrom('opportunityTagAssociations')
      .where('opportunityId', '=', oid).where('tagId', 'not in', tags)] *)
Definition dropOtherTags (oid : string) (tags : list string) (d : Database)
    : Database :=
  with_associations d
    (filter (fun a =>
               negb (String.eqb (TagAssociation.opportunityId a) oid &&
                     negb (existsb (String.eqb (TagAssociation.tagId a)) tags)))
            (opportunityTagAssociations d)).

(** The answer is the number of rows the update touched.  An empty list
    of tags makes both the [not in ()] and the insert without values
    statements the server rejects. *)
Definition editOpportunity (oid : string) (input : Edit.input)
    : Async (Result nat) :=
  result <- transaction (
    companyId <-
      (if Js.truthy_opt (Edit.companyId input)
       then ret (Edit.companyId input)
       else lift (saveCompanyNamed (Edit.companyName input))) ;;
    result <- query (fun d =>
      List.length (Sql.opportunities_by_id oid d)) ;;
    execute (Sql.update_opportunities (Sql.has_id oid)
                                      (editPatch input companyId)) ;;;
    lift (Sql.values_given (Edit.tags input)) ;;;
    execute (dropOtherTags oid (Edit.tags input)) ;;;
    let rows := map (fun tagId =>
                       {| TagAssociation.opportunityId := oid;
                          TagAssociation.tagId := tagId |})
                    (Edit.tags input) in
    lift (Sql.values_given rows) ;;;
    attempt (Sql.insert_associations_checked rows) ;;;
    ret result) ;;
  ret (success result).

(** [listOpportunityTags] *)
Definition insert_by_name (t : Tag.row) : list Tag.row -> list Tag.row :=
  fix go (l : list Tag.row) : list Tag.row :=
    match l with
    | [] => [t]
    | x :: l' =>
        if String.leb (Tag.name t) (Tag.name x) then t :: l else x :: go l'
    end.

Definition listOpportunityTags : Async (list Tag.row) :=
  query (fun d => fold_right insert_by_name [] (opportunityTags d)).

(** The handler of [opportunityWorker]. *)
Definition settle {A} (wrap : A -> JobData) (run : Async (Result A))
    : World -> JobEnd * World :=
  fun w =>
    match run w with
    | (Returned (success data), w') => (Completed (wrap data), w')
    | (Returned (fail _ error), w') => (Failed error, w')
    | (Thrown e, w') => (Crashed e, w')
    end.

Definition opportunityWorker (j : OpportunityBullJob)
    : World -> JobEnd * World :=
  match j with
  | check_expired oid force =>
      settle ExpiredData (checkForExpiredOpportunity E oid force)
  | check_expired_all limit =>
      settle (fun _ => NoData) (checkForExpiredOpportunities limit)
  | create sendNotification channel message =>
      settle CreationData
             (createOpportunityFromSlack sendNotification channel message)
  end.

End MoreUseCases.

(* ================================================================== *)
(** ** Vocabulary of the further properties *)

(** Every character of the string is of the class. *)
Fixpoint all_chars (f : ascii -> bool) (s : string) : bool :=
  match s with
  | EmptyString => true
  | String c r => f c && all_chars f r
  end.

(** A byte of a character of several bytes: its first, or one that
    continues it. *)
Definition high (c : ascii) : bool := (128 <=? nat_of_ascii c)%nat.

(** The text holds none of the characters. *)
Definition holdsNone (chars : list string) (s : string) : bool :=
  forallb (fun x => negb (Js.includes x s)) chars.

(** A link as the pattern captures it: a scheme and a body that is not
    empty and holds no white space, bar or closing bracket. *)
Definition isCapturedLink (link : string) : Prop :=
  exists scheme c body,
    (scheme = "http://" \/ scheme = "https://") /\
    holdsNone LinkPattern.EXCLUDED (String c body) = true /\
    link = scheme ++ String c body.

(** The member posted a row with this id, or is an admin in office and
    a row with this id exists. *)
Definition mayWrite (memberId oid : string) (d : Database) : Prop :=
  exists o, In o (opportunities d) /\ Opportunity.id o = oid /\
            (Opportunity.postedBy o = Some memberId \/
             Sql.active_admin memberId d = true).

(** No row of any table refers to the posting. *)
Definition noTraceOf (oid : string) (d : Database) : Prop :=
  Sql.opportunities_by_id oid d = [] /\
  filter (fun a => String.eqb (TagAssociation.opportunityId a) oid)
         (opportunityTagAssociations d) = [] /\
  filter (fun b => String.eqb (Bookmark.opportunityId b) oid)
         (opportunityBookmarks d) = [] /\
  filter (fun r => String.eqb (Report.opportunityId r) oid)
         (opportunityReports d) = [].

(** The rows that refer to other postings are the same in both stores. *)
Definition sameElsewhere (oid : string) (d d' : Database) : Prop :=
  filter (fun o => negb (Sql.has_id oid o)) (opportunities d') =
    filter (fun o => negb (Sql.has_id oid o)) (opportunities d) /\
  filter (fun a => negb (String.eqb (TagAssociation.opportunityId a) oid))
         (opportunityTagAssociations d') =
    filter (fun a => negb (String.eqb (TagAssociation.opportunityId a) oid))
           (opportunityTagAssociations d) /\
  filter (fun b => negb (String.eqb (Bookmark.opportunityId b) oid))
         (opportunityBookmarks d') =
    filter (fun b => negb (String.eqb (Bookmark.opportunityId b) oid))
           (opportunityBookmarks d) /\
  filter (fun r => negb (String.eqb (Report.opportunityId r) oid))
         (opportunityReports d') =
    filter (fun r => negb (String.eqb (Report.opportunityId r) oid))
           (opportunityReports d) /\
  opportunityTags d' = opportunityTags d /\
  admins d' = admins d.

Definition hasReported (oid reporterId : string) (d : Database) : bool :=
  existsb (Sql.is_report oid reporterId) (opportunityReports d).

Definition reportRows (oid reporterId : string) (d : Database) : nat :=
  List.length (filter (Sql.is_report oid reporterId) (opportunityReports d)).

(** No reporter has two reports of one posting. *)
Definition atMostOnePerReporter (d : Database) : Prop :=
  forall oid reporterId, (reportRows oid reporterId d <= 1)%nat.

Definition hasAdminRow (memberId : string) (d : Database) : bool :=
  existsb (fun a => String.eqb (Admin.memberId a) memberId) (admins d).

(** The link has none of the characters a pattern reads specially. *)
Definition noPatternChars (s : string) : bool :=
  all_chars (fun c => negb (Ascii.eqb c Like.percent ||
                            Ascii.eqb c Like.underscore ||
                            Ascii.eqb c Like.backslash)) s.

(** The row [addOpportunity] creates before it looks at the page. *)
Definition isPlaceholder (E : Env) (link postedBy : string)
    (o : Opportunity.row) : Prop :=
  Opportunity.id o = freshId E /\
  Opportunity.link o = link /\
  Opportunity.title o = "Opportunity" /\
  Opportunity.description o = "N/A" /\
  Opportunity.companyId o = None /\
  Opportunity.postedBy o = Some postedBy /\
  Opportunity.createdAt o = now E /\
  Opportunity.expiresAt o = Some (nextMonth E) /\
  Opportunity.lastExpirationCheck o = None /\
  Opportunity.refinedAt o = None.

(** The columns of a posting that a refinement has no business with. *)
Definition fixedColumns (o : Opportunity.row)
    : string * string * option string * Z * option Z *
      option string * option string :=
  (Opportunity.id o, Opportunity.link o, Opportunity.postedBy o,
   Opportunity.createdAt o, Opportunity.lastExpirationCheck o,
   Opportunity.slackChannelId o, Opportunity.slackMessageId o).

(** What [refineOpportunity] queues when the answer is not usable. *)
Definition manualRefinementRequest (input : RefineOpportunityInput)
    : list Effect :=
  match slackChannelId input, slackUserId input with
  | Some channel, Some user =>
      if Js.truthy channel && Js.truthy user
      then [Queued (RefinementRequested (opportunityId input) channel user)]
      else []
  | _, _ => []
  end.

(** What [refineOpportunity] queues after a commit on the posting [o]. *)
Definition boardAnnouncement (o : Opportunity.row) : list Effect :=
  match Opportunity.slackChannelId o, Opportunity.slackMessageId o,
        Opportunity.refinedAt o with
  | Some channel, Some message, None =>
      if Js.truthy channel && Js.truthy message
      then [Queued (AddedToBoard channel (Opportunity.id o) message)]
      else []
  | _, _, _ => []
  end.

Definition tagNamesAsked (d : Database) : list string :=
  Js.sort (map Tag.name (opportunityTags d)).

(** The row of [slackMessages] for a channel and a message id. *)
Definition messageOf (slackMessages : list SlackMessage.row)
    (channel message : string) : option SlackMessage.row :=
  hd_error (filter (fun m =>
                      String.eqb (SlackMessage.channelId m) channel &&
                      String.eqb (SlackMessage.id m) message)
                   slackMessages).

Definition messageRows (channel message : string) (d : Database) : nat :=
  List.length (filter (isFromMessage channel message) (opportunities d)).

(** No chat message has two postings. *)
Definition atMostOnePerMessage (d : Database) : Prop :=
  forall channel message, (messageRows channel message d <= 1)%nat.

Definition isProtected (link : string) : bool :=
  Js.includes "docs.google.com" link || Js.includes "linkedin.com" link.

(** The store after the upsert of [createOpportunityFromSlack]. *)
Definition upserted (channel message : string) (o : Opportunity.row)
    (d : Database) : Database :=
  match hd_error (filter (isFromMessage channel message) (opportunities d)) with
  | Some _ =>
      Sql.update_opportunities (isFromMessage channel message)
                               descriptionReset d
  | None => Sql.insert_opportunity o d
  end.

(** No two tags have the same name up to letter case. *)
Definition distinctTagNames (d : Database) : Prop :=
  NoDup (map (fun t => Js.toLowerCase (Tag.name t)) (opportunityTags d)).

(** The postings a sweep may pick: not expired, never checked. *)
Definition eligible (E : Env) (d : Database) : list Opportunity.row :=
  filter (neverChecked E) (opportunities d).

Definition checksFor (rows : list Opportunity.row) : list Effect :=
  map (fun o => Queued (CheckExpired true (Opportunity.id o))) rows.

Definition olderFirst (a b : Opportunity.row) : Prop :=
  (Opportunity.createdAt a <= Opportunity.createdAt b)%Z.

(** The store an edit that returns leaves. *)
Definition editedDb (oid : string) (input : Edit.input)
    (companyId : option string) (d : Database) : Database :=
  Sql.insert_associations
    (map (fun tagId => {| TagAssociation.opportunityId := oid;
                          TagAssociation.tagId := tagId |})
         (Edit.tags input))
    (dropOtherTags oid (Edit.tags input)
       (Sql.update_opportunities (Sql.has_id oid) (editPatch input companyId) d)).

(** The columns of a posting an edit has no business with. *)
Definition unedited (o : Opportunity.row)
    : string * string * option string * Z * option Z * option Z *
      option string * option string :=
  (Opportunity.id o, Opportunity.link o, Opportunity.postedBy o,
   Opportunity.createdAt o, Opportunity.lastExpirationCheck o,
   Opportunity.refinedAt o,
   Opportunity.slackChannelId o, Opportunity.slackMessageId o).

(* ================================================================== *)
(** ** Further scenarios *)

Module ChatScenario.

Local Open Scope Z_scope.

Definition announcement : SlackMessage.row :=
  {| SlackMessage.channelId := "C-jobs";
     SlackMessage.id := "m-1";
     SlackMessage.studentId := Some "member-1";
     SlackMessage.text :=
       Some "New role: <https://x.test/job|Apply here> good luck";
     SlackMessage.userId := "U-1" |}.

Definition networkPost : SlackMessage.row :=
  {| SlackMessage.channelId := "C-jobs";
     SlackMessage.id := "m-2";
     SlackMessage.studentId := Some "member-2";
     SlackMessage.text := Some "Hiring: <https://linkedin.com/jobs/1>";
     SlackMessage.userId := "U-2" |}.

Definition messages : list SlackMessage.row := [announcement; networkPost].

(** A posting that came from [announcement] and was never refined. *)
Definition fromAnnouncement : Opportunity.row :=
  {| Opportunity.id := "opp-1";
     Opportunity.link := "https://x.test/job";
     Opportunity.title := "Opportunity";
     Opportunity.description := "N/A";
     Opportunity.companyId := None;
     Opportunity.postedBy := Some "member-1";
     Opportunity.createdAt := Scenario.noon - 1000;
     Opportunity.expiresAt := Some (Scenario.noon + 2592000000);
     Opportunity.lastExpirationCheck := None;
     Opportunity.refinedAt := None;
     Opportunity.slackChannelId := Some "C-jobs";
     Opportunity.slackMessageId := Some "m-1" |}.

Definition board : World :=
  Scenario.world
    {| opportunities := [fromAnnouncement];
       opportunityTags := RefineScenario.catalog;
       opportunityTagAssociations := [];
       opportunityBookmarks := [];
       opportunityReports := [];
       admins := [] |}.

Definition everyChannel : string -> Outcome bool := fun _ => Returned true.

(** The collaborators of [Scenario.offline], one hour later. *)
Definition anHourLater : Env :=
  {| now := Scenario.noon + 3600000;
     nextMonth := Scenario.noon + 3600000 + 2592000000;
     freshId := "opp-3";
     getPageContent := getPageContent Scenario.offline;
     getChatCompletion := getChatCompletion Scenario.offline;
     JSON_parse := JSON_parse Scenario.offline;
     Date_of_string := Date_of_string Scenario.offline;
     saveCompanyIfNecessary := saveCompanyIfNecessary Scenario.offline;
     companyName := companyName Scenario.offline |}.

Definition retitled : Edit.input :=
  {| Edit.companyId := Some "company-7";
     Edit.companyName := None;
     Edit.description := "Summer internship, paid.";
     Edit.expiresAt := Scenario.noon + 86400000;
     Edit.tags := ["tag-1"];
     Edit.title := "Intern" |}.

Definition noResolver : option string -> Outcome (option string) :=
  fun _ => Returned None.

Definition sameTagInCapitals : CreateOpportunityTagInput :=
  {| tagColor := "red"; tagId := "tag-2"; tagName := "INTERNSHIP" |}.

End ChatScenario.

(** Text outside ASCII. *)
Module TextScenario.

(** U+00A0, the no-break space. *)
Definition nbsp : string := Eval cbv in Js.bytes [194; 160].

(** U+4E2D thirty-four times: 34 code units in 102 bytes. *)
Definition cjk34 : string := Eval cbv in
  Js.bytes (flat_map (fun _ => [228; 184; 173]) (seq 0 34)).

(** U+1F600, beyond the basic plane: two code units in four bytes. *)
Definition grin : string := Eval cbv in Js.bytes [240; 159; 152; 128].

End TextScenario.

(* ================================================================== *)
(** * Properties *)

Ltac run_async :=
  cbv beta iota delta
    [bind ret throw query execute attempt emit transaction when job lift
     try_catch
     reportException fetchPage sendOpportunityRefinementNotification].

(** Case analysis on a scrutinee that is not itself a case analysis. *)
Ltac split_match :=
  match goal with
  | |- context [match ?x with _ => _ end] =>
      lazymatch x with
      | context [match _ with _ => _ end] => fail
      | _ => destruct x eqn:?
      end
  end.

(* ------------------------------------------------------------------ *)
(** ** Bookmarks *)

Section Bookmarks.

Variable E : Env.

Lemma filter_length_pos {A} (f : A -> bool) (l : list A) :
  (0 <? List.length (filter f l))%nat = existsb f l.
Proof.
  induction l as [|a l IH]; simpl; [reflexivity|].
  destruct (f a); simpl; [reflexivity | exact IH].
Qed.

Lemma filter_negb_none {A} (f : A -> bool) (l : list A) :
  filter f (filter (fun a => negb (f a)) l) = [].
Proof.
  induction l as [|a l IH]; simpl; [reflexivity|].
  destruct (f a) eqn:Hf; simpl; [exact IH | rewrite Hf; exact IH].
Qed.

Lemma filter_negb_absent {A} (f : A -> bool) (l : list A) :
  existsb f l = false -> filter (fun a => negb (f a)) l = l.
Proof.
  induction l as [|a l IH]; simpl; [reflexivity|].
  intros H. apply orb_false_iff in H. destruct H as [Ha Hl].
  rewrite Ha. simpl. f_equal. auto.
Qed.

Lemma filter_other_pair (f g : Bookmark.row -> bool) (l : list Bookmark.row) :
  (forall b, f b = true -> g b = false) ->
  filter f (filter (fun b => negb (g b)) l) = filter f l.
Proof.
  intros Hfg. induction l as [|a l IH]; simpl; [reflexivity|].
  destruct (g a) eqn:Hg; simpl.
  - destruct (f a) eqn:Hf; [apply Hfg in Hf; congruence | exact IH].
  - destruct (f a); [f_equal|]; exact IH.
Qed.

Lemma is_bookmark_self (memberId oid : string) :
  Sql.is_bookmark oid memberId
    {| Bookmark.opportunityId := oid; Bookmark.studentId := memberId |} = true.
Proof.
  unfold Sql.is_bookmark. simpl. now rewrite !String.eqb_refl.
Qed.

(** The store after a call: the pair is toggled, unless the insert was
    refused, which rolls the transaction back. *)
Lemma bookmarkOpportunity_db (memberId oid : string) (w : World) :
  db (snd (bookmarkOpportunity E memberId oid w)) =
  if isBookmarked memberId oid (db w) || Sql.posting_known oid (db w)
  then with_bookmarks (db w) (toggled memberId oid (opportunityBookmarks (db w)))
  else db w.
Proof.
  unfold bookmarkOpportunity, toggled, isBookmarked, Sql.insert_bookmark,
    Sql.posting_known.
  run_async. simpl.
  rewrite filter_length_pos.
  destruct (existsb (Sql.is_bookmark oid memberId) _); simpl; [reflexivity|].
  destruct (existsb (Sql.has_id oid) _); simpl; [|reflexivity].
  repeat (split_match; simpl; try reflexivity).
Qed.

Lemma bookmarkOpportunity_returns (memberId oid : string) (w : World) :
  isBookmarked memberId oid (db w) || Sql.posting_known oid (db w) = true ->
  fst (bookmarkOpportunity E memberId oid w) = Returned (success tt).
Proof.
  unfold bookmarkOpportunity, isBookmarked, Sql.insert_bookmark,
    Sql.posting_known.
  run_async. simpl.
  rewrite filter_length_pos.
  destruct (existsb (Sql.is_bookmark oid memberId) _); simpl; [reflexivity|].
  intros ->. simpl.
  repeat (split_match; simpl; try reflexivity).
Qed.

(** A bookmark of an id that names no posting is refused by the foreign
    key: the call rejects and leaves the world as it was. *)
Lemma bookmarkOpportunity_refused (memberId oid : string) (w : World) :
  isBookmarked memberId oid (db w) = false ->
  Sql.posting_known oid (db w) = false ->
  bookmarkOpportunity E memberId oid w = (Thrown Sql.FOREIGN_KEY, w).
Proof.
  unfold bookmarkOpportunity, isBookmarked, Sql.insert_bookmark,
    Sql.posting_known.
  run_async. simpl.
  rewrite filter_length_pos.
  intros H1 H2. rewrite H1. simpl. rewrite H2. simpl. now destruct w.
Qed.

Lemma bookmarkOpportunity_postings (memberId oid : string) (w : World) :
  opportunities (db (snd (bookmarkOpportunity E memberId oid w))) =
  opportunities (db w).
Proof.
  rewrite bookmarkOpportunity_db. now destruct (_ || _).
Qed.

Lemma toggled_rows (memberId oid : string) (l : list Bookmark.row) :
  List.length (filter (Sql.is_bookmark oid memberId) (toggled memberId oid l)) =
  if existsb (Sql.is_bookmark oid memberId) l then 0%nat else 1%nat.
Proof.
  unfold toggled. destruct (existsb _ l) eqn:Hex.
  - now rewrite filter_negb_none.
  - rewrite filter_app, filter_negb_none. simpl.
    now rewrite is_bookmark_self.
Qed.

Lemma toggled_present (memberId oid : string) (l : list Bookmark.row) :
  existsb (Sql.is_bookmark oid memberId) (toggled memberId oid l) =
  negb (existsb (Sql.is_bookmark oid memberId) l).
Proof.
  rewrite <- !filter_length_pos, toggled_rows, filter_length_pos.
  now destruct (existsb _ l).
Qed.

Lemma toggled_other (memberId oid m' o' : string) (l : list Bookmark.row) :
  (m', o') <> (memberId, oid) ->
  filter (Sql.is_bookmark o' m') (toggled memberId oid l) =
  filter (Sql.is_bookmark o' m') l.
Proof.
  intros Hne.
  assert (Hsep : forall b, Sql.is_bookmark o' m' b = true ->
                           Sql.is_bookmark oid memberId b = false).
  { intros b Hb. unfold Sql.is_bookmark in *.
    apply andb_true_iff in Hb. destruct Hb as [Ho Hm].
    apply String.eqb_eq in Ho, Hm.
    apply andb_false_iff.
    destruct (String.eqb (Bookmark.opportunityId b) oid) eqn:H1; [|now left].
    destruct (String.eqb (Bookmark.studentId b) memberId) eqn:H2; [|now right].
    apply String.eqb_eq in H1, H2. exfalso. apply Hne. congruence. }
  unfold toggled. destruct (existsb _ l).
  - now apply filter_other_pair.
  - rewrite filter_app, filter_other_pair by assumption. simpl.
    destruct (Sql.is_bookmark o' m' _) eqn:Hb; [|now rewrite app_nil_r].
    apply Hsep in Hb. now rewrite is_bookmark_self in Hb.
Qed.

(** C9.  For a member and a posting of the store, [bookmarkOpportunity]
    toggles the presence of the pair: when a row exists the call leaves
    none, when none exists it leaves exactly one; two calls in sequence
    restore the bookmarked state the pair started from; after any call
    the pair has at most one row; and the rows of every other pair are
    the rows it had before. *)
Theorem bookmark_toggles (memberId oid : string) (w : World) :
  Sql.posting_known oid (db w) = true ->
  let w1 := snd (bookmarkOpportunity E memberId oid w) in
  let w2 := snd (bookmarkOpportunity E memberId oid w1) in
  fst (bookmarkOpportunity E memberId oid w) = Returned (success tt) /\
  bookmarkRows memberId oid (db w1) =
    (if isBookmarked memberId oid (db w) then 0%nat else 1%nat) /\
  isBookmarked memberId oid (db w1) = negb (isBookmarked memberId oid (db w)) /\
  isBookmarked memberId oid (db w2) = isBookmarked memberId oid (db w) /\
  (bookmarkRows memberId oid (db w1) <= 1)%nat /\
  (bookmarkRows memberId oid (db w2) <= 1)%nat /\
  (forall m' o', (m', o') <> (memberId, oid) ->
     filter (Sql.is_bookmark o' m') (opportunityBookmarks (db w1)) =
     filter (Sql.is_bookmark o' m') (opportunityBookmarks (db w))).
Proof.
  intros Hknown. cbv zeta.
  assert (Hknown1 : Sql.posting_known oid
            (db (snd (bookmarkOpportunity E memberId oid w))) = true).
  { unfold Sql.posting_known. now rewrite bookmarkOpportunity_postings. }
  rewrite (bookmarkOpportunity_db memberId oid
             (snd (bookmarkOpportunity E memberId oid w))).
  rewrite Hknown1, orb_true_r.
  rewrite bookmarkOpportunity_db, Hknown, orb_true_r.
  unfold bookmarkRows, isBookmarked. simpl.
  rewrite !toggled_rows, !toggled_present, negb_involutive.
  repeat split.
  - apply bookmarkOpportunity_returns. rewrite Hknown. apply orb_true_r.
  - destruct (existsb _ _); simpl; lia.
  - destruct (existsb _ _); simpl; lia.
  - intros m' o' Hne. now apply toggled_other.
Qed.

(** X27.  A store without duplicate bookmarks stays so under any call
    of [bookmarkOpportunity]. *)
Lemma bookmark_keeps_at_most_one (memberId oid : string) (w : World) :
  atMostOnePerPair (db w) ->
  atMostOnePerPair (db (snd (bookmarkOpportunity E memberId oid w))).
Proof.
  intros H m' o'. unfold bookmarkRows. rewrite bookmarkOpportunity_db.
  destruct (_ || _); [simpl | apply H].
  destruct (string_dec m' memberId) as [->|Hm].
  - destruct (string_dec o' oid) as [->|Ho].
    + rewrite toggled_rows. destruct (existsb _ _); lia.
    + rewrite toggled_other by congruence. apply H.
  - rewrite toggled_other by congruence. apply H.
Qed.

End Bookmarks.

Lemma bookmark_toggles_witness :
  let w := Scenario.formerAdmin in
  let w1 := snd (bookmarkOpportunity Scenario.offline "member-2" "opp-1" w) in
  let w2 := snd (bookmarkOpportunity Scenario.offline "member-2" "opp-1" w1) in
  fst (bookmarkOpportunity Scenario.offline "member-2" "opp-1" w) =
    Returned (success tt) /\
  bookmarkRows "member-2" "opp-1" (db w1) = 1%nat /\
  isBookmarked "member-2" "opp-1" (db w1) = true /\
  isBookmarked "member-2" "opp-1" (db w2) = false.
Proof.
  cbv zeta.
  destruct (bookmark_toggles Scenario.offline "member-2" "opp-1"
              Scenario.formerAdmin eq_refl)
    as (Hreturns & Hrows & Hon & Hoff & _).
  repeat split; assumption.
Defined.

(* ------------------------------------------------------------------ *)
(** ** Reports *)

Section Reports.

Variable E : Env.

(** What the code decides on, once the report is accepted: the number
    of reports after recording this one, and whether any [admins] row
    carries the reporter. *)
Lemma reportOpportunity_removed (oid reason reporterId : string) (w : World)
    (d : Database) :
  Sql.insert_report
    {| Report.opportunityId := oid;
       Report.reason := reason;
       Report.reporterId := reporterId |} (db w) = Returned d ->
  fst (reportOpportunity E oid reason reporterId w) =
  Returned (success ((2 <=? Sql.count_reports oid d)%Z ||
                     existsb (fun a => String.eqb (Admin.memberId a) reporterId)
                             (admins d))).
Proof.
  intros Hins. unfold reportOpportunity. run_async. rewrite Hins. simpl.
  assert (Hadm : match hd_error (Sql.admins_of reporterId d) with
                 | Some _ => true | None => false end =
                 existsb (fun a => String.eqb (Admin.memberId a) reporterId)
                         (admins d)).
  { unfold Sql.admins_of. induction (admins d) as [|a l IH]; simpl; [reflexivity|].
    destruct (String.eqb (Admin.memberId a) reporterId); simpl; [reflexivity | exact IH]. }
  rewrite Hadm.
  destruct ((2 <=? Sql.count_reports oid d)%Z || existsb _ (admins d)); reflexivity.
Qed.

(** A report the foreign key refuses: the call rejects and leaves the
    world as it was. *)
Lemma reportOpportunity_refused (oid reason reporterId : string) (w : World)
    (e : Rejection) :
  Sql.insert_report
    {| Report.opportunityId := oid;
       Report.reason := reason;
       Report.reporterId := reporterId |} (db w) = Thrown e ->
  reportOpportunity E oid reason reporterId w = (Thrown e, w).
Proof.
  intros Hins. unfold reportOpportunity. run_async. now rewrite Hins.
Qed.

End Reports.

(** Reports of members who are not admins: the first keeps the posting
    open, a repeated one is not counted, the second reporter expires
    the posting. *)
Example member_reports :
  let w := Scenario.formerAdmin in
  let r1 := reportOpportunity Scenario.offline "opp-1" "spam" "member-2" w in
  let r2 := reportOpportunity Scenario.offline "opp-1" "again" "member-2"
              (snd r1) in
  let r3 := reportOpportunity Scenario.offline "opp-1" "dead" "member-3"
              (snd r2) in
  (fst r1, map Opportunity.expiresAt (opportunities (db (snd r1)))) =
    (Returned (success false), [Some (Scenario.noon + 2592000000)%Z]) /\
  (fst r2, Sql.count_reports "opp-1" (db (snd r2))) =
    (Returned (success false), 1%Z) /\
  (fst r3, map Opportunity.expiresAt (opportunities (db (snd r3)))) =
    (Returned (success true), [Some Scenario.noon]).
Proof. vm_compute. repeat split; reflexivity. Qed.

(** C2 (the code departs from the claim).  A member whose [admins] row
    is soft-deleted files the first report on an open posting: one
    report is stored, the reporter is not an active admin, and yet the
    call answers [removed: true] and sets [expiresAt] to now. *)
Theorem report_by_former_admin_expires :
  let w := Scenario.formerAdmin in
  let r := reportOpportunity Scenario.offline "opp-1" "dead link" "member-7" w in
  Sql.active_admin "member-7" (db w) = false /\
  Sql.count_reports "opp-1" (db (snd r)) = 1%Z /\
  fst r = Returned (success true) /\
  map Opportunity.expiresAt (opportunities (db w)) =
    [Some (Scenario.noon + 2592000000)%Z] /\
  map Opportunity.expiresAt (opportunities (db (snd r))) =
    [Some (now Scenario.offline)].
Proof. vm_compute. repeat split; reflexivity. Qed.

(* ------------------------------------------------------------------ *)
(** ** Deletion *)

Section Deletion.

Lemma hd_error_filter_none {A} (f : A -> bool) (l : list A) :
  hd_error (filter f l) = None -> forall x, In x l -> f x = false.
Proof.
  induction l as [|a l IH]; simpl; [tauto|].
  destruct (f a) eqn:Hf; simpl; [discriminate|].
  intros H x [<-|Hx]; auto.
Qed.

Lemma filter_nil_iff {A} (f : A -> bool) (l : list A) :
  (forall x, In x l -> f x = false) -> filter f l = [].
Proof.
  induction l as [|a l IH]; simpl; [reflexivity|].
  intros H. rewrite (H a) by now left. apply IH. intros x Hx. apply H. now right.
Qed.

(** C10, as amended.  Without a requesting member the posting is
    deleted and the call succeeds with its id, whatever the store
    holds.  A 403 is answered only to a supplied, non-empty member id,
    and only when that member posted no row with this id and, besides,
    either no row with this id exists or the member is not an active
    admin. *)
Theorem delete_permission (memberId : option string) (oid : string)
    (w : World) :
  deleteOpportunity None oid w =
    (Returned (success oid),
     {| db := Sql.delete_opportunity oid (db w); effects := effects w |}) /\
  (forall msg,
     fst (deleteOpportunity memberId oid w) = Returned (fail 403 msg) ->
     exists m, memberId = Some m /\ Js.truthy m = true /\
               ~ isPoster m oid (db w) /\
               (Sql.opportunities_by_id oid (db w) = [] \/
                Sql.active_admin m (db w) = false)).
Proof.
  split; [reflexivity|].
  intros msg. unfold deleteOpportunity, hasOpportunityWritePermission.
  run_async. simpl.
  destruct memberId as [m|]; simpl; [|discriminate].
  destruct (Js.truthy m) eqn:Hm; simpl; [|discriminate].
  destruct (hd_error _) eqn:Hfound; simpl; [discriminate|].
  intros _. exists m. split; [reflexivity|]. split; [exact Hm|]. split.
  - intros (o & Hin & Hid & Hposter).
    pose proof (hd_error_filter_none _ _ Hfound o Hin) as Hno.
    simpl in Hno. unfold Sql.has_id in Hno.
    rewrite Hid, String.eqb_refl, Hposter, String.eqb_refl in Hno.
    discriminate.
  - destruct (Sql.active_admin m (db w)) eqn:Hadmin; [left | now right].
    unfold Sql.opportunities_by_id. apply filter_nil_iff.
    intros o Hin.
    pose proof (hd_error_filter_none _ _ Hfound o Hin) as Hno.
    simpl in Hno. rewrite orb_true_r, andb_true_r in Hno. exact Hno.
Qed.

End Deletion.

(** C10 fails as worded: an active admin asking to delete an id that no
    row carries is answered 403. *)
Lemma delete_forbidden_to_active_admin :
  ~ forbidden_only_without_permission
      (Some "admin-1") "opp-9" Scenario.adminOnly.
Proof.
  intros H.
  destruct (H "You do not have permission to delete this opportunity."
              eq_refl) as (m & Hm & _ & Hadmin).
  injection Hm as <-. vm_compute in Hadmin. discriminate.
Qed.

Lemma delete_permission_witness :
  exists m, Some "admin-1" = Some m /\ Js.truthy m = true /\
            ~ isPoster m "opp-9" (db Scenario.adminOnly) /\
            (Sql.opportunities_by_id "opp-9" (db Scenario.adminOnly) = [] \/
             Sql.active_admin m (db Scenario.adminOnly) = false).
Proof.
  exact (proj2 (delete_permission (Some "admin-1") "opp-9"
                  Scenario.adminOnly)
               "You do not have permission to delete this opportunity."
               eq_refl).
Defined.

(* ------------------------------------------------------------------ *)
(** ** Expiration checks *)

Section Expiry.

Variable E : Env.

Local Open Scope Z_scope.

Lemma filter_andb {A} (f g : A -> bool) (l : list A) :
  filter (fun x => f x && g x) l = filter g (filter f l).
Proof.
  induction l as [|a l IH]; simpl; [reflexivity|].
  destruct (f a); simpl; [destruct (g a); now rewrite IH | exact IH].
Qed.

(** The query of [checkForExpiredOpportunity] when [oid] names [o]. *)
Lemma selected_for_check (oid : string) (force : bool) (d : Database)
    (o : Opportunity.row) :
  Sql.opportunities_by_id oid d = [o] ->
  hd_error (filter (isSelectedForCheck E oid force) (opportunities d)) =
  if isSelectedForCheck E oid force o then Some o else None.
Proof.
  intros Hid.
  assert (Ho : Sql.has_id oid o = true).
  { assert (Hin : In o (Sql.opportunities_by_id oid d)) by (rewrite Hid; now left).
    apply filter_In in Hin. tauto. }
  rewrite (filter_ext (isSelectedForCheck E oid force)
             (fun r => Sql.has_id oid r &&
                       (isSelectedForCheck E oid force r))).
  - rewrite filter_andb. fold (Sql.opportunities_by_id oid d). rewrite Hid.
    simpl. now destruct (isSelectedForCheck E oid force o).
  - intros r. unfold isSelectedForCheck.
    now destruct (Sql.has_id oid r).
Qed.

(** C7.  Let [oid] name the posting [o].  The call changes the world
    (store or effects) only if [o] has not expired and the check is
    forced or due (never checked, or last checked three hours ago or
    more).  Unforced and checked less than three hours ago, it answers
    [success(false)] and leaves the world as it was: no page is
    requested, no row is written.  Forced, on a posting that has not
    expired and has a link, it requests the page of that link whatever
    the last check was. *)
Theorem check_expired_throttle (oid : string) (force : bool) (w : World)
    (o : Opportunity.row) :
  Sql.opportunities_by_id oid (db w) = [o] ->
  let run := checkForExpiredOpportunity E oid force w in
  (snd run <> w -> notExpired E o /\ (force = true \/ dueForCheck E o)) /\
  (force = false -> checkedRecently E o ->
     run = (Returned (success false), w)) /\
  (force = true -> notExpired E o -> Js.truthy (Opportunity.link o) = true ->
     exists rest,
       effects (snd run) =
       (effects w ++ PageRequested (Opportunity.link o) :: rest)%list).
Proof.
  intros Hid run. subst run.
  unfold checkForExpiredOpportunity. run_async. simpl.
  rewrite (selected_for_check _ _ _ _ Hid).
  assert (Ho : Sql.has_id oid o = true).
  { assert (Hin : In o (Sql.opportunities_by_id oid (db w)))
      by (rewrite Hid; now left).
    apply filter_In in Hin. tauto. }
  unfold isSelectedForCheck. rewrite Ho. simpl.
  unfold notExpired, dueForCheck, checkedRecently.
  split; [|split].
  - destruct (Opportunity.expiresAt o) as [t|]; simpl;
      [|intros H; now elim H].
    destruct (now E <? t) eqn:Ht; simpl; [|intros H; now elim H].
    apply Z.ltb_lt in Ht.
    destruct force; simpl.
    + intros _. split; [now exists t | now left].
    + destruct (Opportunity.lastExpirationCheck o) as [c|]; simpl.
      * destruct (c <=? now E - THREE_HOURS) eqn:Hc; simpl;
          [|intros H; now elim H].
        apply Z.leb_le in Hc. intros _.
        split; [now exists t | right; right; now exists c].
      * intros _. split; [now exists t | right; now left].
  - intros -> (c & Hc & Hrecent). rewrite Hc. simpl.
    assert (Hold : (c <=? now E - THREE_HOURS) = false)
      by (apply Z.leb_gt; lia).
    rewrite Hold, andb_false_r. reflexivity.
  - intros -> (t & Ht & Hopen) Hlink. rewrite Ht. simpl.
    apply Z.ltb_lt in Hopen. rewrite Hopen. simpl.
    destruct (Opportunity.link o) as [|c url]; [discriminate Hlink|]. simpl.
    destruct (getPageContent E (String c url)) as [page|e]; simpl.
    + exists []. destruct (hasExpiredPhrase page); reflexivity.
    + exists [ExceptionReported e]. now rewrite <- app_assoc.
Qed.

End Expiry.

Lemma check_expired_throttle_witness :
  checkForExpiredOpportunity Scenario.offline "opp-1" false
    ExpiryScenario.board = (Returned (success false), ExpiryScenario.board) /\
  exists rest,
    effects (snd (checkForExpiredOpportunity Scenario.offline "opp-1" true
                    ExpiryScenario.board)) =
    (effects ExpiryScenario.board ++
     PageRequested "https://x.test/job" :: rest)%list.
Proof.
  split.
  - refine (proj1 (proj2 (check_expired_throttle Scenario.offline "opp-1"
                            false ExpiryScenario.board
                            ExpiryScenario.checkedAnHourAgo eq_refl))
                  eq_refl _).
    exists (Scenario.noon - 3600000)%Z. split; [reflexivity|].
    vm_compute. reflexivity.
  - refine (proj2 (proj2 (check_expired_throttle Scenario.offline "opp-1"
                            true ExpiryScenario.board
                            ExpiryScenario.checkedAnHourAgo eq_refl))
                  eq_refl _ eq_refl).
    exists (Scenario.noon + 2592000000)%Z. split; [reflexivity|].
    vm_compute. reflexivity.
Defined.

(* ------------------------------------------------------------------ *)
(** ** Strings: substring search and pattern matching *)

Section StringFacts.

Lemma startsWith_append (p rest : string) : Js.startsWith p (p ++ rest) = true.
Proof.
  induction p as [|c p IH]; simpl; [reflexivity|].
  now rewrite Ascii.eqb_refl, IH.
Qed.

(** [includes] finds every occurrence the text has. *)
Lemma includes_occurrence (p pre post : string) :
  Js.includes p (pre ++ p ++ post) = true.
Proof.
  induction pre as [|c pre IH]; simpl.
  - destruct (p ++ post) eqn:Happ; simpl;
      rewrite <- Happ, startsWith_append; reflexivity.
  - rewrite IH. apply orb_true_r.
Qed.

Lemma expired_phrase_not_empty (phrase : string) :
  In phrase EXPIRED_PHRASES -> phrase <> EmptyString.
Proof.
  unfold EXPIRED_PHRASES. simpl. intros H.
  repeat (destruct H as [<-|H]; [discriminate|]). contradiction.
Qed.

Lemma hasExpiredPhrase_occurrence (page phrase pre post : string) :
  In phrase EXPIRED_PHRASES ->
  Js.toLowerCase page = pre ++ phrase ++ post ->
  hasExpiredPhrase page = true /\ Js.truthy page = true.
Proof.
  intros Hin Hocc. split.
  - unfold hasExpiredPhrase. apply existsb_exists. exists phrase.
    split; [exact Hin|]. rewrite Hocc. apply includes_occurrence.
  - destruct page; [|reflexivity]. simpl in Hocc.
    apply expired_phrase_not_empty in Hin.
    destruct pre; [|discriminate]. destruct phrase; [congruence | discriminate].
Qed.

Lemma lower_char_special (c d : ascii) :
  d = Like.backslash \/ d = Like.percent \/ d = Like.underscore ->
  Ascii.eqb (Js.lower_char c) d = Ascii.eqb c d.
Proof.
  intros [->|[->| ->]];
    destruct c as [[] [] [] [] [] [] [] []]; reflexivity.
Qed.

Lemma lower_keeps_backslash (s : string) :
  hasBackslash (Js.toLowerCase s) = hasBackslash s.
Proof.
  induction s as [|c s IH]; simpl; [reflexivity|].
  rewrite IH, lower_char_special by auto. reflexivity.
Qed.

Lemma scan_never_refuses (first : ascii) (rest : string -> Like.verdict)
    (t : string) :
  (forall t', rest t' <> Like.BadEscape) ->
  forall skip, Like.scan first rest skip t <> Like.BadEscape.
Proof.
  intros Hrest. induction t as [|x t IH]; simpl; intros skip; [discriminate|].
  destruct skip as [|k]; [|apply IH].
  destruct (Ascii.eqb x first); [|apply IH].
  pose proof (Hrest t) as Hr. destruct (rest t); try discriminate;
    [apply IH | contradiction].
Qed.

(** A pattern without a backslash is never refused. *)
Lemma no_backslash_never_refused (p : string) :
  hasBackslash p = false ->
  forall wild t, Like.matchText wild p t <> Like.BadEscape.
Proof.
  induction p as [|c p IH]; intros Hp wild t.
  - simpl. destruct wild; [discriminate | destruct t; discriminate].
  - simpl in Hp. apply orb_false_iff in Hp. destruct Hp as [Hc Hp].
    specialize (IH Hp). cbn [Like.matchText]. rewrite Hc.
    destruct wild.
    + destruct (Ascii.eqb c Like.percent); [apply IH|].
      destruct (Ascii.eqb c Like.underscore).
      * destruct t; [discriminate | apply IH].
      * apply scan_never_refuses. apply IH.
    + destruct t as [|x t].
      * destruct (Like.only_percent _); discriminate.
      * destruct (Ascii.eqb c Like.percent); [apply IH|].
        destruct (Ascii.eqb c Like.underscore); [apply IH|].
        destruct (Ascii.eqb c x); [apply IH | discriminate].
Qed.

Lemma ilike_accepted (value pattern : string) :
  hasBackslash pattern = false ->
  Like.ilike value pattern = Returned (ilikeHolds value pattern).
Proof.
  intros Hp. unfold ilikeHolds, Like.ilike.
  pose proof (no_backslash_never_refused (Js.toLowerCase pattern)) as H.
  rewrite lower_keeps_backslash in H. specialize (H Hp false (Js.toLowerCase value)).
  destruct (Like.matchText _ _ _); try reflexivity. contradiction.
Qed.

Lemma wildcards_app (a b : string) :
  wildcards a = true -> wildcards b = true -> wildcards (a ++ b) = true.
Proof.
  induction a as [|c a IH]; simpl; [auto|].
  intros Ha Hb. apply andb_true_iff in Ha. destruct Ha as [Hc Ha].
  rewrite Hc. simpl. auto.
Qed.

Lemma wildcard_is_one_byte (c : ascii) :
  Ascii.eqb c Like.percent || Ascii.eqb c Like.underscore = true ->
  Like.char_bytes c = 1%nat.
Proof.
  intros H. apply orb_true_iff in H.
  destruct H as [H|H]; apply Ascii.eqb_eq in H; subst; reflexivity.
Qed.

(** Past a [%], the search skips wildcard characters of the text that
    are not the literal it looks for. *)
Lemma scan_skips_wildcards (first : ascii) (rest : string -> Like.verdict)
    (w t : string) :
  wildcards w = true ->
  Ascii.eqb first Like.percent = false ->
  Ascii.eqb first Like.underscore = false ->
  Like.scan first rest 0 (w ++ t) = Like.scan first rest 0 t.
Proof.
  intros Hw Hp Hu. induction w as [|x w IH]; simpl; [reflexivity|].
  simpl in Hw. apply andb_true_iff in Hw. destruct Hw as [Hx Hw].
  rewrite (wildcard_is_one_byte x Hx). simpl.
  assert (Hne : Ascii.eqb x first = false).
  { apply orb_true_iff in Hx. destruct Hx as [Hx|Hx];
      apply Ascii.eqb_eq in Hx; subst x; now rewrite Ascii.eqb_sym. }
  rewrite Hne. now apply IH.
Qed.

Lemma append_snoc (a b : string) (c : ascii) :
  (a ++ String c EmptyString) ++ b = a ++ String c b.
Proof. induction a as [|x a IH]; simpl; [reflexivity | now rewrite IH]. Qed.

(** A text without a backslash, taken as a pattern, matches itself;
    and past a [%] it matches itself behind any run of wildcard
    characters. *)
Lemma matches_itself (s : string) :
  hasBackslash s = false ->
  Like.matchText false s s = Like.Match /\
  forall w, wildcards w = true ->
            Like.matchText true s (w ++ s) = Like.Match.
Proof.
  induction s as [|c s IH]; intros Hs.
  - split; [reflexivity|]. intros w _. reflexivity.
  - simpl in Hs. apply orb_false_iff in Hs. destruct Hs as [Hc Hs].
    destruct (IH Hs) as [IHplain IHwild]. clear IH.
    assert (Hwild : forall w, wildcards w = true ->
              Like.matchText true (String c s) (w ++ String c s) = Like.Match).
    { intros w Hw. cbn [Like.matchText].
      destruct (Ascii.eqb c Like.percent) eqn:Hpc.
      - rewrite <- append_snoc. apply IHwild. apply wildcards_app; [exact Hw|].
        simpl. now rewrite Hpc.
      - destruct (Ascii.eqb c Like.underscore) eqn:Hus.
        + destruct w as [|x w]; simpl.
          * apply Ascii.eqb_eq in Hus. subst c. simpl.
            apply (IHwild EmptyString). reflexivity.
          * simpl in Hw. apply andb_true_iff in Hw. destruct Hw as [Hx Hw].
            rewrite (wildcard_is_one_byte x Hx). simpl.
            rewrite <- append_snoc. apply IHwild.
            apply wildcards_app; [exact Hw|]. simpl. now rewrite Hus, orb_true_r.
        + rewrite Hc. rewrite scan_skips_wildcards by assumption.
          simpl. now rewrite Ascii.eqb_refl, IHplain. }
    split; [|exact Hwild].
    cbn [Like.matchText]. rewrite Hc.
    destruct (Ascii.eqb c Like.percent) eqn:Hpc.
    + apply Ascii.eqb_eq in Hpc. subst c.
      apply (IHwild (String Like.percent EmptyString)). reflexivity.
    + destruct (Ascii.eqb c Like.underscore) eqn:Hus.
      * apply Ascii.eqb_eq in Hus. subst c. simpl. exact IHplain.
      * now rewrite Ascii.eqb_refl.
Qed.

(** A pattern without a backslash matches every text that equals it up
    to case. *)
Lemma plain_pattern_matches_itself (p : string) :
  hasBackslash p = false ->
  forall s, Js.toLowerCase s = Js.toLowerCase p ->
            Like.ilike s p = Returned true.
Proof.
  intros Hp s Hs. unfold Like.ilike. rewrite Hs.
  destruct (matches_itself (Js.toLowerCase p)) as [Hm _].
  - now rewrite lower_keeps_backslash.
  - now rewrite Hm.
Qed.

Lemma where_total {A} (p : A -> Outcome bool) (f : A -> bool) (rows : list A) :
  (forall r, p r = Returned (f r)) ->
  Sql.where_ p rows = Returned (filter f rows).
Proof.
  intros Hp. induction rows as [|r rows IH]; simpl; [reflexivity|].
  rewrite Hp, IH. reflexivity.
Qed.

End StringFacts.

(* ------------------------------------------------------------------ *)
(** ** Submission by link *)

Section Submission.

Variable E : Env.

(** C3.  When the duplicate check finds nothing and the page fetched
    for the link contains, in any letter case, a phrase of
    [EXPIRED_PHRASES], [addOpportunity] answers the 404 failure, and
    afterwards the store holds no row under the id of the submission:
    every posting it holds was there before. *)
Theorem expired_page_is_not_posted (link postedBy page : string)
    (w : World) :
  Sql.opportunities_ilike link (db w) = Returned [] ->
  getPageContent E link = Returned page ->
  (exists phrase pre post,
     In phrase EXPIRED_PHRASES /\
     Js.toLowerCase page = pre ++ phrase ++ post) ->
  let run := addOpportunity E link postedBy w in
  fst run = Returned (fail 404 CLOSED_MESSAGE) /\
  Sql.opportunities_by_id (freshId E) (db (snd run)) = [] /\
  (forall o, In o (opportunities (db (snd run))) ->
             In o (opportunities (db w)) /\ Opportunity.id o <> freshId E).
Proof.
  intros Hnone Hpage (phrase & pre & post & Hin & Hocc) run. subst run.
  destruct (hasExpiredPhrase_occurrence _ _ _ _ Hin Hocc) as [Hexp Htruthy].
  unfold addOpportunity. run_async. rewrite Hnone. cbn beta iota.
  rewrite Hpage. cbn beta iota. rewrite Htruthy, Hexp. cbn.
  split; [reflexivity|]. split.
  - unfold Sql.opportunities_by_id. simpl. apply filter_negb_none.
  - intros o Ho. apply filter_In in Ho. destruct Ho as [Ho Hid].
    apply in_app_or in Ho. unfold Sql.has_id in Hid.
    destruct Ho as [Ho|[<-|[]]].
    + split; [exact Ho|]. intros Heq. rewrite Heq, String.eqb_refl in Hid.
      discriminate.
    + simpl in Hid. rewrite String.eqb_refl in Hid. discriminate.
Qed.

(** X10.  Links without a backslash: a posting whose link equals the
    submitted one up to case makes [addOpportunity] answer the 409
    failure and leave the world as it was. *)
Lemma duplicate_link_conflicts (link postedBy : string) (w : World)
    (o : Opportunity.row) :
  hasBackslash link = false ->
  In o (opportunities (db w)) ->
  Js.toLowerCase (Opportunity.link o) = Js.toLowerCase link ->
  addOpportunity E link postedBy w =
  (Returned (fail 409 "Someone already posted this link."), w).
Proof.
  intros Hplain Hin Hsame.
  unfold addOpportunity. run_async.
  unfold Sql.opportunities_ilike.
  rewrite (where_total _ (fun r => ilikeHolds (Opportunity.link r) link)).
  - destruct (filter _ _) eqn:Hf; [|reflexivity].
    assert (Hno : In o (filter (fun r => ilikeHolds (Opportunity.link r) link)
                               (opportunities (db w)))).
    { apply filter_In. split; [exact Hin|]. unfold ilikeHolds.
      now rewrite (plain_pattern_matches_itself link Hplain _ Hsame). }
    rewrite Hf in Hno. contradiction.
  - intros r. now apply ilike_accepted.
Qed.

End Submission.

Lemma expired_page_is_not_posted_witness :
  let run := addOpportunity SubmissionScenario.closedPage
               "https://x.test/job" "member-1"
               (Scenario.world Scenario.emptyDb) in
  fst run = Returned (fail 404 CLOSED_MESSAGE) /\
  Sql.opportunities_by_id "opp-2" (db (snd run)) = [] /\
  (forall o, In o (opportunities (db (snd run))) ->
             In o [] /\ Opportunity.id o <> "opp-2").
Proof.
  apply (expired_page_is_not_posted SubmissionScenario.closedPage
           "https://x.test/job" "member-1" "This posting has EXPIRED."
           (Scenario.world Scenario.emptyDb)).
  - reflexivity.
  - reflexivity.
  - exists "expired", "this posting has ", ".". split.
    + unfold EXPIRED_PHRASES. simpl. tauto.
    + reflexivity.
Defined.

(** C4 (the code departs from the claim).  The board holds a posting
    whose link contains a backslash; the very same link is submitted
    again.  As an [ILIKE] pattern the backslash escapes the character
    after it, so the stored link does not match, no 409 is answered and
    a second row with the same link is inserted. *)
Theorem duplicate_link_with_backslash_is_posted_twice :
  let w := SubmissionScenario.backslashBoard in
  let run := addOpportunity Scenario.offline
               SubmissionScenario.backslashLink "member-2" w in
  map Opportunity.link (opportunities (db w)) =
    [SubmissionScenario.backslashLink] /\
  Like.ilike SubmissionScenario.backslashLink
             SubmissionScenario.backslashLink = Returned false /\
  fst run = Returned (success "opp-2") /\
  map Opportunity.link (opportunities (db (snd run))) =
    [SubmissionScenario.backslashLink; SubmissionScenario.backslashLink].
Proof. vm_compute. repeat split; reflexivity. Qed.

(* ------------------------------------------------------------------ *)
(** ** Refinement *)

Section Refinement.

Variable E : Env.

Lemma extracted_unique (input : RefineOpportunityInput) (w : World)
    (d1 d2 : RefineOpportunityResponse) :
  extracted E input w d1 -> extracted E input w d2 -> d1 = d2.
Proof.
  intros (c1 & j1 & Hc1 & Hj1 & Hd1) (c2 & j2 & Hc2 & Hj2 & Hd2).
  congruence.
Qed.

Ltac run_refine :=
  cbv beta iota delta
    [refineOpportunity bind ret query emit lift when job
     sendOpportunityRefinementNotification].

(** The three ways a call can go: nothing is written; the transaction
    rejects and is rolled back; the transaction commits. *)
Lemma refineOpportunity_cases (input : RefineOpportunityInput) (w : World) :
  let run := refineOpportunity E input w in
  (db (snd run) = db w /\ ~ committed (fst run) /\
   ~ (exists data, extracted E input w data /\ usable data = true)) \/
  (exists data w0 e w1,
     extracted E input w data /\ usable data = true /\ db w0 = db w /\
     transaction (refineTransaction E input data) w0 = (Thrown e, w1) /\
     run = (Thrown e, w1)) \/
  (exists data w0 row w1,
     extracted E input w data /\ usable data = true /\ db w0 = db w /\
     transaction (refineTransaction E input data) w0 = (Returned row, w1) /\
     fst run = Returned (success (Some row)) /\ db (snd run) = db w1).
Proof.
  cbv zeta. unfold extracted, committed, usable. run_refine. simpl.
  destruct (getChatCompletion E _ _) as [[completion|code err]|e] eqn:Hc; simpl.
  - destruct (JSON_parse E completion) as [j|] eqn:Hj; simpl.
    + destruct (RefineOpportunityResponse_parse j) as [data|] eqn:Hd; simpl.
      * destruct (Js.truthy_opt (title data) &&
                  Js.truthy_opt (description data)) eqn:Hu.
        -- apply andb_true_iff in Hu. destruct Hu as [Ht Hde].
           rewrite Ht, Hde. simpl.
           match goal with
           | |- context [transaction ?m ?w0] =>
               destruct (transaction m w0) as [[row|e] w1] eqn:Htx
           end.
           ++ right. right. exists data. eexists. exists row, w1.
              split; [now exists completion, j|].
              split; [now rewrite Ht, Hde|].
              split; [|split; [exact Htx|]].
              ** reflexivity.
              ** repeat (split_match; simpl); split; reflexivity.
           ++ right. left. exists data. eexists. exists e, w1.
              split; [now exists completion, j|].
              split; [now rewrite Ht, Hde|].
              split; [|split; [exact Htx|reflexivity]].
              reflexivity.
        -- left.
           assert (Hn : negb (Js.truthy_opt (title data)) ||
                        negb (Js.truthy_opt (description data)) = true).
           { rewrite <- negb_andb, Hu. reflexivity. }
           rewrite Hn.
           split; [|split].
           ++ repeat (split_match; simpl); reflexivity.
           ++ intros (row & Hrow).
              revert Hrow. repeat (split_match; simpl); discriminate.
           ++ intros (data' & (c' & j' & Hc' & Hj' & Hd') & Hu').
              assert (data' = data) by congruence. subst data'. congruence.
      * left. split; [reflexivity|]. split.
        -- intros (row & Hrow). discriminate.
        -- intros (data' & (c' & j' & Hc' & Hj' & Hd') & Hu'). congruence.
    + left. split; [reflexivity|]. split.
      * intros (row & Hrow). discriminate.
      * intros (data' & (c' & j' & Hc' & Hj' & Hd') & Hu'). congruence.
  - left. split; [reflexivity|]. split.
    + intros (row & Hrow). discriminate.
    + intros (data' & (c' & j' & Hc' & Hj' & Hd') & Hu'). congruence.
  - left. split; [reflexivity|]. split.
    + intros (row & Hrow). discriminate.
    + intros (data' & (c' & j' & Hc' & Hj' & Hd') & Hu'). congruence.
Qed.

Lemma transaction_rolls_back {A} (m : Async A) (w w1 : World) (e : Rejection) :
  transaction m w = (Thrown e, w1) -> db w1 = db w.
Proof.
  unfold transaction. destruct (m w) as [[a|e'] w']; intros H; inversion H.
  reflexivity.
Qed.

Lemma apply_id (p : Opportunity.patch) (o : Opportunity.row) :
  Opportunity.id (Opportunity.apply p o) = Opportunity.id o.
Proof. reflexivity. Qed.

Lemma updated_row_id (oid : string) (p : Opportunity.patch) (d : Database)
    (o : Opportunity.row) (rest : list Opportunity.row) :
  Sql.updated_rows (Sql.has_id oid) p d = o :: rest -> Opportunity.id o = oid.
Proof.
  unfold Sql.updated_rows. intros H.
  assert (Hin : In o (map (Opportunity.apply p)
                          (filter (Sql.has_id oid) (opportunities d))))
    by (rewrite H; now left).
  apply in_map_iff in Hin. destruct Hin as (o0 & <- & Hin).
  apply filter_In in Hin. destruct Hin as [_ Hid].
  now apply String.eqb_eq in Hid.
Qed.

Lemma posting_known_update (oid : string) (cond : Opportunity.row -> bool)
    (p : Opportunity.patch) (d : Database) :
  Sql.posting_known oid (Sql.update_opportunities cond p d) =
  Sql.posting_known oid d.
Proof.
  unfold Sql.posting_known, Sql.update_opportunities. simpl.
  induction (opportunities d) as [|o l IH]; simpl; [reflexivity|].
  rewrite IH. now destruct (cond o).
Qed.

(** The associations [refineTransaction] inserts name the posting its
    update has just returned: the foreign key accepts them, and the
    statement does what [Sql.insert_associations] says. *)
Lemma refine_insert_is_accepted (oid : string) (p : Opportunity.patch)
    (d : Database) (o : Opportunity.row) (rest : list Opportunity.row)
    (names : list string) :
  Sql.updated_rows (Sql.has_id oid) p d = o :: rest ->
  let d2 := Sql.update_opportunities (neverRefined oid) (refinedNow E)
              (Sql.update_opportunities (Sql.has_id oid) p d) in
  let rows := tagRows (Refined.id (Refined.project o))
                      (Sql.tags_named names d2) in
  Sql.insert_associations_checked rows d2 =
  Returned (Sql.insert_associations rows d2).
Proof.
  intros Hrows d2 rows. unfold Sql.insert_associations_checked.
  assert (Hknown : Sql.posting_known oid d2 = true).
  { unfold d2. rewrite !posting_known_update. unfold Sql.posting_known.
    rewrite <- filter_length_pos. unfold Sql.updated_rows in Hrows.
    destruct (filter _ _); [discriminate | reflexivity]. }
  assert (Hall : forallb (fun a =>
                   existsb (TagAssociation.same a)
                           (opportunityTagAssociations d2) ||
                   Sql.posting_known (TagAssociation.opportunityId a) d2)
                 rows = true).
  { apply forallb_forall. intros a Hin. unfold rows, tagRows in Hin.
    apply in_map_iff in Hin. destruct Hin as (t & <- & _). simpl.
    rewrite (updated_row_id _ _ _ _ _ Hrows), Hknown. apply orb_true_r. }
  now rewrite Hall.
Qed.

Lemma refineTransaction_commits (input : RefineOpportunityInput)
    (data : RefineOpportunityResponse) (w0 w1 : World) (row : Refined.row) :
  transaction (refineTransaction E input data) w0 = (Returned row, w1) ->
  exists companyId expiry,
    resolveCompany E data = Returned companyId /\
    resolveExpiry E data = Returned expiry /\
    Refined.id row = opportunityId input /\
    db w1 = committedDb E (opportunityId input) data companyId expiry (db w0).
Proof.
  unfold transaction, refineTransaction, committedDb. run_async.
  destruct (resolveCompany E data) as [cid|e]; [|discriminate].
  destruct (resolveExpiry E data) as [exp|e]; [|discriminate].
  cbn beta iota.
  destruct (Sql.updated_rows _ _ _) as [|o rest] eqn:Hrows; [discriminate|].
  apply updated_row_id in Hrows.
  cbn [db effects Refined.project Refined.id]. rewrite Hrows.
  destruct (tags data) as [names|].
  - destruct (Sql.values_given _); [|discriminate].
    intros H. inversion H. subst. exists cid, exp. repeat split; assumption.
  - intros H. inversion H. subst. exists cid, exp. repeat split; assumption.
Qed.

Lemma committedDb_opportunities (oid : string)
    (data : RefineOpportunityResponse) (companyId : option string)
    (expiry : option (option Z)) (d : Database) :
  opportunities (committedDb E oid data companyId expiry d) =
  map (refinedRow E oid (refinePatch data companyId expiry)) (opportunities d).
Proof.
  unfold committedDb. cbv zeta.
  destruct (tags data); simpl; rewrite map_map; reflexivity.
Qed.

Lemma refinedRow_id (oid : string) (p : Opportunity.patch)
    (o : Opportunity.row) :
  Opportunity.id (refinedRow E oid p o) = Opportunity.id o.
Proof.
  unfold refinedRow. cbv zeta.
  destruct (Sql.has_id oid o); destruct (neverRefined oid _); reflexivity.
Qed.

Lemma refinedRow_refinedAt (oid : string) (p : Opportunity.patch)
    (o : Opportunity.row) :
  Opportunity.set_refinedAt p = None ->
  Opportunity.refinedAt (refinedRow E oid p o) = Opportunity.refinedAt o \/
  (Opportunity.refinedAt o = None /\
   Opportunity.refinedAt (refinedRow E oid p o) = Some (now E)).
Proof.
  intros Hp. unfold refinedRow, neverRefined, Sql.refinedAt_is_null. cbv zeta.
  destruct (Sql.has_id oid o) eqn:Hid; simpl; rewrite ?Hp, ?Hid; simpl.
  - unfold Sql.has_id in *. simpl. rewrite Hid. simpl.
    destruct (Opportunity.refinedAt o) eqn:Hr; simpl; rewrite ?Hp, ?Hr; simpl;
      auto.
  - left. reflexivity.
Qed.

Lemma refinedRow_expiresAt (oid : string) (p : Opportunity.patch)
    (o : Opportunity.row) :
  Opportunity.set_expiresAt p = None ->
  Opportunity.expiresAt (refinedRow E oid p o) = Opportunity.expiresAt o.
Proof.
  intros Hp. unfold refinedRow. cbv zeta.
  destruct (Sql.has_id oid o); destruct (neverRefined oid _); simpl;
    rewrite ?Hp; reflexivity.
Qed.

Lemma refinedRow_fields (oid : string) (p : Opportunity.patch)
    (o : Opportunity.row) :
  Opportunity.id o = oid ->
  Opportunity.title (refinedRow E oid p o) =
    Opportunity.assign (Opportunity.set_title p) (Opportunity.title o) /\
  Opportunity.description (refinedRow E oid p o) =
    Opportunity.assign (Opportunity.set_description p)
                       (Opportunity.description o) /\
  Opportunity.companyId (refinedRow E oid p o) =
    Opportunity.assign (Opportunity.set_companyId p) (Opportunity.companyId o).
Proof.
  intros Hid. unfold refinedRow, Sql.has_id. cbv zeta.
  rewrite Hid, String.eqb_refl.
  destruct (neverRefined oid _); simpl; repeat split; reflexivity.
Qed.

Lemma Forall2_map_same {A B} (R : B -> B -> Prop) (f : A -> B) (g : A -> A)
    (l : list A) :
  (forall a, R (f a) (f (g a))) -> Forall2 R (map f l) (map f (map g l)).
Proof.
  intros H. induction l as [|a l IH]; simpl; constructor; auto.
Qed.

Lemma setOnce_refl (P : Prop) (l : list (option Z)) :
  Forall2 (setOnce E P) l l.
Proof. induction l; constructor; [now left | assumption]. Qed.

Lemma refine_step (input : RefineOpportunityInput) (w : World) :
  let run := refineOpportunity E input w in
  map Opportunity.id (opportunities (db (snd run))) =
    map Opportunity.id (opportunities (db w)) /\
  Forall2 (setOnce E (committed (fst run)))
          (refinedAtColumn (db w)) (refinedAtColumn (db (snd run))).
Proof.
  cbv zeta. unfold refinedAtColumn.
  destruct (refineOpportunity_cases input w)
    as [(Hdb & _ & _) |
        [(data & w0 & e & w1 & _ & _ & Hw0 & Htx & Hrun) |
         (data & w0 & row & w1 & _ & _ & Hw0 & Htx & Hres & Hdb)]].
  - rewrite Hdb. split; [reflexivity | apply setOnce_refl].
  - rewrite Hrun. simpl. apply transaction_rolls_back in Htx.
    rewrite Htx, Hw0. split; [reflexivity | apply setOnce_refl].
  - apply refineTransaction_commits in Htx.
    destruct Htx as (cid & exp & _ & _ & _ & Hw1).
    rewrite Hdb, Hw1, Hw0, committedDb_opportunities. split.
    + rewrite map_map. apply map_ext. intros o. apply refinedRow_id.
    + apply Forall2_map_same. intros o.
      destruct (refinedRow_refinedAt (opportunityId input)
                  (refinePatch data cid exp) o eq_refl) as [H|[H1 H2]].
      * now left.
      * right. repeat split; try assumption. now exists row.
Qed.


Lemma add_association_keeps (l : list TagAssociation.row)
    (a x : TagAssociation.row) :
  In x l -> In x (Sql.add_association l a).
Proof.
  unfold Sql.add_association. destruct (existsb _ l); [trivial|].
  intros H. apply in_or_app. now left.
Qed.

Lemma add_association_adds (l : list TagAssociation.row)
    (a : TagAssociation.row) :
  In a (Sql.add_association l a).
Proof.
  unfold Sql.add_association. destruct (existsb _ l) eqn:Hex.
  - apply existsb_exists in Hex. destruct Hex as (x & Hx & Hsame).
    unfold TagAssociation.same in Hsame. apply andb_true_iff in Hsame.
    destruct Hsame as [H1 H2]. apply String.eqb_eq in H1, H2.
    destruct a, x. simpl in *. subst. exact Hx.
  - apply in_or_app. right. now left.
Qed.

Lemma insert_associations_keeps (rows l : list TagAssociation.row)
    (x : TagAssociation.row) :
  In x l -> In x (fold_left Sql.add_association rows l).
Proof.
  revert l. induction rows as [|a rows IH]; simpl; [trivial|].
  intros l H. apply IH. now apply add_association_keeps.
Qed.

Lemma insert_associations_adds (rows l : list TagAssociation.row)
    (a : TagAssociation.row) :
  In a rows -> In a (fold_left Sql.add_association rows l).
Proof.
  revert l. induction rows as [|b rows IH]; simpl; [contradiction|].
  intros l [<-|H].
  - apply insert_associations_keeps, add_association_adds.
  - now apply IH.
Qed.

Lemma committedDb_applied (oid : string) (data : RefineOpportunityResponse)
    (companyId : option string) (expiry : option (option Z)) (d : Database)
    (o : Opportunity.row) :
  usable data = true ->
  resolveCompany E data = Returned companyId ->
  In o (opportunities (committedDb E oid data companyId expiry d)) ->
  Opportunity.id o = oid ->
  applied E oid data d (committedDb E oid data companyId expiry d) o.
Proof.
  intros Hu Hc Hin Hid. unfold usable in Hu.
  apply andb_true_iff in Hu. destruct Hu as [Ht Hd].
  rewrite committedDb_opportunities in Hin. apply in_map_iff in Hin.
  destruct Hin as (o0 & <- & _). rewrite refinedRow_id in Hid.
  destruct (refinedRow_fields oid (refinePatch data companyId expiry) o0 Hid)
    as (Htitle & Hdesc & Hcompany).
  unfold applied. rewrite Htitle, Hdesc, Hcompany, Hc. simpl.
  rewrite Ht, Hd.
  destruct (title data) as [t|]; [|discriminate].
  destruct (description data) as [de|]; [|discriminate].
  repeat split.
  intros names tag Hnames Htag Hname. unfold committedDb. cbv zeta.
  rewrite Hnames. simpl. apply insert_associations_adds.
  unfold tagRows. apply in_map_iff. exists tag. split; [reflexivity|].
  unfold Sql.tags_named. simpl. apply filter_In. split; [exact Htag|].
  apply existsb_exists. exists (Tag.name tag). split; [exact Hname|].
  apply String.eqb_refl.
Qed.

(** C6, as amended.  For an extraction whose [expiresAt] is null the
    stored [expiresAt] of every posting is what it was before the call.
    When the extraction carries a title and a description and the call
    returns, the title, the description and the resolved company are on
    the posting and every catalog tag the extraction names is
    associated with it. *)
Theorem null_expiry_keeps_expiresAt (input : RefineOpportunityInput)
    (w : World) (data : RefineOpportunityResponse) :
  extracted E input w data ->
  expiresAt data = None ->
  let run := refineOpportunity E input w in
  map Opportunity.expiresAt (opportunities (db (snd run))) =
    map Opportunity.expiresAt (opportunities (db w)) /\
  (usable data = true ->
   forall r, fst run = Returned r ->
   forall o, In o (opportunities (db (snd run))) ->
             Opportunity.id o = opportunityId input ->
             applied E (opportunityId input) data (db w) (db (snd run)) o).
Proof.
  intros Hex Hnull. cbv zeta.
  destruct (refineOpportunity_cases input w)
    as [(Hdb & _ & Hnot) |
        [(data' & w0 & e & w1 & Hex' & _ & Hw0 & Htx & Hrun) |
         (data' & w0 & row & w1 & Hex' & Hu' & Hw0 & Htx & Hres & Hdb)]].
  - rewrite Hdb. split; [reflexivity|].
    intros Hu. exfalso. apply Hnot. now exists data.
  - rewrite Hrun. simpl. apply transaction_rolls_back in Htx.
    rewrite Htx, Hw0. split; [reflexivity|]. intros _ r Hr. discriminate.
  - assert (data' = data) by (eapply extracted_unique; eassumption).
    subst data'. apply refineTransaction_commits in Htx.
    destruct Htx as (cid & exp & Hcid & Hexp & _ & Hw1).
    assert (exp = None).
    { unfold resolveExpiry in Hexp. rewrite Hnull in Hexp. congruence. }
    subst exp. rewrite Hdb, Hw1, Hw0. split.
    + rewrite committedDb_opportunities, map_map. apply map_ext.
      intros o. now apply refinedRow_expiresAt.
    + intros Hu r _ o Hin Hid. now apply committedDb_applied.
Qed.

End Refinement.

Lemma refinedAt_kept_by_step (E : Env) (P : Prop) (l l' : list (option Z))
    (i : nat) (t : Z) :
  Forall2 (setOnce E P) l l' ->
  nth_error l i = Some (Some t) -> nth_error l' i = Some (Some t).
Proof.
  intros H. revert i. induction H as [|a b l l' Hab _ IH]; intros i Hi.
  - destruct i; discriminate.
  - destruct i as [|i]; simpl in *.
    + injection Hi as ->. destruct Hab as [->|(Hnone & _)];
        [reflexivity | discriminate].
    + now apply IH.
Qed.

Lemma refinedAt_kept (calls : list (Env * RefineOpportunityInput))
    (w : World) (i : nat) (t : Z) :
  nth_error (refinedAtColumn (db w)) i = Some (Some t) ->
  nth_error (refinedAtColumn (db (refineAll calls w))) i = Some (Some t).
Proof.
  revert w. induction calls as [|[E input] calls IH]; intros w Hi; simpl.
  - exact Hi.
  - apply IH.
    eapply refinedAt_kept_by_step; [apply (refine_step E input w) | exact Hi].
Qed.

(** C1.  One call of [refineOpportunity] keeps the postings in place and
    moves the [refinedAt] of each either not at all or from null to now,
    the latter only when the call committed and answered success with
    the refined row.  Hence a [refinedAt] that holds a timestamp holds
    the same timestamp after any further run of calls, whatever the AI
    answers in them. *)
Theorem refinedAt_set_at_most_once (E : Env) (input : RefineOpportunityInput)
    (calls : list (Env * RefineOpportunityInput)) (w : World) :
  let run := refineOpportunity E input w in
  map Opportunity.id (opportunities (db (snd run))) =
    map Opportunity.id (opportunities (db w)) /\
  Forall2 (setOnce E (committed (fst run)))
          (refinedAtColumn (db w)) (refinedAtColumn (db (snd run))) /\
  (forall i t,
     nth_error (refinedAtColumn (db w)) i = Some (Some t) ->
     nth_error (refinedAtColumn (db (refineAll calls w))) i = Some (Some t)).
Proof.
  cbv zeta. destruct (refine_step E input w) as [Hids Hstep].
  split; [exact Hids|]. split; [exact Hstep|].
  intros i t. apply refinedAt_kept.
Qed.

Lemma refinedAt_set_at_most_once_witness :
  let first := RefineScenario.assistant RefineScenario.complete Scenario.noon in
  let second :=
    RefineScenario.assistant RefineScenario.complete (Scenario.noon + 60000) in
  let w1 := snd (refineOpportunity first RefineScenario.pasted
                   RefineScenario.board) in
  refinedAtColumn (db RefineScenario.board) = [None] /\
  refinedAtColumn (db w1) = [Some Scenario.noon] /\
  nth_error
    (refinedAtColumn
       (db (refineAll [(second, RefineScenario.pasted)] w1))) 0 =
  Some (Some Scenario.noon).
Proof.
  cbv zeta. split; [reflexivity|]. split; [reflexivity|].
  apply (proj2 (proj2 (refinedAt_set_at_most_once
                         (RefineScenario.assistant RefineScenario.complete
                            (Scenario.noon + 60000))
                         RefineScenario.pasted
                         [(RefineScenario.assistant RefineScenario.complete
                             (Scenario.noon + 60000),
                           RefineScenario.pasted)]
                         _))).
  reflexivity.
Defined.


(** A completion that is no JSON at all. *)
Example prose_completion_changes_nothing :
  let E := RefineScenario.answering "I could not read the page." None
             Scenario.noon in
  refineOpportunity E RefineScenario.pasted RefineScenario.board =
  (Returned (fail 400 "Failed to parse JSON from AI response."),
   {| db := db RefineScenario.board;
      effects := [CompletionRequested (content RefineScenario.pasted)
                                      ["Internship"];
                  Logged "Failed to parse JSON from AI response."] |}).
Proof. reflexivity. Qed.

(** The bounds of the schema at work: a title of 101 characters is
    refused, six tags are accepted. *)
Example schema_bounds :
  RefineOpportunityResponse_parse
    (RefineScenario.answer
       (JString ("12345678901234567890123456789012345678901234567890" ++
                 "12345678901234567890123456789012345678901234567890" ++
                 "1"))
       JNull) = None /\
  option_map tags
    (RefineOpportunityResponse_parse
       (RefineScenario.answer (JString "Intern")
          (JArray [JString "a"; JString "b"; JString "c";
                   JString "d"; JString "e"; JString "f"]))) =
  Some (Some ["a"; "b"; "c"; "d"; "e"; "f"]).
Proof. split; reflexivity. Qed.

Lemma untitled_is_extracted :
  extracted (RefineScenario.assistant RefineScenario.untitled Scenario.noon)
            RefineScenario.pasted RefineScenario.board
            RefineScenario.untitledData.
Proof.
  exists (Json.stringify RefineScenario.untitled), RefineScenario.untitled.
  repeat split; reflexivity.
Qed.

(** C6 fails as worded: the answer validates, its [expiresAt] is null
    and it describes the posting, but it has no title; the call returns
    success and the description on the posting is still the default. *)
Lemma unusable_extraction_is_not_applied :
  ~ null_expiry_applies_extraction
      (RefineScenario.assistant RefineScenario.untitled Scenario.noon)
      RefineScenario.pasted RefineScenario.board.
Proof.
  intros H.
  destruct (H RefineScenario.untitledData untitled_is_extracted eq_refl)
    as [_ Hfields].
  destruct (Hfields (Scenario.posting "opp-1" "https://x.test/job"))
    as [_ Hdescription].
  - vm_compute. left. reflexivity.
  - reflexivity.
  - specialize (Hdescription _ eq_refl). discriminate.
Qed.

Lemma complete_is_extracted :
  extracted (RefineScenario.assistant RefineScenario.complete Scenario.noon)
            RefineScenario.pasted RefineScenario.board
            RefineScenario.completeData.
Proof.
  exists (Json.stringify RefineScenario.complete), RefineScenario.complete.
  repeat split; reflexivity.
Defined.

Lemma null_expiry_keeps_expiresAt_witness :
  let E := RefineScenario.assistant RefineScenario.complete Scenario.noon in
  let run := refineOpportunity E RefineScenario.pasted RefineScenario.board in
  map Opportunity.expiresAt (opportunities (db (snd run))) =
    [Some (Scenario.noon + 2592000000)%Z] /\
  forall o, In o (opportunities (db (snd run))) ->
            Opportunity.id o = "opp-1" ->
            applied E "opp-1" RefineScenario.completeData
                    (db RefineScenario.board) (db (snd run)) o.
Proof.
  cbv zeta.
  destruct (null_expiry_keeps_expiresAt _ RefineScenario.pasted
              RefineScenario.board RefineScenario.completeData
              complete_is_extracted eq_refl) as [Hexpiry Happlied].
  split; [exact Hexpiry|].
  intros o Hin Hid.
  exact (Happlied eq_refl _ eq_refl o Hin Hid).
Defined.

(* ------------------------------------------------------------------ *)
(** ** Submission and refinement together *)

(** X29.  Past the duplicate check, with a page that is not empty and
    holds no expired phrase, [addOpportunity] awaits [refineOpportunity] on the
    placeholder: whatever result it returns is dropped and the
    submission succeeds with the id of the placeholder; when it rejects,
    the submission rejects with it, for the call is not guarded. *)
Lemma addOpportunity_awaits_refine (E : Env) (link postedBy page : string)
    (w : World) :
  Sql.opportunities_ilike link (db w) = Returned [] ->
  getPageContent E link = Returned page ->
  Js.truthy page = true ->
  hasExpiredPhrase page = false ->
  exists w0 input,
    opportunityId input = freshId E /\
    content input = page /\
    Sql.opportunities_by_id (freshId E) (db w0) <> [] /\
    addOpportunity E link postedBy w =
    match refineOpportunity E input w0 with
    | (Returned _, w1) => (Returned (success (freshId E)), w1)
    | (Thrown e, w1) => (Thrown e, w1)
    end.
Proof.
  intros Hnone Hpage Htruthy Hlive.
  unfold addOpportunity. run_async. rewrite Hnone. cbn beta iota.
  rewrite Hpage. cbn beta iota. rewrite Htruthy, Hlive. cbn beta iota.
  cbn [negb db effects].
  match goal with
  | |- context [refineOpportunity E ?i ?w0] => exists w0, i
  end.
  split; [|split; [|split]].
  4: { destruct (refineOpportunity E _ _) as [[r|e] w1]; reflexivity. }
  - reflexivity.
  - reflexivity.
  - unfold Sql.opportunities_by_id, Sql.insert_opportunity. simpl.
    rewrite filter_app. simpl. unfold Sql.has_id at 2. simpl.
    rewrite String.eqb_refl. intros H. apply app_eq_nil in H.
    destruct H as [_ H]. discriminate.
Qed.

(** C5 (the code departs from the claim).  The link is new, its page is
    a live job description, the AI answers a valid extraction whose only
    tag is not in the catalog.  No tag matches, the insert of the
    associations is sent without values and rejected, the transaction
    rejects, and so does [addOpportunity]: the caller gets no success
    and no id, while the placeholder stays in the store unrefined. *)
Theorem submission_rejects_when_refinement_rejects :
  let E := RefineScenario.assistant RefineScenario.strayTag Scenario.noon in
  let run := addOpportunity E "https://x.test/job" "member-1"
               RefineScenario.emptyBoard in
  Sql.opportunities_ilike "https://x.test/job"
    (db RefineScenario.emptyBoard) = Returned [] /\
  hasExpiredPhrase "Senior Engineer... apply now" = false /\
  option_map tags (RefineOpportunityResponse_parse RefineScenario.strayTag) =
    Some (Some ["Remote"]) /\
  fst run = Thrown (DatabaseError "syntax error in INSERT: no values") /\
  map (fun o => (Opportunity.id o, Opportunity.title o,
                 Opportunity.refinedAt o))
      (opportunities (db (snd run))) = [("opp-2", "Opportunity", None)].
Proof. vm_compute. repeat split; reflexivity. Qed.

(** The same submission when the tag is in the catalog. *)
Example submission_succeeds_when_refinement_commits :
  let E := RefineScenario.assistant RefineScenario.complete Scenario.noon in
  let run := addOpportunity E "https://x.test/job" "member-1"
               RefineScenario.emptyBoard in
  fst run = Returned (success "opp-2") /\
  map (fun o => (Opportunity.id o, Opportunity.title o,
                 Opportunity.refinedAt o))
      (opportunities (db (snd run))) =
    [("opp-2", "Software Engineering Intern", Some Scenario.noon)].
Proof. vm_compute. repeat split; reflexivity. Qed.

(** The same submission when the company resolver rejects. *)
Example submission_rejects_when_resolver_rejects :
  let E := RefineScenario.resolverDown RefineScenario.complete Scenario.noon in
  fst (addOpportunity E "https://x.test/job" "member-1"
         RefineScenario.emptyBoard) =
  Thrown (ExternalError "connection lost").
Proof. reflexivity. Qed.

(* ------------------------------------------------------------------ *)
(** ** The primitives at their edges *)

(** White space outside ASCII ends a link as a blank does: the bracket
    with the no-break space holds no link, and the search goes on to
    the next bracket. *)
Example no_break_space_ends_a_link :
  getFirstLinkInMessage
    ("<https://x.test/a" ++ TextScenario.nbsp ++ "b>") = None /\
  getFirstLinkInMessage
    ("<https://x.test/a" ++ TextScenario.nbsp ++ "b> <https://y.test/c>") =
    Some "https://y.test/c".
Proof. vm_compute. split; reflexivity. Qed.

(** The schema trims the white space of the language and counts code
    units: a title of 34 characters in 102 bytes is within the bound of
    100, a title of one no-break space is empty once trimmed. *)
Example schema_counts_code_units :
  Zod.trimmed (Some 100%nat) (Some (JString TextScenario.cjk34)) =
    Some TextScenario.cjk34 /\
  Zod.trimmed (Some 100%nat) (Some (JString TextScenario.nbsp)) = None /\
  Js.length TextScenario.grin = 2%nat /\
  Js.trim (" " ++ TextScenario.nbsp ++ "a b" ++ TextScenario.nbsp) = "a b".
Proof. vm_compute. repeat split; reflexivity. Qed.

(** A pattern that ends in a lone backslash is refused only where the
    matcher comes to the backslash: not against a text that differs
    before it, nor against one that ends there. *)
Example trailing_backslash_is_refused_when_reached :
  Like.ilike "https://y.test/job" "https://x.test/job\" = Returned false /\
  Like.ilike "https://x.test/job" "https://x.test/job\" = Returned false /\
  Like.ilike "https://x.test/jobs" "https://x.test/job\" =
    Thrown (DatabaseError "LIKE pattern must not end with escape character") /\
  fst (addOpportunity Scenario.offline "https://y.test/job\" "member-2"
         Scenario.formerAdmin) = Returned (success "opp-2").
Proof. vm_compute. repeat split; reflexivity. Qed.

(** A bookmark or a report of an id that names no posting is refused by
    the foreign key; the world stays as it was. *)
Example unknown_posting_is_refused :
  bookmarkOpportunity Scenario.offline "member-2" "opp-9" Scenario.formerAdmin =
    (Thrown Sql.FOREIGN_KEY, Scenario.formerAdmin) /\
  reportOpportunity Scenario.offline "opp-9" "dead" "member-2"
    Scenario.formerAdmin =
    (Thrown Sql.FOREIGN_KEY, Scenario.formerAdmin).
Proof. vm_compute. split; reflexivity. Qed.

(* ------------------------------------------------------------------ *)
(** ** The first link of a chat message *)

Section FirstLink.

Lemma append_assoc (a b c : string) : (a ++ b) ++ c = a ++ (b ++ c).
Proof. induction a as [|x a IH]; simpl; [reflexivity | now rewrite IH]. Qed.

Lemma substring_whole (s : string) : String.substring 0 (String.length s) s = s.
Proof. induction s as [|c s IH]; simpl; [reflexivity | now rewrite IH]. Qed.

Lemma span_sound (f : ascii -> bool) (s a b : string) :
  LinkPattern.span f s = (a, b) ->
  s = a ++ b /\ all_chars f a = true /\
  match b with String c _ => f c = false | EmptyString => True end.
Proof.
  revert a b. induction s as [|c s IH]; simpl; intros a b H.
  - inversion H. subst. repeat split.
  - destruct (f c) eqn:Hc.
    + destruct (LinkPattern.span f s) as [a' b'] eqn:Hs.
      inversion H. subst. destruct (IH a' b eq_refl) as (-> & Hall & Hb).
      simpl. rewrite Hc, Hall. repeat split. exact Hb.
    + inversion H. subst. simpl. rewrite Hc. repeat split.
Qed.

Lemma span_complete (f : ascii -> bool) (a b : string) :
  all_chars f a = true ->
  match b with String c _ => f c = false | EmptyString => True end ->
  LinkPattern.span f (a ++ b) = (a, b).
Proof.
  intros Ha Hb. induction a as [|c a IH]; simpl in *.
  - destruct b as [|c b]; [reflexivity|]. simpl. now rewrite Hb.
  - apply andb_true_iff in Ha. destruct Ha as [Hc Ha].
    rewrite Hc, (IH Ha). reflexivity.
Qed.

Lemma startsWith_longer (x s r : string) :
  Js.startsWith x s = true -> Js.startsWith x (s ++ r) = true.
Proof.
  revert s. induction x as [|a x IH]; intros s; [reflexivity|].
  destruct s as [|b s]; simpl; [discriminate|].
  intros H. apply andb_true_iff in H. destruct H as [Hab Hx].
  now rewrite Hab, (IH s Hx).
Qed.

Lemma high_is_no_delimiter (e d : ascii) :
  high e = true -> d = ">"%char \/ d = "|"%char -> Ascii.eqb e d = false.
Proof.
  intros He [->| ->];
    destruct e as [[] [] [] [] [] [] [] []]; try reflexivity; discriminate.
Qed.

(** An excluded character that does not start a text does not start it
    either when a delimiter is put behind the text: the bytes by which
    it could reach the delimiter are high. *)
Lemma startsWith_before_delimiter (x s r : string) (d : ascii) :
  all_chars high x = true ->
  d = ">"%char \/ d = "|"%char ->
  Js.startsWith x s = false ->
  Js.startsWith x (s ++ String d r) = false.
Proof.
  intros Hx Hd. revert s. induction x as [|e x IH]; intros s; [discriminate|].
  simpl in Hx. apply andb_true_iff in Hx. destruct Hx as [He Hx].
  destruct s as [|b s]; simpl.
  - intros _. now rewrite (high_is_no_delimiter e d He Hd).
  - destruct (Ascii.eqb e b); simpl; [apply (IH Hx) | reflexivity].
Qed.

Lemma excluded_shape (x : string) :
  In x LinkPattern.EXCLUDED ->
  exists a x', x = String a x' /\ all_chars high x' = true.
Proof.
  unfold LinkPattern.EXCLUDED. simpl. intros H.
  repeat (destruct H as [<-|H]; [eexists; eexists; split; reflexivity|]).
  contradiction.
Qed.

Lemma link_char_before_delimiter (c : ascii) (s r : string) (d : ascii) :
  d = ">"%char \/ d = "|"%char ->
  (forall x, In x LinkPattern.EXCLUDED ->
             Js.startsWith x (String c s) = false) ->
  LinkPattern.is_link_char (String c s ++ String d r) = true.
Proof.
  intros Hd Hnone. unfold LinkPattern.is_link_char.
  apply negb_true_iff. apply not_true_is_false. intros Hex.
  apply existsb_exists in Hex. destruct Hex as (x & Hin & Hstart).
  destruct (excluded_shape x Hin) as (a & x' & -> & Hhigh).
  specialize (Hnone _ Hin). simpl in Hnone, Hstart.
  destruct (Ascii.eqb a c); simpl in *; [|discriminate].
  now rewrite (startsWith_before_delimiter x' s r d Hhigh Hd Hnone) in Hstart.
Qed.

Lemma holdsNone_spec (chars : list string) (s : string) :
  holdsNone chars s = true <->
  forall x, In x chars -> Js.includes x s = false.
Proof.
  unfold holdsNone. rewrite forallb_forall. split; intros H x Hin.
  - now apply negb_true_iff, H.
  - now apply negb_true_iff, H.
Qed.

Lemma includes_cons (x s : string) (c : ascii) :
  Js.includes x (String c s) = false <->
  Js.startsWith x (String c s) = false /\ Js.includes x s = false.
Proof.
  change (Js.includes x (String c s))
    with (Js.startsWith x (String c s) || Js.includes x s).
  apply orb_false_iff.
Qed.

Lemma span_link_sound (s a b : string) :
  LinkPattern.span_link s = (a, b) ->
  s = a ++ b /\ holdsNone LinkPattern.EXCLUDED a = true.
Proof.
  revert a b. induction s as [|c s IH]; intros a b H.
  - inversion H. subst. split; reflexivity.
  - cbn [LinkPattern.span_link] in H.
    destruct (LinkPattern.is_link_char (String c s)) eqn:Hc.
    + destruct (LinkPattern.span_link s) as [a' b'] eqn:Hs.
      inversion H. subst. destruct (IH a' b eq_refl) as (-> & Hnone).
      split; [reflexivity|]. apply holdsNone_spec. intros x Hin.
      apply includes_cons. split.
      * unfold LinkPattern.is_link_char in Hc. apply negb_true_iff in Hc.
        destruct (Js.startsWith x (String c a')) eqn:Hx; [|reflexivity].
        apply (startsWith_longer _ _ b) in Hx.
        assert (Hex : existsb (fun x => Js.startsWith x (String c (a' ++ b)))
                              LinkPattern.EXCLUDED = true)
          by (apply existsb_exists; now exists x).
        congruence.
      * now apply (proj1 (holdsNone_spec _ _) Hnone).
    + inversion H. subst. split; reflexivity.
Qed.

Lemma span_link_complete (a r : string) (d : ascii) :
  holdsNone LinkPattern.EXCLUDED a = true ->
  d = ">"%char \/ d = "|"%char ->
  LinkPattern.span_link (a ++ String d r) = (a, String d r).
Proof.
  intros Ha Hd. induction a as [|c a IH].
  - destruct Hd as [->| ->]; reflexivity.
  - pose proof (proj1 (holdsNone_spec _ _) Ha) as Hnone.
    change ((String c a) ++ String d r) with (String c (a ++ String d r)).
    cbn [LinkPattern.span_link].
    change (String c (a ++ String d r)) with (String c a ++ String d r).
    rewrite link_char_before_delimiter.
    + rewrite IH; [reflexivity|]. apply holdsNone_spec. intros x Hin.
      now apply (proj1 (includes_cons _ _ _) (Hnone x Hin)).
    + exact Hd.
    + intros x Hin. now apply (proj1 (includes_cons _ _ _) (Hnone x Hin)).
Qed.

Lemma closes_sound (rest : string) :
  LinkPattern.closes rest = true ->
  exists c rest', rest = String c rest' /\ (c = ">"%char \/ c = "|"%char).
Proof.
  destruct rest as [|c rest']; simpl; [discriminate|].
  destruct (Ascii.eqb c ">") eqn:H1.
  - apply Ascii.eqb_eq in H1. intros _. exists c, rest'. auto.
  - destruct (Ascii.eqb c "|") eqn:H2; [|discriminate].
    apply Ascii.eqb_eq in H2. intros _. exists c, rest'. auto.
Qed.

Lemma link_after_sound (scheme rest link : string) :
  LinkPattern.link_after scheme rest = Some link ->
  exists c body post,
    holdsNone LinkPattern.EXCLUDED (String c body) = true /\
    link = scheme ++ String c body /\
    rest = String c body ++ post /\
    exists d post', post = String d post' /\ (d = ">"%char \/ d = "|"%char).
Proof.
  unfold LinkPattern.link_after.
  destruct (LinkPattern.span_link rest) as [[|c body] post] eqn:Hs;
    [discriminate|].
  destruct (LinkPattern.closes post) eqn:Hc; [|discriminate].
  intros H. inversion H. subst.
  destruct (span_link_sound _ _ _ Hs) as (Hrest & Hall).
  exists c, body, post. repeat split; try assumption.
  now apply closes_sound.
Qed.

Lemma match_here_sound (s link : string) :
  LinkPattern.match_here s = Some link ->
  isCapturedLink link /\
  exists post d post',
    s = "<" ++ link ++ post /\ post = String d post' /\
    (d = ">"%char \/ d = "|"%char).
Proof.
  unfold LinkPattern.match_here. destruct s as [|c r]; [discriminate|].
  destruct (Ascii.eqb c "<") eqn:Hc; [|discriminate].
  apply Ascii.eqb_eq in Hc. subst c.
  destruct (Js.startsWith "https://" r) eqn:Hs.
  - do 8 (destruct r as [|? r]; [discriminate|]).
    cbn [Js.startsWith] in Hs.
    repeat (apply andb_true_iff in Hs; destruct Hs as [?H Hs]).
    repeat match goal with
           | H : Ascii.eqb _ _ = true |- _ => apply Ascii.eqb_eq in H; subst
           end.
    simpl. rewrite ?Nat.sub_0_r, substring_whole.
    intros Hl. apply link_after_sound in Hl.
    destruct Hl as (c & body & post & Hall & -> & -> & d & post' & -> & Hd).
    split.
    + exists "https://", c, body. auto.
    + exists (String d post'), d, post'. rewrite append_assoc. auto.
  - destruct (Js.startsWith "http://" r) eqn:Hs'; [|discriminate].
    do 7 (destruct r as [|? r]; [discriminate|]).
    cbn [Js.startsWith] in Hs'.
    repeat (apply andb_true_iff in Hs'; destruct Hs' as [?H Hs']).
    repeat match goal with
           | H : Ascii.eqb _ _ = true |- _ => apply Ascii.eqb_eq in H; subst
           end.
    simpl. rewrite ?Nat.sub_0_r, substring_whole.
    intros Hl. apply link_after_sound in Hl.
    destruct Hl as (c & body & post & Hall & -> & -> & d & post' & -> & Hd).
    split.
    + exists "http://", c, body. auto.
    + exists (String d post'), d, post'. rewrite append_assoc. auto.
Qed.

(** X1.  What [getFirstLinkInMessage] returns is a link in the shape
    the pattern captures: a scheme and a body that holds no white
    space of the language, ASCII or not, no bar and no closing bracket.
    It stands in the message right after an opening bracket, and a
    closing bracket or a bar follows it.  A message without such a
    place yields nothing. *)
Theorem first_link_is_in_the_message (message link : string) :
  getFirstLinkInMessage message = Some link ->
  isCapturedLink link /\
  exists pre post d post',
    message = pre ++ "<" ++ link ++ post /\ post = String d post' /\
    (d = ">"%char \/ d = "|"%char).
Proof.
  induction message as [|c message IH].
  - simpl. discriminate.
  - cbn [getFirstLinkInMessage].
    destruct (LinkPattern.match_here (String c message)) as [l|] eqn:Hm.
    + intros H. inversion H. subst l.
      destruct (match_here_sound _ _ Hm) as (Hlink & post & d & post' & Hs & Hp).
      split; [exact Hlink|]. exists EmptyString, post, d, post'. auto.
    + intros H. destruct (IH H) as (Hlink & pre & post & d & post' & -> & Hp).
      split; [exact Hlink|]. exists (String c pre), post, d, post'. auto.
Qed.

Lemma match_here_bracketed (scheme link rest : string) :
  (scheme = "http://" \/ scheme = "https://") ->
  LinkPattern.link_after scheme rest = Some link ->
  LinkPattern.match_here (String "<" (scheme ++ rest)) = Some link.
Proof.
  intros [->| ->] H; simpl; rewrite Nat.sub_0_r, substring_whole; exact H.
Qed.

Lemma link_after_complete (scheme body rest : string) (c : ascii) :
  holdsNone LinkPattern.EXCLUDED (String c body) = true ->
  LinkPattern.closes rest = true ->
  LinkPattern.link_after scheme (String c body ++ rest) =
  Some (scheme ++ String c body).
Proof.
  intros Hall Hclose. unfold LinkPattern.link_after.
  destruct (closes_sound _ Hclose) as (d & rest' & Hrest & Hd).
  rewrite Hrest in *.
  rewrite (span_link_complete (String c body) rest' d Hall Hd).
  now rewrite Hclose.
Qed.

Lemma closes_label (label post : string) (c : ascii) :
  all_chars LinkPattern.is_label_char (String c label) = true ->
  LinkPattern.closes ("|" ++ String c label ++ ">" ++ post) = true.
Proof.
  intros Hall. cbn [LinkPattern.closes append]. simpl Ascii.eqb.
  change (String c (label ++ String ">" post))
    with (String c label ++ String ">" post).
  rewrite (span_complete _ (String c label) (String ">" post) Hall);
    reflexivity.
Qed.

Lemma skip_before_bracket (pre s : string) :
  all_chars (fun c => negb (Ascii.eqb c "<")) pre = true ->
  getFirstLinkInMessage (pre ++ s) = getFirstLinkInMessage s.
Proof.
  induction pre as [|c pre IH]; simpl; [reflexivity|].
  intros H. apply andb_true_iff in H. destruct H as [Hc Hpre].
  apply negb_true_iff in Hc. rewrite Hc. now apply IH.
Qed.

(** X2.  A message whose first opening bracket encloses a link, alone
    or followed by a bar and a label, yields exactly that link, when
    the body of the link holds no white space of the language, no bar
    and no closing bracket; what stands before the bracket and after
    the closing one is ignored. *)
Theorem first_link_round_trip (pre scheme body label post : string)
    (c : ascii) :
  all_chars (fun c => negb (Ascii.eqb c "<")) pre = true ->
  (scheme = "http://" \/ scheme = "https://") ->
  holdsNone LinkPattern.EXCLUDED (String c body) = true ->
  all_chars LinkPattern.is_label_char label = true ->
  let link := scheme ++ String c body in
  getFirstLinkInMessage (pre ++ "<" ++ link ++ ">" ++ post) = Some link /\
  (label <> EmptyString ->
   getFirstLinkInMessage (pre ++ "<" ++ link ++ "|" ++ label ++ ">" ++ post) =
   Some link).
Proof.
  intros Hpre Hscheme Hbody Hlabel link. subst link. split.
  - rewrite skip_before_bracket by assumption.
    rewrite append_assoc. cbn [append getFirstLinkInMessage].
    rewrite (match_here_bracketed scheme (scheme ++ String c body)); auto.
    now apply link_after_complete.
  - intros Hne. destruct label as [|l label]; [congruence|].
    rewrite skip_before_bracket by assumption.
    rewrite append_assoc. cbn [append getFirstLinkInMessage].
    rewrite (match_here_bracketed scheme (scheme ++ String c body)); auto.
    apply link_after_complete; [assumption|].
    now apply closes_label.
Qed.

End FirstLink.

(* ------------------------------------------------------------------ *)
(** ** Reports, further *)

Section ReportsFurther.

Variable E : Env.

Lemma filter_idem {A} (f : A -> bool) (l : list A) :
  filter f (filter f l) = filter f l.
Proof.
  induction l as [|a l IH]; simpl; [reflexivity|].
  destruct (f a) eqn:Hf; simpl; [rewrite Hf; f_equal|]; exact IH.
Qed.

Lemma hd_error_filter_exists {A} (f : A -> bool) (l : list A) :
  match hd_error (filter f l) with Some _ => true | None => false end =
  existsb f l.
Proof.
  induction l as [|a l IH]; simpl; [reflexivity|].
  destruct (f a); simpl; [reflexivity | exact IH].
Qed.

Lemma update_keeps_other_rows (oid : string) (p : Opportunity.patch)
    (l : list Opportunity.row) :
  filter (fun o => negb (Sql.has_id oid o))
         (map (fun o => if Sql.has_id oid o then Opportunity.apply p o else o) l) =
  filter (fun o => negb (Sql.has_id oid o)) l.
Proof.
  induction l as [|o l IH]; simpl; [reflexivity|].
  destruct (Sql.has_id oid o) eqn:Hh; simpl.
  - unfold Sql.has_id in *. simpl. rewrite Hh. simpl. exact IH.
  - rewrite Hh. simpl. f_equal. exact IH.
Qed.

Lemma reportOpportunity_reports (oid reason reporterId : string) (w : World)
    (d : Database) :
  Sql.insert_report {| Report.opportunityId := oid;
                       Report.reason := reason;
                       Report.reporterId := reporterId |} (db w) = Returned d ->
  opportunityReports (db (snd (reportOpportunity E oid reason reporterId w))) =
  opportunityReports d.
Proof.
  intros Hins. unfold reportOpportunity. run_async. rewrite Hins. simpl.
  repeat (split_match; simpl); reflexivity.
Qed.

(** Whether the statement that records the report is accepted. *)
Lemma insert_report_cases (oid reason reporterId : string) (d : Database) :
  Sql.insert_report {| Report.opportunityId := oid;
                       Report.reason := reason;
                       Report.reporterId := reporterId |} d =
  if hasReported oid reporterId d then Returned d
  else if Sql.posting_known oid d
  then Returned (with_reports d
                   (opportunityReports d ++
                    [{| Report.opportunityId := oid;
                        Report.reason := reason;
                        Report.reporterId := reporterId |}]))
  else Thrown Sql.FOREIGN_KEY.
Proof. reflexivity. Qed.

(** The report table after a call, however it ends. *)
Lemma reportOpportunity_table (oid reason reporterId : string) (w : World) :
  opportunityReports (db (snd (reportOpportunity E oid reason reporterId w))) =
  if negb (hasReported oid reporterId (db w)) && Sql.posting_known oid (db w)
  then (opportunityReports (db w) ++
        [{| Report.opportunityId := oid;
            Report.reason := reason;
            Report.reporterId := reporterId |}])%list
  else opportunityReports (db w).
Proof.
  pose proof (insert_report_cases oid reason reporterId (db w)) as Hins.
  destruct (hasReported oid reporterId (db w)); simpl.
  - now rewrite (reportOpportunity_reports _ _ _ _ _ Hins).
  - destruct (Sql.posting_known oid (db w)).
    + now rewrite (reportOpportunity_reports _ _ _ _ _ Hins).
    + now rewrite (reportOpportunity_refused E _ _ _ _ _ Hins).
Qed.

(** X3.  However the call ends, [reportOpportunity] keeps the report
    table free of a second report by one reporter on one posting, and
    leaves the counts of all other postings as they are.  When the
    report is accepted (the reporter had reported the posting already,
    or the id names a posting) the count of the posting grows by one
    for a reporter who had not reported it and stays as it is for one
    who had.  When it is refused, the id naming no posting, the call
    rejects and leaves the world as it was. *)
Theorem report_counts_each_reporter_once
    (oid reason reporterId : string) (w : World) :
  let run := reportOpportunity E oid reason reporterId w in
  let d' := db (snd run) in
  (atMostOnePerReporter (db w) -> atMostOnePerReporter d') /\
  (hasReported oid reporterId (db w) || Sql.posting_known oid (db w) = true ->
   Sql.count_reports oid d' =
     (Sql.count_reports oid (db w) +
      (if hasReported oid reporterId (db w) then 0 else 1))%Z /\
   hasReported oid reporterId d' = true) /\
  (hasReported oid reporterId (db w) || Sql.posting_known oid (db w) = false ->
   run = (Thrown Sql.FOREIGN_KEY, w)) /\
  (forall other, other <> oid ->
     Sql.count_reports other d' = Sql.count_reports other (db w)).
Proof.
  cbv zeta. split.
  { intros Hone o r. unfold reportRows. rewrite reportOpportunity_table.
    destruct (negb _ && _) eqn:Hnew; [|apply Hone].
    apply andb_true_iff in Hnew. destruct Hnew as [Hnot _].
    apply negb_true_iff in Hnot. unfold hasReported in Hnot.
    rewrite filter_app, length_app. simpl.
    destruct (Sql.is_report o r _) eqn:Hsame; simpl.
    - unfold Sql.is_report in Hsame. simpl in Hsame.
      apply andb_true_iff in Hsame. destruct Hsame as [Ho Hr].
      apply String.eqb_eq in Ho, Hr. subst o r.
      rewrite <- filter_length_pos in Hnot.
      destruct (filter _ _); [simpl; lia | discriminate].
    - specialize (Hone o r). unfold reportRows in Hone. lia. }
  pose proof (insert_report_cases oid reason reporterId (db w)) as Hins.
  destruct (hasReported oid reporterId (db w)) eqn:Hex; simpl.
  - unfold Sql.count_reports.
    rewrite (reportOpportunity_reports _ _ _ _ _ Hins).
    split; [intros _; split; [lia|]|split; [discriminate | reflexivity]].
    unfold hasReported in *.
    now rewrite (reportOpportunity_reports _ _ _ _ _ Hins).
  - destruct (Sql.posting_known oid (db w)) eqn:Hknown.
    + unfold Sql.count_reports, hasReported.
      rewrite (reportOpportunity_reports _ _ _ _ _ Hins). simpl.
      rewrite !filter_app, !length_app, existsb_app. simpl.
      unfold Sql.is_report. simpl. rewrite !String.eqb_refl. simpl.
      split; [intros _; split; [lia | apply orb_true_r]|].
      split; [discriminate|].
      intros other Hne. apply String.eqb_neq in Hne.
      rewrite String.eqb_sym in Hne. rewrite filter_app. simpl.
      rewrite Hne. simpl. rewrite app_nil_r. reflexivity.
    + rewrite (reportOpportunity_refused E _ _ _ _ _ Hins). simpl.
      split; [discriminate|]. split; reflexivity.
Qed.

(** X4.  For an id that names a posting, the answer of
    [reportOpportunity] is [removed: true] exactly when the posting
    then has two reports or more, or the [admins] table holds a row for
    the reporter, deleted or not.  When it is true every row with the
    id expires now; when it is false no posting changes.  Rows with
    other ids never change. *)
Theorem report_removes_on_two_reports_or_admin_row
    (oid reason reporterId : string) (w : World) :
  Sql.posting_known oid (db w) = true ->
  let run := reportOpportunity E oid reason reporterId w in
  let removed := (2 <=? Sql.count_reports oid (db (snd run)))%Z ||
                 hasAdminRow reporterId (db w) in
  fst run = Returned (success removed) /\
  (if removed
   then forall o, In o (opportunities (db (snd run))) ->
                  Opportunity.id o = oid ->
                  Opportunity.expiresAt o = Some (now E)
   else opportunities (db (snd run)) = opportunities (db w)) /\
  filter (fun o => negb (Sql.has_id oid o)) (opportunities (db (snd run))) =
  filter (fun o => negb (Sql.has_id oid o)) (opportunities (db w)).
Proof.
  intros Hknown. cbv zeta.
  assert (Hins : exists d,
            Sql.insert_report {| Report.opportunityId := oid;
                                 Report.reason := reason;
                                 Report.reporterId := reporterId |} (db w) =
            Returned d /\
            admins d = admins (db w) /\
            opportunities d = opportunities (db w)).
  { rewrite insert_report_cases, Hknown.
    destruct (hasReported _ _ _); eexists; repeat split. }
  destruct Hins as (d & Hins & Hadm & Hopp).
  unfold Sql.count_reports at 1 2.
  rewrite (reportOpportunity_reports _ _ _ _ _ Hins).
  rewrite (reportOpportunity_removed E _ _ _ _ _ Hins).
  unfold hasAdminRow, Sql.count_reports. rewrite Hadm.
  split; [reflexivity|].
  unfold reportOpportunity. run_async. rewrite Hins. simpl.
  assert (Hhd : match hd_error (Sql.admins_of reporterId d) with
                | Some _ => true | None => false end =
                existsb (fun a => String.eqb (Admin.memberId a) reporterId)
                        (admins (db w))).
  { unfold Sql.admins_of. rewrite Hadm. apply hd_error_filter_exists. }
  rewrite Hhd. unfold Sql.count_reports.
  destruct ((2 <=? _)%Z || existsb _ (admins (db w))); simpl; rewrite Hopp.
  - split.
    + intros o Hin Hid. apply in_map_iff in Hin.
      destruct Hin as (o0 & Ho & _).
      destruct (Sql.has_id oid o0) eqn:Hh; subst o; [reflexivity|].
      unfold Sql.has_id in Hh. rewrite Hid, String.eqb_refl in Hh.
      discriminate.
    + apply update_keeps_other_rows.
  - split; reflexivity.
Qed.

End ReportsFurther.

(* ------------------------------------------------------------------ *)
(** ** Deletion, further *)

Section DeletionFurther.

Lemma filter_filter_negb {A} (f : A -> bool) (l : list A) :
  filter (fun a => negb (f a)) (filter (fun a => negb (f a)) l) =
  filter (fun a => negb (f a)) l.
Proof. apply (filter_idem (fun a => negb (f a))). Qed.

Lemma delete_opportunity_clears (oid : string) (d : Database) :
  noTraceOf oid (Sql.delete_opportunity oid d) /\
  sameElsewhere oid d (Sql.delete_opportunity oid d).
Proof.
  unfold noTraceOf, sameElsewhere, Sql.opportunities_by_id,
    Sql.delete_opportunity. simpl.
  rewrite !filter_negb_none, !filter_filter_negb. repeat split.
Qed.

Lemma hd_error_filter_some {A} (f : A -> bool) (l : list A) :
  (exists x, In x l /\ f x = true) <->
  exists y, hd_error (filter f l) = Some y.
Proof.
  induction l as [|a l IH]; simpl.
  - split; [intros (x & [] & _) | intros (y & Hy); discriminate].
  - destruct (f a) eqn:Hf; simpl.
    + split; [intros _; now exists a | intros _; exists a; auto].
    + rewrite <- IH. split.
      * intros (x & [<-|Hx] & Hfx); [congruence | now exists x].
      * intros (x & Hx & Hfx). exists x. auto.
Qed.

(** X6.  [hasOpportunityWritePermission] is true exactly for the poster
    of a row with the id and, when such a row exists, for an admin in
    office; it changes nothing.  A call of [deleteOpportunity] with a
    member id that is not empty succeeds exactly in that case. *)
Theorem write_permission_is_poster_or_admin (memberId oid : string)
    (w : World) :
  snd (hasOpportunityWritePermission memberId oid w) = w /\
  (fst (hasOpportunityWritePermission memberId oid w) = Returned true <->
   mayWrite memberId oid (db w)) /\
  (Js.truthy memberId = true ->
   (fst (deleteOpportunity (Some memberId) oid w) = Returned (success oid) <->
    mayWrite memberId oid (db w))).
Proof.
  assert (Hperm : (exists y, hd_error (filter (fun o =>
                     Sql.has_id oid o &&
                     (match Opportunity.postedBy o with
                      | Some poster => String.eqb poster memberId
                      | None => false
                      end || Sql.active_admin memberId (db w)))
                   (opportunities (db w))) = Some y) <->
                  mayWrite memberId oid (db w)).
  { rewrite <- hd_error_filter_some. unfold mayWrite. split.
    - intros (o & Hin & Hf). apply andb_true_iff in Hf.
      destruct Hf as [Hid Hor]. apply String.eqb_eq in Hid.
      exists o. repeat split; try assumption.
      apply orb_true_iff in Hor. destruct Hor as [Hp|Ha]; [left | now right].
      destruct (Opportunity.postedBy o) as [p|]; [|discriminate].
      apply String.eqb_eq in Hp. now subst.
    - intros (o & Hin & Hid & Hor). exists o. split; [exact Hin|].
      unfold Sql.has_id. rewrite Hid, String.eqb_refl. simpl.
      destruct Hor as [Hp|Ha].
      + rewrite Hp, String.eqb_refl. reflexivity.
      + rewrite Ha. apply orb_true_r. }
  unfold deleteOpportunity, hasOpportunityWritePermission. run_async. simpl.
  split; [reflexivity|]. split.
  - rewrite <- Hperm. destruct (hd_error _) as [y|]; split.
    + intros _. now exists y.
    + reflexivity.
    + discriminate.
    + intros (y & Hy). discriminate.
  - intros ->. simpl. rewrite <- Hperm.
    destruct (hd_error _) as [y|]; simpl; split.
    + intros _. now exists y.
    + reflexivity.
    + discriminate.
    + intros (y & Hy). discriminate.
Qed.

End DeletionFurther.

(* ------------------------------------------------------------------ *)
(** ** Expiration checks, further *)

Section ExpiryFurther.

Variable E : Env.

Local Open Scope Z_scope.

Lemma only_row (oid : string) (d : Database) (o r : Opportunity.row) :
  Sql.opportunities_by_id oid d = [o] ->
  In r (opportunities d) -> Opportunity.id r = oid -> r = o.
Proof.
  intros Hby Hin Hid.
  assert (H : In r (Sql.opportunities_by_id oid d)).
  { apply filter_In. split; [exact Hin|]. unfold Sql.has_id.
    rewrite Hid. apply String.eqb_refl. }
  rewrite Hby in H. destruct H as [H|[]]. now subst.
Qed.

Lemma by_id_update (oid : string) (p : Opportunity.patch) (d : Database) :
  Sql.opportunities_by_id oid (Sql.update_opportunities (Sql.has_id oid) p d) =
  map (Opportunity.apply p) (Sql.opportunities_by_id oid d).
Proof.
  unfold Sql.opportunities_by_id. simpl.
  induction (opportunities d) as [|o l IH]; simpl; [reflexivity|].
  destruct (Sql.has_id oid o) eqn:Hh; simpl.
  - unfold Sql.has_id in *. simpl. rewrite Hh. simpl. now rewrite IH.
  - rewrite Hh. exact IH.
Qed.

Lemma selected_when_due (oid : string) (force : bool) (d : Database)
    (o : Opportunity.row) :
  Sql.opportunities_by_id oid d = [o] ->
  notExpired E o -> force = true \/ dueForCheck E o ->
  hd_error (filter (isSelectedForCheck E oid force) (opportunities d)) = Some o.
Proof.
  intros Hby (t & Ht & Hopen) Hdue.
  rewrite (selected_for_check E oid force d o Hby).
  assert (Ho : Sql.has_id oid o = true).
  { assert (Hin : In o (Sql.opportunities_by_id oid d)) by (rewrite Hby; now left).
    apply filter_In in Hin. tauto. }
  unfold isSelectedForCheck. rewrite Ho, Ht. apply Z.ltb_lt in Hopen.
  rewrite Hopen. simpl.
  destruct Hdue as [->|[Hnone|(c & Hc & Hold)]]; [reflexivity| |].
  - rewrite Hnone. now rewrite orb_true_r.
  - rewrite Hc. apply Z.leb_le in Hold. rewrite Hold. now rewrite orb_true_r.
Qed.

(** X7.  A check that is selected (the posting has not expired, has a
    link, and the check is forced or due) stamps [lastExpirationCheck]
    with now before it fetches, and leaves every other posting alone.
    When the fetch rejects, the answer is the 500 failure, the
    exception is reported and [expiresAt] stays; when the page comes
    back, the answer tells whether it holds an expired phrase, and
    [expiresAt] becomes now exactly in that case. *)
Theorem check_expired_outcome (oid : string) (force : bool) (w : World)
    (o : Opportunity.row) :
  Sql.opportunities_by_id oid (db w) = [o] ->
  notExpired E o -> force = true \/ dueForCheck E o ->
  Js.truthy (Opportunity.link o) = true ->
  let run := checkForExpiredOpportunity E oid force w in
  let rows := Sql.opportunities_by_id oid (db (snd run)) in
  map Opportunity.lastExpirationCheck rows = [Some (now E)] /\
  filter (fun r => negb (Sql.has_id oid r)) (opportunities (db (snd run))) =
    filter (fun r => negb (Sql.has_id oid r)) (opportunities (db w)) /\
  match getPageContent E (Opportunity.link o) with
  | Thrown e =>
      fst run = Returned (fail 500 "Failed to get page content.") /\
      map Opportunity.expiresAt rows = [Opportunity.expiresAt o] /\
      effects (snd run) =
        (effects w ++ [PageRequested (Opportunity.link o);
                       ExceptionReported e])%list
  | Returned page =>
      fst run = Returned (success (hasExpiredPhrase page)) /\
      map Opportunity.expiresAt rows =
        [if hasExpiredPhrase page then Some (now E)
         else Opportunity.expiresAt o] /\
      effects (snd run) =
        (effects w ++ [PageRequested (Opportunity.link o)])%list
  end.
Proof.
  intros Hby Hopen Hdue Hlink. cbv zeta.
  unfold checkForExpiredOpportunity. run_async. cbn beta iota.
  rewrite (selected_when_due oid force (db w) o Hby Hopen Hdue).
  cbn beta iota. rewrite Hlink. cbn [negb db effects].
  assert (Hother : forall p l,
            filter (fun r => negb (Sql.has_id oid r))
                   (opportunities (Sql.update_opportunities (Sql.has_id oid) p l)) =
            filter (fun r => negb (Sql.has_id oid r)) (opportunities l)).
  { intros p l. apply update_keeps_other_rows. }
  destruct (getPageContent E (Opportunity.link o)) as [page|e]; cbn beta iota.
  - destruct (hasExpiredPhrase page); cbn [fst snd db effects when];
      rewrite ?by_id_update, ?Hother, Hby; repeat split.
  - cbn [fst snd db effects]. rewrite by_id_update, Hother, Hby.
    repeat split. now rewrite <- app_assoc.
Qed.

Lemma check_cases (oid : string) (force : bool) (w : World)
    (o : Opportunity.row) :
  Sql.opportunities_by_id oid (db w) = [o] ->
  let run := checkForExpiredOpportunity E oid force w in
  run = (Returned (success false), w) \/
  exists o1, Sql.opportunities_by_id oid (db (snd run)) = [o1] /\
             Opportunity.lastExpirationCheck o1 = Some (now E).
Proof.
  intros Hby. cbv zeta.
  unfold checkForExpiredOpportunity. run_async. cbn beta iota.
  rewrite (selected_for_check E oid force (db w) o Hby).
  destruct (isSelectedForCheck E oid force o); [|now left].
  cbn beta iota.
  destruct (Js.truthy (Opportunity.link o)); [|now left].
  right. cbn [negb db effects].
  destruct (getPageContent E (Opportunity.link o)) as [page|e]; cbn beta iota.
  - destruct (hasExpiredPhrase page); cbn [fst snd db effects when];
      rewrite ?by_id_update, Hby; cbn [map]; eexists; split; reflexivity.
  - cbn [fst snd db effects]. rewrite by_id_update, Hby. cbn [map].
    eexists; split; reflexivity.
Qed.

(** X8.  Once a check has gone through for a posting, in whatever way
    it ended, an unforced check of the same posting less than three
    hours later answers [success(false)] and does nothing: no fetch, no
    write. *)
Theorem check_is_not_repeated_within_three_hours (E' : Env) (oid : string)
    (force : bool) (w : World) (o : Opportunity.row) :
  Sql.opportunities_by_id oid (db w) = [o] ->
  let w1 := snd (checkForExpiredOpportunity E oid force w) in
  w1 <> w ->
  now E <= now E' -> now E' - now E < THREE_HOURS ->
  checkForExpiredOpportunity E' oid false w1 = (Returned (success false), w1).
Proof.
  intros Hby w1 Hchanged Hlater Hsoon. subst w1.
  destruct (check_cases oid force w o Hby) as [Hsame|(o1 & Hby1 & Hstamp)].
  - rewrite Hsame in Hchanged. now elim Hchanged.
  - set (w1 := snd (checkForExpiredOpportunity E oid force w)) in *.
    unfold checkForExpiredOpportunity. run_async. cbn beta iota.
    rewrite (selected_for_check E' oid false (db w1) o1 Hby1).
    unfold isSelectedForCheck. rewrite Hstamp.
    assert (Hno : (now E <=? now E' - THREE_HOURS) = false)
      by (apply Z.leb_gt; lia).
    rewrite Hno. cbn [orb]. rewrite andb_false_r. reflexivity.
Qed.

End ExpiryFurther.

(* ------------------------------------------------------------------ *)
(** ** Submission by link, further *)

Section SubmissionFurther.

Variable E : Env.

(** X9.  When the duplicate check finds nothing and the page cannot be
    had (the fetch rejects, or returns an empty page), [addOpportunity]
    succeeds with the id of a new row that carries the default title
    and description and expires in a month; the rows before it are
    untouched, a rejection is reported, and the AI is not asked. *)
Theorem submission_without_page_keeps_placeholder (link postedBy : string)
    (w : World) :
  Sql.opportunities_ilike link (db w) = Returned [] ->
  (getPageContent E link = Returned EmptyString \/
   exists e, getPageContent E link = Thrown e) ->
  let run := addOpportunity E link postedBy w in
  fst run = Returned (success (freshId E)) /\
  (exists o, isPlaceholder E link postedBy o /\
             opportunities (db (snd run)) = (opportunities (db w) ++ [o])%list) /\
  effects (snd run) =
    (effects w ++
     PageRequested link ::
     match getPageContent E link with
     | Thrown e => [ExceptionReported e]
     | Returned _ => []
     end)%list.
Proof.
  intros Hnone Hpage. cbv zeta.
  unfold addOpportunity. run_async. rewrite Hnone. cbn beta iota.
  destruct Hpage as [Hpage|(e & Hpage)]; rewrite Hpage; cbn.
  - split; [reflexivity|]. split; [|reflexivity].
    eexists. split; [|reflexivity]. repeat split.
  - split; [reflexivity|]. split; [|now rewrite <- app_assoc].
    eexists. split; [|reflexivity]. repeat split.
Qed.

Lemma lower_keeps_plain (p : string) :
  noPatternChars (Js.toLowerCase p) = noPatternChars p.
Proof.
  unfold noPatternChars. induction p as [|c p IH]; simpl; [reflexivity|].
  rewrite IH, !lower_char_special by auto. reflexivity.
Qed.

(** Without wildcards and escapes the matcher compares the two texts. *)
Lemma plain_text_is_compared (p : string) :
  noPatternChars p = true ->
  forall t, Like.matchText false p t =
            if String.eqb t p then Like.Match
            else match Like.matchText false p t with
                 | Like.Match | Like.BadEscape => Like.NoMatch
                 | v => v
                 end.
Proof.
  unfold noPatternChars. induction p as [|c p IH]; intros Hp t.
  - destruct t; reflexivity.
  - simpl in Hp. apply andb_true_iff in Hp. destruct Hp as [Hc Hp].
    apply negb_true_iff, orb_false_iff in Hc. destruct Hc as [Hc Hback].
    apply orb_false_iff in Hc. destruct Hc as [Hpct Hund].
    cbn [Like.matchText]. destruct t as [|x t].
    + simpl. now rewrite Hpct.
    + rewrite Hback, Hpct, Hund. simpl String.eqb.
      rewrite (Ascii.eqb_sym x c).
      destruct (Ascii.eqb c x); [|reflexivity]. apply (IH Hp).
Qed.

Lemma plain_pattern_is_equality (p : string) :
  noPatternChars p = true ->
  forall s, Like.ilike s p =
            Returned (String.eqb (Js.toLowerCase s) (Js.toLowerCase p)).
Proof.
  intros Hp s. unfold Like.ilike.
  rewrite plain_text_is_compared by now rewrite lower_keeps_plain.
  destruct (String.eqb _ _); [reflexivity|].
  destruct (Like.matchText _ _ _); reflexivity.
Qed.

(** X11.  For a link without [%], [_] and backslash the duplicate check
    is equality up to letter case: [addOpportunity] answers the 409
    failure exactly when some posting has that link in some casing. *)
Theorem plain_link_conflicts_iff_posted (link postedBy : string)
    (w : World) :
  noPatternChars link = true ->
  (fst (addOpportunity E link postedBy w) =
     Returned (fail 409 "Someone already posted this link.") <->
   exists o, In o (opportunities (db w)) /\
             Js.toLowerCase (Opportunity.link o) = Js.toLowerCase link).
Proof.
  intros Hplain.
  assert (Hquery : Sql.opportunities_ilike link (db w) =
                   Returned (filter (fun r => String.eqb
                                       (Js.toLowerCase (Opportunity.link r))
                                       (Js.toLowerCase link))
                                    (opportunities (db w)))).
  { unfold Sql.opportunities_ilike. apply where_total. intros r.
    now apply plain_pattern_is_equality. }
  unfold addOpportunity. run_async. rewrite Hquery. cbn beta iota.
  destruct (filter _ (opportunities (db w))) as [|o l] eqn:Hf.
  - split.
    + cbn beta iota.
      destruct (getPageContent E link) as [page|e]; cbn beta iota.
      * destruct (Js.truthy page); cbn [negb]; cbn beta iota;
          [|discriminate].
        destruct (hasExpiredPhrase page); cbn beta iota; [discriminate|].
        destruct (refineOpportunity E _ _) as [[r|e] w1]; discriminate.
      * discriminate.
    + intros (o & Hin & Hsame).
      assert (Hno : In o (filter (fun r => String.eqb
                                    (Js.toLowerCase (Opportunity.link r))
                                    (Js.toLowerCase link))
                                 (opportunities (db w)))).
      { apply filter_In. split; [exact Hin|]. now apply String.eqb_eq. }
      rewrite Hf in Hno. contradiction.
  - split; [|reflexivity]. intros _. exists o.
    assert (Hin : In o (o :: l)) by now left.
    rewrite <- Hf in Hin. apply filter_In in Hin. destruct Hin as [Hin Heq].
    split; [exact Hin | now apply String.eqb_eq].
Qed.

End SubmissionFurther.

(* ------------------------------------------------------------------ *)
(** ** Refinement, further *)

Section RefinementFurther.

Variable E : Env.

Lemma NoDup_snoc {A} (l : list A) (a : A) :
  NoDup l -> ~ In a l -> NoDup (l ++ [a]).
Proof.
  induction l as [|x l IH]; simpl; intros Hnd Hnot.
  - constructor; [tauto | constructor].
  - inversion Hnd as [|? ? Hx Hl]. subst. constructor.
    + intros Hin. apply in_app_or in Hin. destruct Hin as [Hin|[<-|[]]];
        [contradiction | tauto].
    + apply IH; tauto.
Qed.

Lemma same_refl (a : TagAssociation.row) : TagAssociation.same a a = true.
Proof. unfold TagAssociation.same. now rewrite !String.eqb_refl. Qed.

Lemma add_association_NoDup (l : list TagAssociation.row)
    (a : TagAssociation.row) :
  NoDup l -> NoDup (Sql.add_association l a).
Proof.
  intros Hnd. unfold Sql.add_association.
  destruct (existsb _ l) eqn:Hex; [exact Hnd|].
  apply NoDup_snoc; [exact Hnd|]. intros Hin.
  assert (Hyes : existsb (TagAssociation.same a) l = true).
  { apply existsb_exists. exists a. split; [exact Hin | apply same_refl]. }
  congruence.
Qed.

Lemma insert_associations_NoDup (rows l : list TagAssociation.row) :
  NoDup l -> NoDup (fold_left Sql.add_association rows l).
Proof.
  revert l. induction rows as [|a rows IH]; simpl; [trivial|].
  intros l Hnd. apply IH. now apply add_association_NoDup.
Qed.

Lemma insert_associations_origin (rows l : list TagAssociation.row)
    (a : TagAssociation.row) :
  In a (fold_left Sql.add_association rows l) -> In a l \/ In a rows.
Proof.
  revert l. induction rows as [|b rows IH]; simpl; [tauto|].
  intros l Hin. destruct (IH _ Hin) as [H|H]; [|tauto].
  unfold Sql.add_association in H. destruct (existsb _ l); [tauto|].
  apply in_app_or in H. destruct H as [H|[<-|[]]]; tauto.
Qed.

Lemma refinedRow_fixed (oid : string) (data : RefineOpportunityResponse)
    (companyId : option string) (expiry : option (option Z))
    (o : Opportunity.row) :
  fixedColumns (refinedRow E oid (refinePatch data companyId expiry) o) =
  fixedColumns o.
Proof.
  unfold refinedRow. cbv zeta.
  destruct (Sql.has_id oid o); destruct (neverRefined oid _); reflexivity.
Qed.

(** The tables of a committed store, one by one. *)
Lemma committedDb_tables (oid : string) (data : RefineOpportunityResponse)
    (companyId : option string) (expiry : option (option Z)) (d : Database) :
  let d' := committedDb E oid data companyId expiry d in
  opportunityTags d' = opportunityTags d /\
  opportunityBookmarks d' = opportunityBookmarks d /\
  opportunityReports d' = opportunityReports d /\
  admins d' = admins d /\
  opportunityTagAssociations d' =
    match tags data with
    | None => opportunityTagAssociations d
    | Some names =>
        fold_left Sql.add_association
          (tagRows oid (Sql.tags_named names d))
          (opportunityTagAssociations d)
    end.
Proof.
  cbv zeta. unfold committedDb. cbv zeta.
  destruct (tags data); simpl; repeat split.
Qed.

(** What one call may have done to the store, whatever way it went. *)
Lemma refine_reaches (input : RefineOpportunityInput) (w : World) :
  let d' := db (snd (refineOpportunity E input w)) in
  d' = db w \/
  exists data companyId expiry,
    d' = committedDb E (opportunityId input) data companyId expiry (db w).
Proof.
  cbv zeta.
  destruct (refineOpportunity_cases E input w)
    as [(Hdb & _ & _) |
        [(data & w0 & e & w1 & _ & _ & Hw0 & Htx & Hrun) |
         (data & w0 & row & w1 & _ & _ & Hw0 & Htx & Hres & Hdb)]].
  - now left.
  - left. rewrite Hrun. simpl. apply transaction_rolls_back in Htx. congruence.
  - right. apply refineTransaction_commits in Htx.
    destruct Htx as (cid & exp & _ & _ & _ & Hw1).
    exists data, cid, exp. congruence.
Qed.

(** X12.  Whatever the AI answers, [refineOpportunity] leaves the tag
    catalog, the bookmarks, the reports and the admins as they are (a
    tag name the catalog lacks creates no tag), keeps every posting in
    place with its link, poster, creation time, last check and chat
    origin, keeps every tag association, and adds associations only
    between the refined posting and tags of the catalog. *)
Theorem refine_touches_nothing_else (input : RefineOpportunityInput)
    (w : World) :
  let d' := db (snd (refineOpportunity E input w)) in
  opportunityTags d' = opportunityTags (db w) /\
  opportunityBookmarks d' = opportunityBookmarks (db w) /\
  opportunityReports d' = opportunityReports (db w) /\
  admins d' = admins (db w) /\
  map fixedColumns (opportunities d') =
    map fixedColumns (opportunities (db w)) /\
  (forall a, In a (opportunityTagAssociations (db w)) ->
             In a (opportunityTagAssociations d')) /\
  (forall a, In a (opportunityTagAssociations d') ->
             In a (opportunityTagAssociations (db w)) \/
             (TagAssociation.opportunityId a = opportunityId input /\
              exists tag, In tag (opportunityTags (db w)) /\
                          Tag.id tag = TagAssociation.tagId a)).
Proof.
  cbv zeta.
  destruct (refine_reaches input w) as [->|(data & cid & exp & ->)].
  - repeat split; auto.
  - destruct (committedDb_tables (opportunityId input) data cid exp (db w))
      as (Ht & Hb & Hr & Ha & Hassoc).
    rewrite Ht, Hb, Hr, Ha, Hassoc, committedDb_opportunities.
    repeat split.
    + rewrite map_map. apply map_ext. intros o. apply refinedRow_fixed.
    + intros a Hin. destruct (tags data); [|exact Hin].
      now apply insert_associations_keeps.
    + intros a Hin. destruct (tags data) as [names|]; [|now left].
      apply insert_associations_origin in Hin. destruct Hin as [Hin|Hin];
        [now left | right].
      unfold tagRows in Hin. apply in_map_iff in Hin.
      destruct Hin as (tag & <- & Htag). split; [reflexivity|].
      exists tag. split; [|reflexivity].
      unfold Sql.tags_named in Htag. apply filter_In in Htag. tauto.
Qed.

(** X15.  Tag associations stay free of duplicates: on a store where no
    association occurs twice, none occurs twice after a refinement,
    however often the AI names a tag the posting already has. *)
Theorem refine_keeps_associations_distinct (input : RefineOpportunityInput)
    (w : World) :
  NoDup (opportunityTagAssociations (db w)) ->
  NoDup (opportunityTagAssociations (db (snd (refineOpportunity E input w)))).
Proof.
  intros Hnd.
  destruct (refine_reaches input w) as [->|(data & cid & exp & ->)];
    [exact Hnd|].
  destruct (committedDb_tables (opportunityId input) data cid exp (db w))
    as (_ & _ & _ & _ & ->).
  destruct (tags data); [|exact Hnd].
  now apply insert_associations_NoDup.
Qed.

(** X13.  An answer that validates but lacks a title or a description
    refines nothing: the call succeeds without a row, the store is as
    it was, and the poster is asked to paste the page by hand exactly
    when the call carries both a chat channel and a chat user. *)
Theorem unusable_answer_asks_for_manual_refinement
    (input : RefineOpportunityInput) (w : World)
    (data : RefineOpportunityResponse) :
  extracted E input w data ->
  usable data = false ->
  refineOpportunity E input w =
  (Returned (success None),
   {| db := db w;
      effects := (effects w ++
                  CompletionRequested (content input) (tagNamesAsked (db w)) ::
                  manualRefinementRequest input)%list |}).
Proof.
  intros (completion & j & Hc & Hj & Hd) Hu. unfold usable in Hu.
  unfold refineOpportunity, manualRefinementRequest, tagNamesAsked.
  run_async. cbn beta iota. cbn [db effects]. rewrite Hc. cbn beta iota.
  rewrite Hj, Hd.
  assert (Hn : negb (Js.truthy_opt (title data)) ||
               negb (Js.truthy_opt (description data)) = true).
  { rewrite <- negb_andb, Hu. reflexivity. }
  rewrite Hn.
  destruct (slackChannelId input) as [channel|];
    [destruct (slackUserId input) as [user|]|]; cbn beta iota.
  - destruct (Js.truthy channel && Js.truthy user); cbn;
      rewrite <- ?app_assoc; reflexivity.
  - reflexivity.
  - reflexivity.
Qed.

(** X14.  A failure of the AI client is handed back as it is, code and
    message, and a rejection of the client rejects the call; in both
    cases the store is untouched and nothing is queued. *)
Theorem client_failure_is_handed_back (input : RefineOpportunityInput)
    (w : World) :
  let asked :=
    {| db := db w;
       effects := (effects w ++
                   [CompletionRequested (content input)
                                        (tagNamesAsked (db w))])%list |} in
  (forall code error,
     getChatCompletion E (content input) (tagNamesAsked (db w)) =
       Returned (fail code error) ->
     refineOpportunity E input w = (Returned (fail code error), asked)) /\
  (forall e,
     getChatCompletion E (content input) (tagNamesAsked (db w)) = Thrown e ->
     refineOpportunity E input w = (Thrown e, asked)).
Proof.
  cbv zeta. unfold tagNamesAsked, refineOpportunity. run_async.
  cbn beta iota. cbn [db effects].
  split; intros; match goal with H : _ = _ |- _ => rewrite H end; reflexivity.
Qed.

End RefinementFurther.

Section RefinementOrder.

Variable E : Env.

Lemma refineTransaction_row (input : RefineOpportunityInput)
    (data : RefineOpportunityResponse) (w0 w1 : World) (row : Refined.row) :
  refineTransaction E input data w0 = (Returned row, w1) ->
  effects w1 = effects w0 /\
  exists o0 rest,
    Sql.opportunities_by_id (opportunityId input) (db w0) = o0 :: rest /\
    Refined.id row = Opportunity.id o0 /\
    Refined.refinedAt row = Opportunity.refinedAt o0 /\
    Refined.slackChannelId row = Opportunity.slackChannelId o0 /\
    Refined.slackMessageId row = Opportunity.slackMessageId o0.
Proof.
  unfold refineTransaction. run_async.
  destruct (resolveCompany E data) as [cid|e]; [|discriminate].
  destruct (resolveExpiry E data) as [exp|e]; [|discriminate].
  cbn beta iota. unfold Sql.updated_rows, Sql.opportunities_by_id.
  cbn [db effects].
  destruct (filter _ (opportunities (db w0))) as [|o0 rest]; [discriminate|].
  cbn [map db effects Refined.project Refined.id].
  destruct (tags data) as [names|].
  - destruct (Sql.values_given _); [|discriminate].
    intros H. inversion H. subst. split; [reflexivity|].
    exists o0, rest. repeat split.
  - intros H. inversion H. subst. split; [reflexivity|].
    exists o0, rest. repeat split.
Qed.

(** X16.  A refinement that commits announces the posting in its chat
    thread exactly when the posting came from a chat message and had
    never been refined; a later refinement of the same posting commits
    in silence. *)
Theorem only_first_refinement_is_announced (input : RefineOpportunityInput)
    (w : World) (data : RefineOpportunityResponse) (o : Opportunity.row)
    (r : Result (option Refined.row)) :
  extracted E input w data ->
  usable data = true ->
  Sql.opportunities_by_id (opportunityId input) (db w) = [o] ->
  fst (refineOpportunity E input w) = Returned r ->
  effects (snd (refineOpportunity E input w)) =
  (effects w ++
   CompletionRequested (content input) (tagNamesAsked (db w)) ::
   boardAnnouncement o)%list.
Proof.
  intros (completion & j & Hc & Hj & Hd) Hu Hby. unfold usable in Hu.
  apply andb_true_iff in Hu. destruct Hu as [Ht Hde].
  unfold refineOpportunity, boardAnnouncement, tagNamesAsked.
  run_async. cbn beta iota. cbn [db effects]. rewrite Hc. cbn beta iota.
  rewrite Hj, Hd, Ht, Hde. cbn [negb orb]. cbn beta iota.
  match goal with
  | |- context [refineTransaction E input data ?w0] =>
      destruct (refineTransaction E input data w0) as [[row|e] w1] eqn:Htx
  end; [|discriminate].
  destruct (refineTransaction_row _ _ _ _ _ Htx)
    as (Heff & o0 & rest & Hby0 & Hid & Hat & Hch & Hmsg).
  cbn [db effects] in Hby0, Heff. rewrite Hby in Hby0.
  inversion Hby0. subst o0 rest.
  rewrite Hid, Hat, Hch, Hmsg. intros _.
  destruct (Opportunity.slackChannelId o) as [channel|];
    [destruct (Opportunity.slackMessageId o) as [message|];
     [destruct (Opportunity.refinedAt o)|]|];
    cbn beta iota; cbn [fst snd effects]; rewrite ?Heff;
    try reflexivity.
  destruct (Js.truthy channel && Js.truthy message); cbn;
    rewrite ?Heff, <- ?app_assoc; reflexivity.
Qed.

Lemma database_ext (d d' : Database) :
  opportunities d = opportunities d' ->
  opportunityTags d = opportunityTags d' ->
  opportunityTagAssociations d = opportunityTagAssociations d' ->
  opportunityBookmarks d = opportunityBookmarks d' ->
  opportunityReports d = opportunityReports d' ->
  admins d = admins d' ->
  d = d'.
Proof. destruct d, d'. simpl. intros. subst. reflexivity. Qed.

Lemma assign_twice {A} (x : option A) (a : A) :
  Opportunity.assign x (Opportunity.assign x a) = Opportunity.assign x a.
Proof. now destruct x. Qed.

Lemma refinedRow_idem (oid : string) (data : RefineOpportunityResponse)
    (companyId : option string) (expiry : option (option Z))
    (o : Opportunity.row) :
  let p := refinePatch data companyId expiry in
  refinedRow E oid p (refinedRow E oid p o) = refinedRow E oid p o.
Proof.
  cbv zeta. unfold refinedRow, neverRefined, Sql.refinedAt_is_null, Sql.has_id.
  cbv zeta. destruct o as [i l t de c pb ca ex lc ra sc sm]. simpl.
  destruct (String.eqb i oid) eqn:Hid; simpl; repeat (rewrite Hid; simpl);
    [|reflexivity].
  destruct ra; simpl; repeat (rewrite Hid; simpl);
    unfold Opportunity.apply; simpl; rewrite ?assign_twice; reflexivity.
Qed.

Lemma insert_present (rows l : list TagAssociation.row) :
  (forall a, In a rows -> In a l) ->
  fold_left Sql.add_association rows l = l.
Proof.
  induction rows as [|a rows IH]; simpl; [reflexivity|].
  intros H. assert (Ha : Sql.add_association l a = l).
  { unfold Sql.add_association.
    assert (Hex : existsb (TagAssociation.same a) l = true).
    { apply existsb_exists. exists a. split; [apply H; now left|].
      apply same_refl. }
    now rewrite Hex. }
  rewrite Ha. apply IH. intros b Hb. apply H. now right.
Qed.

Lemma committedDb_idem (oid : string) (data : RefineOpportunityResponse)
    (companyId : option string) (expiry : option (option Z)) (d : Database) :
  committedDb E oid data companyId expiry
    (committedDb E oid data companyId expiry d) =
  committedDb E oid data companyId expiry d.
Proof.
  set (d1 := committedDb E oid data companyId expiry d).
  destruct (committedDb_tables E oid data companyId expiry d)
    as (Ht & Hb & Hr & Ha & Hassoc).
  destruct (committedDb_tables E oid data companyId expiry d1)
    as (Ht1 & Hb1 & Hr1 & Ha1 & Hassoc1).
  fold d1 in Ht, Hb, Hr, Ha, Hassoc.
  apply database_ext; try congruence.
  - rewrite committedDb_opportunities. unfold d1.
    rewrite committedDb_opportunities, map_map. apply map_ext.
    intros o. apply refinedRow_idem.
  - rewrite Hassoc1. destruct (tags data) as [names|]; [|reflexivity].
    apply insert_present. intros a Hin. rewrite Hassoc.
    apply insert_associations_adds.
    unfold Sql.tags_named in *. now rewrite Ht in Hin.
Qed.

Lemma extracted_same_catalog (input : RefineOpportunityInput) (w w' : World)
    (data : RefineOpportunityResponse) :
  opportunityTags (db w') = opportunityTags (db w) ->
  extracted E input w' data -> extracted E input w data.
Proof. unfold extracted. now intros ->. Qed.

(** X17.  Refining is idempotent on the store: after a call that
    returned, the same call again, with the collaborators answering the
    same, leaves every table as the first call left it. *)
Theorem refining_again_changes_nothing (input : RefineOpportunityInput)
    (w : World) (r : Result (option Refined.row)) :
  fst (refineOpportunity E input w) = Returned r ->
  let w1 := snd (refineOpportunity E input w) in
  db (snd (refineOpportunity E input w1)) = db w1.
Proof.
  intros Hret w1.
  assert (Hcat : opportunityTags (db w1) = opportunityTags (db w)).
  { unfold w1. destruct (refine_reaches E input w) as [->|(da & ci & ex & ->)];
      [reflexivity|].
    now destruct (committedDb_tables E (opportunityId input) da ci ex (db w)). }
  destruct (refineOpportunity_cases E input w1)
    as [(Hdb & _ & _) |
        [(data & w0 & e & w2 & _ & _ & Hw0 & Htx & Hrun) |
         (data & w0 & row & w2 & Hex & Hu & Hw0 & Htx & _ & Hdb)]].
  - exact Hdb.
  - rewrite Hrun. simpl. apply transaction_rolls_back in Htx. congruence.
  - apply (extracted_same_catalog _ _ _ _ Hcat) in Hex.
    apply refineTransaction_commits in Htx.
    destruct Htx as (cid & exp & Hcid & Hexp & _ & Hw2).
    rewrite Hdb, Hw2, Hw0.
    destruct (refineOpportunity_cases E input w)
      as [(_ & _ & Hnot) |
          [(data' & w0' & e' & w1' & _ & _ & _ & _ & Hrun') |
           (data' & w0' & row' & w1' & Hex' & _ & Hw0' & Htx' & _ & Hdb')]].
    + exfalso. apply Hnot. exists data. split; [exact Hex | exact Hu].
    + rewrite Hrun' in Hret. discriminate.
    + assert (data' = data) by (eapply extracted_unique; eassumption).
      subst data'. apply refineTransaction_commits in Htx'.
      destruct Htx' as (cid' & exp' & Hcid' & Hexp' & _ & Hw1').
      assert (cid' = cid) by congruence. assert (exp' = exp) by congruence.
      subst cid' exp'. unfold w1. rewrite Hdb', Hw1', Hw0'.
      apply committedDb_idem.
Qed.

End RefinementOrder.

(* ------------------------------------------------------------------ *)
(** ** The schema of the AI response *)

Section Schema.

(** A string that passed [.trim().min(1)] is not empty. *)
Lemma trimmed_is_truthy (max : option nat) (v : option json) (t : string) :
  Zod.trimmed max v = Some t -> Js.truthy t = true.
Proof.
  unfold Zod.trimmed. destruct (Zod.string_ v) as [s|]; [|discriminate].
  cbv zeta.
  destruct (1 <=? Js.length (Js.trim s))%nat eqn:Hlow; [|discriminate].
  destruct (match max with Some _ => _ | None => _ end); [|discriminate].
  intros H. inversion H. subst.
  destruct (Js.trim s); [discriminate | reflexivity].
Qed.

Lemma nullable_some {A} (schema : option json -> option A) (v : option json)
    (a : A) :
  Zod.nullable schema v = Some (Some a) -> schema v = Some a.
Proof.
  unfold Zod.nullable. destruct v as [[]|]; try discriminate;
    destruct (schema _); simpl; congruence.
Qed.

(** X18.  For an answer the schema accepts, the guard that
    [refineOpportunity] puts on title and description lets it pass
    exactly when both are present: a string the schema lets through is
    never empty, so that a field is falsy only when it is null. *)
Theorem accepted_answer_is_usable_when_complete (j : json)
    (data : RefineOpportunityResponse) :
  RefineOpportunityResponse_parse j = Some data ->
  (usable data = true <-> title data <> None /\ description data <> None).
Proof.
  unfold RefineOpportunityResponse_parse. destruct j; try discriminate.
  destruct (Zod.nullable (Zod.trimmed None) _) as [c|]; [|discriminate].
  destruct (Zod.nullable (Zod.trimmed (Some 500%nat)) _) as [d|] eqn:Hd;
    [|discriminate].
  destruct (Zod.nullable Zod.string_ _) as [e|]; [|discriminate].
  destruct (Zod.nullable (Zod.array_min1 _) _) as [t|]; [|discriminate].
  destruct (Zod.nullable (Zod.trimmed (Some 100%nat)) _) as [ti|] eqn:Hti;
    [|discriminate].
  intros H. inversion H. subst. clear H. unfold usable. simpl.
  destruct ti as [s|]; simpl.
  - apply nullable_some, trimmed_is_truthy in Hti. rewrite Hti. simpl.
    destruct d as [s'|]; simpl.
    + apply nullable_some, trimmed_is_truthy in Hd. rewrite Hd.
      split; [intros _; split; discriminate | reflexivity].
    + split; [discriminate | tauto].
  - split; [discriminate | tauto].
Qed.

End Schema.

(* ------------------------------------------------------------------ *)
(** ** Postings from chat messages *)

Section FromChat.

Variable E : Env.
Variable slackMessages : list SlackMessage.row.

Lemma append_empty (s : string) : s ++ EmptyString = s.
Proof. induction s as [|c s IH]; simpl; [reflexivity | now rewrite IH]. Qed.

Lemma no_bracket_no_link (text : string) :
  all_chars (fun c => negb (Ascii.eqb c "<")) text = true ->
  getFirstLinkInMessage text = None.
Proof.
  intros H. rewrite <- (append_empty text).
  now rewrite skip_before_bracket.
Qed.

(** X19.  [createOpportunityFromSlack] backs out without touching
    anything in three cases: the message is unknown or has no text (a
    404 failure); its text holds no opening bracket, so no link (a
    success); its link matches a posting already on the board (a
    success). *)
Theorem chat_message_without_new_link_is_left
    (sendNotification : option bool) (channel message : string) (w : World) :
  let run := createOpportunityFromSlack E slackMessages sendNotification
               channel message w in
  ((messageOf slackMessages channel message = None \/
    exists m, messageOf slackMessages channel message = Some m /\
              Js.truthy_opt (SlackMessage.text m) = false) ->
   run = (Returned (fail 404 MESSAGE_NOT_FOUND), w)) /\
  (forall m text,
     messageOf slackMessages channel message = Some m ->
     SlackMessage.text m = Some text -> Js.truthy text = true ->
     (all_chars (fun c => negb (Ascii.eqb c "<")) text = true ->
      run = (Returned (success NothingToDo), w)) /\
     (forall link o rest,
        getFirstLinkInMessage text = Some link ->
        Sql.opportunities_ilike link (db w) = Returned (o :: rest) ->
        run = (Returned (success NothingToDo), w))).
Proof.
  cbv zeta. unfold messageOf, createOpportunityFromSlack. split.
  - intros [Hnone|(m & Hm & Htext)].
    + now rewrite Hnone.
    + rewrite Hm. destruct (SlackMessage.text m) as [[|c t]|];
        [reflexivity | discriminate | reflexivity].
  - intros m text Hm Htext Htruthy. rewrite Hm, Htext.
    destruct text as [|c t]; [discriminate|]. split.
    + intros Hno. now rewrite (no_bracket_no_link _ Hno).
    + intros link o rest Hlink Hdup. rewrite Hlink. run_async.
      now rewrite Hdup.
Qed.

(** X20.  For a link on a document-sharing or professional-network
    host the page is never requested and the AI never asked.  The call
    succeeds with the id of the posting of the message: a new row when
    the message had none, and otherwise the row it had, whose
    description the upsert sets back to the default.  The poster is
    asked for the page content unless notifications are switched off. *)
Theorem protected_link_is_not_fetched (sendNotification : option bool)
    (channel message : string) (w : World) (m : SlackMessage.row)
    (text link : string) :
  messageOf slackMessages channel message = Some m ->
  SlackMessage.text m = Some text -> Js.truthy text = true ->
  getFirstLinkInMessage text = Some link ->
  Sql.opportunities_ilike link (db w) = Returned [] ->
  isProtected link = true ->
  let run := createOpportunityFromSlack E slackMessages sendNotification
               channel message w in
  exists oid,
    fst run = Returned (success (PlaceholderOnly oid)) /\
    effects (snd run) =
      (effects w ++
       match sendNotification with
       | Some false => []
       | _ => [Queued (RefinementRequested oid channel
                                           (SlackMessage.userId m))]
       end)%list /\
    match hd_error (filter (isFromMessage channel message)
                           (opportunities (db w))) with
    | Some old =>
        oid = Opportunity.id old /\
        map fixedColumns (opportunities (db (snd run))) =
          map fixedColumns (opportunities (db w)) /\
        (forall r, In r (opportunities (db (snd run))) ->
                   isFromMessage channel message r = true ->
                   Opportunity.description r = "N/A")
    | None =>
        oid = freshId E /\
        exists o, opportunities (db (snd run)) =
                    (opportunities (db w) ++ [o])%list /\
                  Opportunity.id o = freshId E /\
                  Opportunity.link o = link /\
                  isFromMessage channel message o = true /\
                  Opportunity.postedBy o = SlackMessage.studentId m
    end.
Proof.
  intros Hm Htext Htruthy Hlink Hnone Hprot. cbv zeta.
  unfold messageOf in Hm. unfold isProtected in Hprot.
  unfold createOpportunityFromSlack, upsertFromMessage. rewrite Hm, Htext.
  destruct text as [|c t]; [discriminate|]. rewrite Hlink.
  run_async. rewrite Hnone. cbn beta iota. rewrite Hprot. cbn beta iota.
  cbn [db effects Js.truthy].
  destruct (hd_error (filter _ (opportunities (db w)))) as [old|] eqn:Hold;
    cbn beta iota; cbn [db effects Js.truthy Opportunity.id].
  - exists (Opportunity.id old).
    destruct sendNotification as [[|]|]; cbn [fst snd db effects];
      rewrite ?app_nil_r;
      (split; [reflexivity|]; split; [reflexivity|];
       split; [reflexivity|]; split;
       [simpl; rewrite map_map; apply map_ext; intros r;
        destruct (isFromMessage channel message r); reflexivity
       |intros r Hin Hfrom; simpl in Hin; apply in_map_iff in Hin;
        destruct Hin as (r0 & <- & _);
        destruct (isFromMessage channel message r0) eqn:H0;
        [reflexivity | congruence]]).
  - exists (freshId E).
    destruct sendNotification as [[|]|]; cbn [fst snd db effects];
      rewrite ?app_nil_r;
      (split; [reflexivity|]; split; [reflexivity|];
       split; [reflexivity|]; eexists; split; [reflexivity|];
       repeat split; unfold isFromMessage; simpl;
       rewrite ?String.eqb_refl; reflexivity).
Qed.

Lemma refine_fixed (input : RefineOpportunityInput) (w : World) :
  map fixedColumns (opportunities (db (snd (refineOpportunity E input w)))) =
  map fixedColumns (opportunities (db w)).
Proof.
  destruct (refine_reaches E input w) as [->|(data & cid & exp & ->)];
    [reflexivity|].
  rewrite committedDb_opportunities, map_map. apply map_ext.
  intros o. apply refinedRow_fixed.
Qed.

Lemma fixed_same_rows (channel message : string)
    (l l' : list Opportunity.row) :
  map fixedColumns l' = map fixedColumns l ->
  List.length (filter (isFromMessage channel message) l') =
  List.length (filter (isFromMessage channel message) l).
Proof.
  revert l'. induction l as [|o l IH]; intros [|o' l'] H; try discriminate;
    [reflexivity|].
  simpl in H. injection H as _ _ _ _ _ Hc Hm Hl. simpl.
  assert (Hsame : isFromMessage channel message o' =
                  isFromMessage channel message o).
  { unfold isFromMessage. now rewrite Hc, Hm. }
  rewrite Hsame. destruct (isFromMessage channel message o); simpl;
    [f_equal|]; now apply IH.
Qed.

Lemma upserted_keeps (channel message : string) (o : Opportunity.row)
    (d : Database) :
  Opportunity.slackChannelId o = Some channel ->
  Opportunity.slackMessageId o = Some message ->
  atMostOnePerMessage d ->
  atMostOnePerMessage (upserted channel message o d).
Proof.
  intros Hc Hm Hinv c' m'. unfold messageRows, upserted.
  destruct (hd_error (filter (isFromMessage channel message)
                             (opportunities d))) as [old|] eqn:Hold.
  - rewrite (fixed_same_rows c' m' (opportunities d)); [apply Hinv|].
    simpl. rewrite map_map. apply map_ext. intros r.
    destruct (isFromMessage channel message r); reflexivity.
  - simpl. rewrite filter_app, length_app. simpl.
    destruct (isFromMessage c' m' o) eqn:Hfrom; simpl.
    + unfold isFromMessage in Hfrom. rewrite Hc, Hm in Hfrom.
      apply andb_true_iff in Hfrom. destruct Hfrom as [H1 H2].
      apply String.eqb_eq in H1, H2. subst c' m'.
      destruct (filter (isFromMessage channel message) (opportunities d));
        [simpl; lia | discriminate].
    + specialize (Hinv c' m'). unfold messageRows in Hinv. lia.
Qed.

(** Where a call of [createOpportunityFromSlack] may leave the store:
    as it was, as the upsert left it, or as a refinement of that. *)
Lemma fromChat_reaches (sendNotification : option bool)
    (channel message : string) (w : World) :
  let d' := db (snd (createOpportunityFromSlack E slackMessages
                       sendNotification channel message w)) in
  d' = db w \/
  exists o,
    Opportunity.slackChannelId o = Some channel /\
    Opportunity.slackMessageId o = Some message /\
    (d' = upserted channel message o (db w) \/
     exists input w1,
       db w1 = upserted channel message o (db w) /\
       d' = db (snd (refineOpportunity E input w1))).
Proof.
  cbv zeta. unfold createOpportunityFromSlack, upsertFromMessage, upserted.
  destruct (hd_error (filter _ slackMessages)) as [m|]; [|now left].
  destruct (SlackMessage.text m) as [[|c t]|]; [now left| |now left].
  destruct (getFirstLinkInMessage (String c t)) as [link|]; [|now left].
  run_async.
  destruct (Sql.opportunities_ilike link (db w)) as [[|x l]|e];
    [|now left|now left].
  cbn beta iota. right.
  exists {| Opportunity.id := freshId E;
            Opportunity.link := link;
            Opportunity.title := "Opportunity";
            Opportunity.description := "N/A";
            Opportunity.companyId := None;
            Opportunity.postedBy := SlackMessage.studentId m;
            Opportunity.createdAt := now E;
            Opportunity.expiresAt := Some (nextMonth E);
            Opportunity.lastExpirationCheck := None;
            Opportunity.refinedAt := None;
            Opportunity.slackChannelId := Some channel;
            Opportunity.slackMessageId := Some message |}.
  split; [|split]; [| |].
  3: { destruct (Js.includes "docs.google.com" link ||
                 Js.includes "linkedin.com" link); cbn beta iota.
       - cbn [db effects Js.truthy].
         destruct (hd_error (filter _ (opportunities (db w))));
           cbn beta iota; left;
           destruct sendNotification as [[|]|]; reflexivity.
       - destruct (getPageContent E link) as [page|e]; cbn beta iota;
           cbn [db effects].
         + destruct (hd_error (filter _ (opportunities (db w)))) eqn:Hold;
             cbn beta iota; destruct (Js.truthy page); cbn beta iota.
           * right.
             match goal with
             | |- context [refineOpportunity E ?i ?w0] => exists i, w0
             end.
             split;
               [|destruct (refineOpportunity E _ _) as [[[res|? ?]|?] ?];
                 reflexivity].
             cbn [db]. rewrite ?Hold. reflexivity.
           * left. cbn [db]. rewrite ?Hold.
             destruct sendNotification as [[|]|]; reflexivity.
           * right.
             match goal with
             | |- context [refineOpportunity E ?i ?w0] => exists i, w0
             end.
             split;
               [|destruct (refineOpportunity E _ _) as [[[res|? ?]|?] ?];
                 reflexivity].
             cbn [db]. rewrite ?Hold. reflexivity.
           * left. cbn [db]. rewrite ?Hold.
             destruct sendNotification as [[|]|]; reflexivity.
         + cbn [Js.truthy].
           destruct (hd_error (filter _ (opportunities (db w))));
             cbn beta iota; left;
             destruct sendNotification as [[|]|]; reflexivity. }
  - reflexivity.
  - reflexivity.
Qed.

(** X21.  A chat message never gets a second posting: on a store where
    every message has at most one, every message has at most one after
    [createOpportunityFromSlack], whichever way the call ends. *)
Theorem chat_message_has_at_most_one_posting
    (sendNotification : option bool) (channel message : string) (w : World) :
  atMostOnePerMessage (db w) ->
  atMostOnePerMessage
    (db (snd (createOpportunityFromSlack E slackMessages sendNotification
                channel message w))).
Proof.
  intros Hinv.
  destruct (fromChat_reaches sendNotification channel message w)
    as [->|(o & Hc & Hm & [->|(input & w1 & Hw1 & ->)])].
  - exact Hinv.
  - now apply upserted_keeps.
  - intros c' m'. unfold messageRows.
    rewrite (fixed_same_rows c' m' _ _ (refine_fixed input w1)), Hw1.
    now apply upserted_keeps.
Qed.

End FromChat.

(* ------------------------------------------------------------------ *)
(** ** The tag catalog *)

Section Catalog.

(** X22.  For a name without a backslash, [createOpportunityTag]
    refuses with the 409 failure, and changes nothing, when a tag has
    that name in some letter case; and a catalog whose names are
    distinct up to case stays so, whether the tag is refused or added. *)
Theorem tag_names_stay_distinct (input : CreateOpportunityTagInput)
    (w : World) :
  hasBackslash (tagName input) = false ->
  ((exists t, In t (opportunityTags (db w)) /\
              Js.toLowerCase (Tag.name t) = Js.toLowerCase (tagName input)) ->
   createOpportunityTag input w =
   (Returned (fail 409 "A tag with that name already exists."), w)) /\
  (distinctTagNames (db w) ->
   distinctTagNames (db (snd (createOpportunityTag input w)))).
Proof.
  intros Hplain.
  assert (Hmatch : forall t,
            Js.toLowerCase (Tag.name t) = Js.toLowerCase (tagName input) ->
            ilikeHolds (Tag.name t) (tagName input) = true).
  { intros t Hsame. unfold ilikeHolds.
    now rewrite (plain_pattern_matches_itself _ Hplain _ Hsame). }
  unfold createOpportunityTag, distinctTagNames. run_async.
  rewrite (where_total _ (fun t => ilikeHolds (Tag.name t) (tagName input)))
    by (intros r; now apply ilike_accepted).
  destruct (filter _ (opportunityTags (db w))) as [|x l] eqn:Hf.
  - split.
    + intros (t & Hin & Hsame). exfalso.
      assert (Hno : In t (filter (fun t => ilikeHolds (Tag.name t)
                                                      (tagName input))
                                 (opportunityTags (db w)))).
      { apply filter_In. split; [exact Hin | now apply Hmatch]. }
      rewrite Hf in Hno. contradiction.
    + intros Hnd. simpl. rewrite map_app. simpl. apply NoDup_snoc; [exact Hnd|].
      intros Hin. apply in_map_iff in Hin. destruct Hin as (t & Hsame & Hin).
      assert (Hno : In t (filter (fun t => ilikeHolds (Tag.name t)
                                                      (tagName input))
                                 (opportunityTags (db w)))).
      { apply filter_In. split; [exact Hin | now apply Hmatch]. }
      rewrite Hf in Hno. contradiction.
  - split; [reflexivity | trivial].
Qed.

End Catalog.

(* ------------------------------------------------------------------ *)
(** ** Edits *)

Section Edits.

Variable saveCompanyNamed : option string -> Outcome (option string).

Lemma editOpportunity_returns (oid : string) (input : Edit.input) (w : World)
    (r : Result nat) :
  fst (editOpportunity saveCompanyNamed oid input w) = Returned r ->
  Edit.tags input <> [] /\
  r = success (List.length (Sql.opportunities_by_id oid (db w))) /\
  exists companyId,
    db (snd (editOpportunity saveCompanyNamed oid input w)) =
    editedDb oid input companyId (db w).
Proof.
  unfold editOpportunity, editedDb, Sql.insert_associations_checked.
  run_async.
  destruct (Js.truthy_opt (Edit.companyId input)); cbn beta iota.
  - destruct (Edit.tags input) as [|t tags]; simpl; [discriminate|].
    destruct (_ && forallb _ _); simpl; [|discriminate].
    intros H. inversion H. split; [discriminate|]. split; [reflexivity|].
    now exists (Edit.companyId input).
  - destruct (saveCompanyNamed (Edit.companyName input)) as [cid|e];
      cbn beta iota; [|discriminate].
    destruct (Edit.tags input) as [|t tags]; simpl; [discriminate|].
    destruct (_ && forallb _ _); simpl; [|discriminate].
    intros H. inversion H. split; [discriminate|]. split; [reflexivity|].
    now exists cid.
Qed.

(** X23.  After an edit that returns, the tags of the posting are
    exactly the tags given: each given tag is associated, every other
    association of the posting is gone, the associations of other
    postings are untouched and none occurs twice if none did.  Title,
    description and expiry are the ones given; id, link, poster, times
    of creation, of last check and of refinement, and chat origin stay.
    The answer counts the rows with the id. *)
Theorem edit_sets_exactly_the_given_tags (oid : string) (input : Edit.input)
    (w : World) (r : Result nat) :
  fst (editOpportunity saveCompanyNamed oid input w) = Returned r ->
  let d' := db (snd (editOpportunity saveCompanyNamed oid input w)) in
  r = success (List.length (Sql.opportunities_by_id oid (db w))) /\
  (forall a, In a (opportunityTagAssociations d') <->
             (TagAssociation.opportunityId a = oid /\
              In (TagAssociation.tagId a) (Edit.tags input)) \/
             (TagAssociation.opportunityId a <> oid /\
              In a (opportunityTagAssociations (db w)))) /\
  (NoDup (opportunityTagAssociations (db w)) ->
   NoDup (opportunityTagAssociations d')) /\
  map unedited (opportunities d') = map unedited (opportunities (db w)) /\
  (forall o, In o (opportunities d') -> Opportunity.id o = oid ->
             Opportunity.title o = Edit.title input /\
             Opportunity.description o = Edit.description input /\
             Opportunity.expiresAt o = Some (Edit.expiresAt input)).
Proof.
  intros Hret. cbv zeta.
  destruct (editOpportunity_returns oid input w r Hret)
    as (Htags & Hr & cid & ->).
  split; [exact Hr|]. unfold editedDb. simpl. split; [|split; [|split]].
  - intros a. split.
    + intros Hin. apply insert_associations_origin in Hin.
      destruct Hin as [Hin|Hin].
      * apply filter_In in Hin. destruct Hin as [Hin Hkeep].
        apply negb_true_iff, andb_false_iff in Hkeep.
        destruct Hkeep as [Hother|Hgiven].
        -- right. split; [|exact Hin]. now apply String.eqb_neq.
        -- destruct (string_dec (TagAssociation.opportunityId a) oid)
             as [Heq|Hne]; [left | right; tauto].
           split; [exact Heq|]. apply negb_false_iff, existsb_exists in Hgiven.
           destruct Hgiven as (t & Ht & Heqb). apply String.eqb_eq in Heqb.
           now subst.
      * left. apply in_map_iff in Hin. destruct Hin as (t & <- & Ht). auto.
    + intros [[Hid Hgiven]|[Hne Hin]].
      * apply insert_associations_adds. apply in_map_iff.
        exists (TagAssociation.tagId a). split; [|exact Hgiven].
        destruct a. simpl in *. now subst.
      * apply insert_associations_keeps. apply filter_In.
        split; [exact Hin|]. apply String.eqb_neq in Hne. now rewrite Hne.
  - intros Hnd. apply insert_associations_NoDup. now apply NoDup_filter.
  - rewrite map_map. apply map_ext. intros o.
    destruct (Sql.has_id oid o); reflexivity.
  - intros o Hin Hid. apply in_map_iff in Hin. destruct Hin as (o0 & <- & _).
    destruct (Sql.has_id oid o0) eqn:Hh; [repeat split|].
    unfold Sql.has_id in Hh. rewrite Hid, String.eqb_refl in Hh. discriminate.
Qed.

End Edits.

(* ------------------------------------------------------------------ *)
(** ** Sweeps and the worker *)

Section Sweeps.

Variable E : Env.
Variable slackMessages : list SlackMessage.row.

Local Open Scope Z_scope.

Lemma insert_by_createdAt_In (o x : Opportunity.row)
    (l : list Opportunity.row) :
  In x (Sweep.insert_by_createdAt o l) <-> x = o \/ In x l.
Proof.
  induction l as [|y l IH]; simpl; [intuition congruence|].
  destruct (Opportunity.createdAt o <=? Opportunity.createdAt y); simpl;
    [intuition congruence|]. rewrite IH. intuition congruence.
Qed.

Lemma oldest_first_In (x : Opportunity.row) (l : list Opportunity.row) :
  In x (Sweep.oldest_first l) <-> In x l.
Proof.
  induction l as [|y l IH]; simpl; [tauto|].
  rewrite insert_by_createdAt_In, IH. intuition congruence.
Qed.

Lemma insert_by_createdAt_length (o : Opportunity.row)
    (l : list Opportunity.row) :
  List.length (Sweep.insert_by_createdAt o l) = S (List.length l).
Proof.
  induction l as [|y l IH]; simpl; [reflexivity|].
  destruct (Opportunity.createdAt o <=? Opportunity.createdAt y); simpl;
    [reflexivity | now rewrite IH].
Qed.

Lemma oldest_first_length (l : list Opportunity.row) :
  List.length (Sweep.oldest_first l) = List.length l.
Proof.
  induction l as [|y l IH]; simpl; [reflexivity|].
  now rewrite insert_by_createdAt_length, IH.
Qed.

Lemma insert_by_createdAt_sorted (o : Opportunity.row)
    (l : list Opportunity.row) :
  StronglySorted olderFirst l ->
  StronglySorted olderFirst (Sweep.insert_by_createdAt o l).
Proof.
  induction l as [|y l IH]; simpl; intros Hs.
  - repeat constructor.
  - inversion Hs as [|? ? Hl Hy]. subst.
    destruct (Opportunity.createdAt o <=? Opportunity.createdAt y) eqn:Hle.
    + apply Z.leb_le in Hle. constructor; [exact Hs|].
      constructor; [exact Hle|].
      eapply Forall_impl; [|exact Hy]. unfold olderFirst. intros a Ha. lia.
    + apply Z.leb_gt in Hle. constructor; [now apply IH|].
      apply Forall_forall. intros a Ha. apply insert_by_createdAt_In in Ha.
      destruct Ha as [->|Ha]; [unfold olderFirst; lia|].
      rewrite Forall_forall in Hy. now apply Hy.
Qed.

Lemma oldest_first_sorted (l : list Opportunity.row) :
  StronglySorted olderFirst (Sweep.oldest_first l).
Proof.
  induction l as [|y l IH]; simpl; [constructor|].
  now apply insert_by_createdAt_sorted.
Qed.

Lemma firstn_takes_the_oldest (n : nat) (l : list Opportunity.row)
    (o o' : Opportunity.row) :
  StronglySorted olderFirst l ->
  In o (firstn n l) -> In o' l ->
  Opportunity.createdAt o' < Opportunity.createdAt o ->
  In o' (firstn n l).
Proof.
  revert n. induction l as [|x l IH]; intros n Hs Ho Ho' Hlt.
  - destruct n; contradiction.
  - destruct n as [|n]; [contradiction|]. simpl in *.
    inversion Hs as [|? ? Hl Hx]. subst.
    destruct Ho' as [->|Ho']; [now left|]. right.
    destruct Ho as [->|Ho].
    + rewrite Forall_forall in Hx. specialize (Hx o' Ho').
      unfold olderFirst in Hx. lia.
    + now apply IH.
Qed.

Lemma firstn_subset {A} (n : nat) (l : list A) (x : A) :
  In x (firstn n l) -> In x l.
Proof.
  revert n. induction l as [|a l IH]; intros [|n]; simpl; try tauto.
  intros [->|H]; [now left | right; now apply (IH n)].
Qed.

Lemma queueChecks_runs (rows : list Opportunity.row) (w : World) :
  queueChecks rows w =
  (Returned tt,
   {| db := db w; effects := (effects w ++ checksFor rows)%list |}).
Proof.
  revert w. induction rows as [|o rows IH]; intros w; simpl.
  - unfold ret. rewrite app_nil_r. now destruct w.
  - unfold bind, job, emit. rewrite IH. simpl. now rewrite <- app_assoc.
Qed.

(** X24.  With a limit that is not negative, a sweep writes nothing
    and queues one forced check per chosen posting.  The chosen ones
    are as many as the limit allows among the postings that have not
    expired and were never checked, each is one of those, and none of
    those that was created earlier than a chosen one is left out. *)
Theorem sweep_queues_the_oldest_unchecked (limit : Z) (w : World) :
  0 <= limit ->
  exists chosen,
    checkForExpiredOpportunities E limit w =
    (Returned (success tt),
     {| db := db w; effects := (effects w ++ checksFor chosen)%list |}) /\
    List.length chosen =
      Nat.min (Z.to_nat limit) (List.length (eligible E (db w))) /\
    (forall o, In o chosen -> In o (eligible E (db w))) /\
    (forall o o', In o chosen -> In o' (eligible E (db w)) ->
                  Opportunity.createdAt o' < Opportunity.createdAt o ->
                  In o' chosen).
Proof.
  intros Hlimit.
  exists (firstn (Z.to_nat limit) (Sweep.oldest_first (eligible E (db w)))).
  split; [|split; [|split]].
  - unfold checkForExpiredOpportunities, limited. unfold bind at 1.
    assert (Hneg : (limit <? 0) = false) by (apply Z.ltb_ge; lia).
    rewrite Hneg. unfold bind. rewrite queueChecks_runs. reflexivity.
  - now rewrite length_firstn, oldest_first_length.
  - intros o Ho. apply firstn_subset in Ho. now apply oldest_first_In.
  - intros o o' Ho Ho' Hlt.
    apply (firstn_takes_the_oldest _ _ o o'); try assumption.
    + apply oldest_first_sorted.
    + now apply oldest_first_In.
Qed.

(** X25.  A forced check job on a posting that has not expired and has
    a link always reaches the page: the job completes with what the
    page says, or, when the page cannot be fetched, fails with the
    message of the 500 failure, so that the queue sees the failure. *)
Theorem forced_check_job_ends_by_the_page (oid : string) (w : World)
    (o : Opportunity.row) :
  Sql.opportunities_by_id oid (db w) = [o] ->
  notExpired E o ->
  Js.truthy (Opportunity.link o) = true ->
  fst (opportunityWorker E slackMessages (check_expired oid true) w) =
  match getPageContent E (Opportunity.link o) with
  | Returned page => Completed (ExpiredData (hasExpiredPhrase page))
  | Thrown _ => Failed "Failed to get page content."
  end.
Proof.
  intros Hby Hopen Hlink.
  unfold opportunityWorker, settle, checkForExpiredOpportunity. run_async.
  cbn beta iota.
  rewrite (selected_when_due E oid true (db w) o Hby Hopen (or_introl eq_refl)).
  cbn beta iota. rewrite Hlink. cbn [negb db effects].
  destruct (getPageContent E (Opportunity.link o)) as [page|e]; cbn beta iota.
  - destruct (hasExpiredPhrase page); reflexivity.
  - reflexivity.
Qed.

End Sweeps.

(* ------------------------------------------------------------------ *)
(** ** Deleted chat messages *)

Section DeletedMessages.

Variable isOpportunityChannel : string -> Outcome bool.

Lemma filter_comm {A} (f g : A -> bool) (l : list A) :
  filter f (filter g l) = filter g (filter f l).
Proof.
  induction l as [|a l IH]; simpl; [reflexivity|].
  destruct (f a) eqn:Hf, (g a) eqn:Hg; simpl; rewrite ?Hf, ?Hg, IH;
    reflexivity.
Qed.

(** X26.  A change of a message that is not a deletion, or a message
    outside the opportunity channels, leaves the world as it is.  When
    a message of an opportunity channel is deleted, its posting goes
    with all that refers to it, whoever posted it: no posting of the
    message is left and other postings are untouched. *)
Theorem deleted_message_takes_its_posting (channel message : string)
    (deletedAt : option Z) (w : World) :
  let run := checkForDeletedOpportunity isOpportunityChannel channel
               deletedAt message w in
  ((deletedAt = None \/ isOpportunityChannel channel = Returned false) ->
   run = (Returned tt, w)) /\
  (forall t o,
     deletedAt = Some t ->
     isOpportunityChannel channel = Returned true ->
     filter (isFromMessage channel message) (opportunities (db w)) = [o] ->
     fst run = Returned tt /\
     messageRows channel message (db (snd run)) = 0%nat /\
     noTraceOf (Opportunity.id o) (db (snd run)) /\
     sameElsewhere (Opportunity.id o) (db w) (db (snd run))).
Proof.
  cbv zeta. unfold checkForDeletedOpportunity, deleteOpportunity. split.
  - intros [->|Hno]; [reflexivity|].
    destruct deletedAt; [|reflexivity]. run_async. now rewrite Hno.
  - intros t o -> Hyes Hrows. run_async. rewrite Hyes. cbn beta iota.
    cbn [negb]. rewrite Hrows. cbn.
    split; [reflexivity|]. split.
    + unfold messageRows. simpl. rewrite filter_comm, Hrows. simpl.
      unfold Sql.has_id. now rewrite String.eqb_refl.
    + apply delete_opportunity_clears.
Qed.

End DeletedMessages.

(* ------------------------------------------------------------------ *)
(** ** Bookmarks, further *)

Section BookmarksFurther.

Variable E : Env.

(** X28.  Removing a bookmark fires nothing.  Creating one queues the
    activity that awards the poster, when the posting has a poster.  A
    bookmark of an id that names no posting is refused by the foreign
    key: the call rejects, nothing is stored and nothing is fired. *)
Theorem bookmark_awards_the_poster_on_creation (memberId oid : string)
    (w : World) :
  let run := bookmarkOpportunity E memberId oid w in
  (isBookmarked memberId oid (db w) = true -> effects (snd run) = effects w) /\
  (isBookmarked memberId oid (db w) = false ->
   (forall o poster,
      hd_error (Sql.opportunities_by_id oid (db w)) = Some o ->
      Opportunity.postedBy o = Some poster -> Js.truthy poster = true ->
      In (Queued (ActivityCompleted memberId oid poster))
         (effects (snd run))) /\
   (Sql.opportunities_by_id oid (db w) = [] ->
    run = (Thrown Sql.FOREIGN_KEY, w))).
Proof.
  cbv zeta. split.
  - unfold isBookmarked, bookmarkOpportunity. run_async.
    cbn beta iota. cbn [db effects]. rewrite filter_length_pos.
    intros ->. reflexivity.
  - intros Hnot. split.
    + intros o poster Ho Hposter Htruthy.
      assert (Hknown : existsb (Sql.has_id oid) (opportunities (db w)) = true).
      { rewrite <- filter_length_pos. unfold Sql.opportunities_by_id in Ho.
        destruct (filter _ _); [discriminate | reflexivity]. }
      unfold isBookmarked in Hnot.
      unfold bookmarkOpportunity, Sql.insert_bookmark, Sql.posting_known.
      run_async. cbn beta iota. cbn [db effects].
      rewrite filter_length_pos, Hnot. cbn beta iota.
      cbn [db effects opportunities with_bookmarks Bookmark.opportunityId].
      rewrite Hknown. cbn beta iota. cbn [db effects].
      unfold Sql.opportunities_by_id in *. cbn [opportunities with_bookmarks].
      rewrite Ho. cbn beta iota. rewrite Hposter, Htruthy.
      destruct (Opportunity.companyId o) as [c|];
        [destruct (companyName E c) as [n|]; [destruct (Js.truthy n)|]|];
        cbn; apply in_or_app; right; now left.
    + intros Hnone. apply bookmarkOpportunity_refused; [exact Hnot|].
      unfold Sql.posting_known. rewrite <- filter_length_pos.
      unfold Sql.opportunities_by_id in Hnone. now rewrite Hnone.
Qed.

End BookmarksFurther.

(* ------------------------------------------------------------------ *)
(** ** The further properties at work *)

Lemma first_link_is_in_the_message_witness :
  isCapturedLink "https://x.test/job" /\
  exists pre post d post',
    "New role: <https://x.test/job|Apply here> good luck" =
      pre ++ "<" ++ "https://x.test/job" ++ post /\
    post = String d post' /\ (d = ">"%char \/ d = "|"%char).
Proof.
  apply (first_link_is_in_the_message
           "New role: <https://x.test/job|Apply here> good luck"
           "https://x.test/job").
  reflexivity.
Defined.

Lemma first_link_round_trip_witness :
  getFirstLinkInMessage "New role: <https://x.test/job> good luck" =
    Some "https://x.test/job" /\
  getFirstLinkInMessage "New role: <https://x.test/job|Apply here> good luck" =
    Some "https://x.test/job".
Proof.
  destruct (first_link_round_trip "New role: " "https://" ".test/job"
              "Apply here" " good luck" "x"
              eq_refl (or_intror eq_refl) eq_refl eq_refl) as [Hbare Hlabel].
  split; [exact Hbare|]. apply Hlabel. discriminate.
Defined.

Lemma report_counts_each_reporter_once_witness :
  let d' := db (snd (reportOpportunity Scenario.offline "opp-1" "dead link"
                       "member-2" Scenario.formerAdmin)) in
  Sql.count_reports "opp-1" d' = 1%Z /\
  hasReported "opp-1" "member-2" d' = true /\
  Sql.count_reports "opp-9" d' =
    Sql.count_reports "opp-9" (db Scenario.formerAdmin).
Proof.
  cbv zeta.
  destruct (report_counts_each_reporter_once Scenario.offline "opp-1"
              "dead link" "member-2" Scenario.formerAdmin)
    as (_ & Hcount & _ & Hothers).
  destruct (Hcount eq_refl) as [Hgrown Hstored].
  split; [exact Hgrown|]. split; [exact Hstored|].
  apply Hothers. discriminate.
Defined.

Lemma report_removes_on_two_reports_or_admin_row_witness :
  let run := reportOpportunity Scenario.offline "opp-1" "dead link"
               "member-2" Scenario.formerAdmin in
  fst run = Returned (success false) /\
  opportunities (db (snd run)) = opportunities (db Scenario.formerAdmin).
Proof.
  cbv zeta.
  destruct (report_removes_on_two_reports_or_admin_row Scenario.offline
              "opp-1" "dead link" "member-2" Scenario.formerAdmin eq_refl)
    as (Hanswer & Hrows & _).
  split; [exact Hanswer | exact Hrows].
Defined.

Lemma write_permission_is_poster_or_admin_witness :
  fst (hasOpportunityWritePermission "member-1" "opp-1" Scenario.formerAdmin) =
    Returned true /\
  fst (deleteOpportunity (Some "member-1") "opp-1" Scenario.formerAdmin) =
    Returned (success "opp-1").
Proof.
  destruct (write_permission_is_poster_or_admin "member-1" "opp-1"
              Scenario.formerAdmin) as (_ & Hcheck & Hdelete).
  assert (Hmay : mayWrite "member-1" "opp-1" (db Scenario.formerAdmin)).
  { exists (Scenario.posting "opp-1" "https://x.test/job").
    split; [now left|]. split; [reflexivity | now left]. }
  split; [now apply Hcheck | now apply (Hdelete eq_refl)].
Defined.

Lemma check_expired_outcome_witness :
  let run := checkForExpiredOpportunity Scenario.offline "opp-1" true
               ExpiryScenario.board in
  fst run = Returned (fail 500 "Failed to get page content.") /\
  map Opportunity.lastExpirationCheck
      (Sql.opportunities_by_id "opp-1" (db (snd run))) =
    [Some Scenario.noon] /\
  map Opportunity.expiresAt
      (Sql.opportunities_by_id "opp-1" (db (snd run))) =
    [Some (Scenario.noon + 2592000000)%Z].
Proof.
  cbv zeta.
  destruct (check_expired_outcome Scenario.offline "opp-1" true
              ExpiryScenario.board ExpiryScenario.checkedAnHourAgo)
    as (Hstamp & _ & Hfail & Hkept & _).
  - reflexivity.
  - exists (Scenario.noon + 2592000000)%Z. split; [reflexivity|].
    vm_compute. reflexivity.
  - now left.
  - reflexivity.
  - split; [exact Hfail|]. split; [exact Hstamp | exact Hkept].
Defined.

Lemma check_is_not_repeated_within_three_hours_witness :
  let w1 := snd (checkForExpiredOpportunity Scenario.offline "opp-1" true
                   ExpiryScenario.board) in
  checkForExpiredOpportunity ChatScenario.anHourLater "opp-1" false w1 =
  (Returned (success false), w1).
Proof.
  apply (check_is_not_repeated_within_three_hours Scenario.offline
           ChatScenario.anHourLater "opp-1" true ExpiryScenario.board
           ExpiryScenario.checkedAnHourAgo).
  - reflexivity.
  - intros H. apply (f_equal effects) in H. vm_compute in H. discriminate H.
  - vm_compute. discriminate.
  - vm_compute. reflexivity.
Defined.

Lemma submission_without_page_keeps_placeholder_witness :
  let run := addOpportunity Scenario.offline "https://x.test/new" "member-2"
               Scenario.formerAdmin in
  fst run = Returned (success "opp-2") /\
  (exists o, isPlaceholder Scenario.offline "https://x.test/new" "member-2" o /\
             opportunities (db (snd run)) =
             (opportunities (db Scenario.formerAdmin) ++ [o])%list) /\
  effects (snd run) =
    [PageRequested "https://x.test/new";
     ExceptionReported (ExternalError "timeout")].
Proof.
  apply (submission_without_page_keeps_placeholder Scenario.offline
           "https://x.test/new" "member-2" Scenario.formerAdmin).
  - reflexivity.
  - right. exists (ExternalError "timeout"). reflexivity.
Defined.

Lemma duplicate_link_conflicts_witness :
  addOpportunity Scenario.offline "HTTPS://X.test/job_" "member-2"
    (Scenario.world
       {| opportunities := [Scenario.posting "opp-1" "https://x.test/JOB_"];
          opportunityTags := [];
          opportunityTagAssociations := [];
          opportunityBookmarks := [];
          opportunityReports := [];
          admins := [] |}) =
  (Returned (fail 409 "Someone already posted this link."),
   Scenario.world
       {| opportunities := [Scenario.posting "opp-1" "https://x.test/JOB_"];
          opportunityTags := [];
          opportunityTagAssociations := [];
          opportunityBookmarks := [];
          opportunityReports := [];
          admins := [] |}).
Proof.
  apply (duplicate_link_conflicts Scenario.offline "HTTPS://X.test/job_"
           "member-2" _ (Scenario.posting "opp-1" "https://x.test/JOB_")).
  - reflexivity.
  - now left.
  - reflexivity.
Defined.

Lemma plain_link_conflicts_iff_posted_witness :
  fst (addOpportunity Scenario.offline "HTTPS://X.TEST/JOB" "member-2"
         Scenario.formerAdmin) =
  Returned (fail 409 "Someone already posted this link.").
Proof.
  apply (plain_link_conflicts_iff_posted Scenario.offline "HTTPS://X.TEST/JOB"
           "member-2" Scenario.formerAdmin eq_refl).
  exists (Scenario.posting "opp-1" "https://x.test/job").
  split; [now left | reflexivity].
Defined.

Lemma refine_touches_nothing_else_witness :
  let E := RefineScenario.assistant RefineScenario.complete Scenario.noon in
  let d' := db (snd (refineOpportunity E RefineScenario.pasted
                       RefineScenario.board)) in
  opportunityTags d' = RefineScenario.catalog /\
  map fixedColumns (opportunities d') =
    map fixedColumns (opportunities (db RefineScenario.board)) /\
  (forall a, In a (opportunityTagAssociations d') ->
             TagAssociation.opportunityId a = "opp-1" /\
             exists tag, In tag RefineScenario.catalog /\
                         Tag.id tag = TagAssociation.tagId a).
Proof.
  cbv zeta.
  destruct (refine_touches_nothing_else
              (RefineScenario.assistant RefineScenario.complete Scenario.noon)
              RefineScenario.pasted RefineScenario.board)
    as (Htags & _ & _ & _ & Hfixed & _ & Hnew).
  split; [exact Htags|]. split; [exact Hfixed|].
  intros a Hin. destruct (Hnew a Hin) as [[]|Hadded]. exact Hadded.
Defined.

Lemma unusable_answer_asks_for_manual_refinement_witness :
  let E := RefineScenario.assistant RefineScenario.untitled Scenario.noon in
  refineOpportunity E RefineScenario.pasted RefineScenario.board =
  (Returned (success None),
   {| db := db RefineScenario.board;
      effects := [CompletionRequested (content RefineScenario.pasted)
                                      ["Internship"]] |}).
Proof.
  cbv zeta.
  apply (unusable_answer_asks_for_manual_refinement
           (RefineScenario.assistant RefineScenario.untitled Scenario.noon)
           RefineScenario.pasted RefineScenario.board
           RefineScenario.untitledData).
  - exists (Json.stringify RefineScenario.untitled), RefineScenario.untitled.
    repeat split; reflexivity.
  - reflexivity.
Defined.

Lemma client_failure_is_handed_back_witness :
  refineOpportunity Scenario.offline RefineScenario.pasted RefineScenario.board =
  (Returned (fail 500 "unavailable"),
   {| db := db RefineScenario.board;
      effects := [CompletionRequested (content RefineScenario.pasted)
                                      ["Internship"]] |}).
Proof.
  apply (proj1 (client_failure_is_handed_back Scenario.offline
                  RefineScenario.pasted RefineScenario.board)).
  reflexivity.
Defined.

Lemma refine_keeps_associations_distinct_witness :
  let E := RefineScenario.assistant RefineScenario.complete Scenario.noon in
  NoDup (opportunityTagAssociations
           (db (snd (refineOpportunity E RefineScenario.pasted
                       RefineScenario.board)))).
Proof.
  apply (refine_keeps_associations_distinct
           (RefineScenario.assistant RefineScenario.complete Scenario.noon)
           RefineScenario.pasted RefineScenario.board).
  constructor.
Defined.

Lemma only_first_refinement_is_announced_witness :
  let E := RefineScenario.assistant RefineScenario.complete Scenario.noon in
  let first := snd (refineOpportunity E RefineScenario.pasted
                      ChatScenario.board) in
  effects first =
    [CompletionRequested (content RefineScenario.pasted) ["Internship"];
     Queued (AddedToBoard "C-jobs" "opp-1" "m-1")] /\
  effects (snd (refineOpportunity E RefineScenario.pasted
                  {| db := db first; effects := [] |})) =
    [CompletionRequested (content RefineScenario.pasted) ["Internship"]].
Proof.
  cbv zeta.
  assert (Hext : forall w, extracted
            (RefineScenario.assistant RefineScenario.complete Scenario.noon)
            RefineScenario.pasted w RefineScenario.completeData).
  { intros w.
    exists (Json.stringify RefineScenario.complete), RefineScenario.complete.
    repeat split; reflexivity. }
  split.
  - eapply eq_trans.
    + eapply (only_first_refinement_is_announced
                (RefineScenario.assistant RefineScenario.complete Scenario.noon)
                RefineScenario.pasted ChatScenario.board
                RefineScenario.completeData ChatScenario.fromAnnouncement).
      * apply Hext.
      * reflexivity.
      * reflexivity.
      * vm_compute. reflexivity.
    + vm_compute. reflexivity.
  - eapply eq_trans.
    + eapply (only_first_refinement_is_announced
                (RefineScenario.assistant RefineScenario.complete Scenario.noon)
                RefineScenario.pasted _ RefineScenario.completeData).
      * apply Hext.
      * reflexivity.
      * vm_compute. reflexivity.
      * vm_compute. reflexivity.
    + vm_compute. reflexivity.
Defined.

Lemma refining_again_changes_nothing_witness :
  let E := RefineScenario.assistant RefineScenario.complete Scenario.noon in
  let w1 := snd (refineOpportunity E RefineScenario.pasted
                   RefineScenario.board) in
  db (snd (refineOpportunity E RefineScenario.pasted w1)) = db w1.
Proof.
  cbv zeta.
  eapply (refining_again_changes_nothing
            (RefineScenario.assistant RefineScenario.complete Scenario.noon)
            RefineScenario.pasted RefineScenario.board).
  vm_compute. reflexivity.
Defined.

Lemma accepted_answer_is_usable_when_complete_witness :
  RefineOpportunityResponse_parse RefineScenario.complete =
    Some RefineScenario.completeData /\
  (usable RefineScenario.completeData = true <->
   title RefineScenario.completeData <> None /\
   description RefineScenario.completeData <> None).
Proof.
  split; [reflexivity|].
  apply (accepted_answer_is_usable_when_complete RefineScenario.complete).
  reflexivity.
Defined.

Lemma chat_message_without_new_link_is_left_witness :
  createOpportunityFromSlack Scenario.offline ChatScenario.messages None
    "C-jobs" "m-1" ChatScenario.board =
  (Returned (success NothingToDo), ChatScenario.board).
Proof.
  destruct (chat_message_without_new_link_is_left Scenario.offline
              ChatScenario.messages None "C-jobs" "m-1" ChatScenario.board)
    as [_ Hleft].
  destruct (Hleft ChatScenario.announcement
              "New role: <https://x.test/job|Apply here> good luck"
              eq_refl eq_refl eq_refl) as [_ Hposted].
  apply (Hposted "https://x.test/job" ChatScenario.fromAnnouncement []);
    reflexivity.
Defined.

Lemma protected_link_is_not_fetched_witness :
  let run := createOpportunityFromSlack Scenario.offline ChatScenario.messages
               None "C-jobs" "m-2" ChatScenario.board in
  fst run = Returned (success (PlaceholderOnly "opp-2")) /\
  effects (snd run) = [Queued (RefinementRequested "opp-2" "C-jobs" "U-2")].
Proof.
  cbv zeta.
  destruct (protected_link_is_not_fetched Scenario.offline
              ChatScenario.messages None "C-jobs" "m-2" ChatScenario.board
              ChatScenario.networkPost "Hiring: <https://linkedin.com/jobs/1>"
              "https://linkedin.com/jobs/1"
              eq_refl eq_refl eq_refl eq_refl eq_refl eq_refl)
    as (oid & Hfst & Heff & Hrow).
  cbv zeta in Hrow. destruct Hrow as [Hoid _].
  rewrite Hoid in Hfst, Heff. split; [exact Hfst | exact Heff].
Defined.

Lemma chat_message_has_at_most_one_posting_witness :
  messageRows "C-jobs" "m-2"
    (db (snd (createOpportunityFromSlack Scenario.offline ChatScenario.messages
                None "C-jobs" "m-2" ChatScenario.board))) <= 1.
Proof.
  apply (chat_message_has_at_most_one_posting Scenario.offline
           ChatScenario.messages None "C-jobs" "m-2" ChatScenario.board).
  intros channel message. unfold messageRows. simpl.
  destruct (isFromMessage channel message ChatScenario.fromAnnouncement);
    simpl; lia.
Defined.

Lemma tag_names_stay_distinct_witness :
  createOpportunityTag ChatScenario.sameTagInCapitals RefineScenario.board =
  (Returned (fail 409 "A tag with that name already exists."),
   RefineScenario.board).
Proof.
  apply (proj1 (tag_names_stay_distinct ChatScenario.sameTagInCapitals
                  RefineScenario.board eq_refl)).
  exists {| Tag.id := "tag-1"; Tag.name := "Internship"; Tag.color := "blue" |}.
  split; [now left | reflexivity].
Defined.

Lemma edit_sets_exactly_the_given_tags_witness :
  let d' := db (snd (editOpportunity ChatScenario.noResolver "opp-1"
                       ChatScenario.retitled ChatScenario.board)) in
  opportunityTagAssociations d' =
    [{| TagAssociation.opportunityId := "opp-1";
        TagAssociation.tagId := "tag-1" |}] /\
  forall o, In o (opportunities d') -> Opportunity.id o = "opp-1" ->
            Opportunity.title o = "Intern" /\
            Opportunity.description o = "Summer internship, paid." /\
            Opportunity.expiresAt o = Some (Scenario.noon + 86400000)%Z.
Proof.
  cbv zeta. split; [reflexivity|].
  apply (edit_sets_exactly_the_given_tags ChatScenario.noResolver "opp-1"
           ChatScenario.retitled ChatScenario.board (success 1%nat)).
  reflexivity.
Defined.

Lemma sweep_queues_the_oldest_unchecked_witness :
  exists chosen,
    checkForExpiredOpportunities Scenario.offline 10 Scenario.formerAdmin =
    (Returned (success tt),
     {| db := db Scenario.formerAdmin; effects := checksFor chosen |}) /\
    List.length chosen = 1%nat.
Proof.
  destruct (sweep_queues_the_oldest_unchecked Scenario.offline 10
              Scenario.formerAdmin ltac:(lia))
    as (chosen & Hrun & Hlen & _).
  exists chosen. split; [exact Hrun | exact Hlen].
Defined.

Lemma forced_check_job_ends_by_the_page_witness :
  fst (opportunityWorker
         (RefineScenario.assistant RefineScenario.complete Scenario.noon)
         ChatScenario.messages (check_expired "opp-1" true)
         RefineScenario.board) =
  Completed (ExpiredData false).
Proof.
  apply (forced_check_job_ends_by_the_page
           (RefineScenario.assistant RefineScenario.complete Scenario.noon)
           ChatScenario.messages "opp-1" RefineScenario.board
           (Scenario.posting "opp-1" "https://x.test/job")).
  - reflexivity.
  - exists (Scenario.noon + 2592000000)%Z. split; [reflexivity|].
    simpl. unfold Scenario.noon. lia.
  - reflexivity.
Defined.

Lemma deleted_message_takes_its_posting_witness :
  let run := checkForDeletedOpportunity ChatScenario.everyChannel "C-jobs"
               (Some Scenario.noon) "m-1" ChatScenario.board in
  fst run = Returned tt /\
  messageRows "C-jobs" "m-1" (db (snd run)) = 0%nat /\
  noTraceOf "opp-1" (db (snd run)) /\
  sameElsewhere "opp-1" (db ChatScenario.board) (db (snd run)).
Proof.
  apply (proj2 (deleted_message_takes_its_posting ChatScenario.everyChannel
                  "C-jobs" "m-1" (Some Scenario.noon) ChatScenario.board)
           Scenario.noon ChatScenario.fromAnnouncement);
    reflexivity.
Defined.

Lemma bookmark_keeps_at_most_one_witness :
  bookmarkRows "member-2" "opp-1"
    (db (snd (bookmarkOpportunity Scenario.offline "member-2" "opp-1"
                Scenario.formerAdmin))) <= 1.
Proof.
  apply (bookmark_keeps_at_most_one Scenario.offline "member-2" "opp-1"
           Scenario.formerAdmin).
  intros memberId oid. unfold bookmarkRows. simpl. lia.
Defined.

Lemma bookmark_awards_the_poster_on_creation_witness :
  In (Queued (ActivityCompleted "member-2" "opp-1" "member-1"))
     (effects (snd (bookmarkOpportunity Scenario.offline "member-2" "opp-1"
                      Scenario.formerAdmin))).
Proof.
  apply (proj1 (proj2 (bookmark_awards_the_poster_on_creation Scenario.offline
                         "member-2" "opp-1" Scenario.formerAdmin) eq_refl)
           (Scenario.posting "opp-1" "https://x.test/job") "member-1");
    reflexivity.
Defined.

Lemma addOpportunity_awaits_refine_witness :
  let E := RefineScenario.assistant RefineScenario.complete Scenario.noon in
  exists w0 input,
    opportunityId input = "opp-2" /\
    content input = "Senior Engineer... apply now" /\
    addOpportunity E "https://x.test/new" "member-2" RefineScenario.board =
    match refineOpportunity E input w0 with
    | (Returned _, w1) => (Returned (success "opp-2"), w1)
    | (Thrown e, w1) => (Thrown e, w1)
    end.
Proof.
  cbv zeta.
  destruct (addOpportunity_awaits_refine
              (RefineScenario.assistant RefineScenario.complete Scenario.noon)
              "https://x.test/new" "member-2" "Senior Engineer... apply now"
              RefineScenario.board eq_refl eq_refl eq_refl eq_refl)
    as (w0 & input & Hid & Hcontent & _ & Hrun).
  exists w0, input. repeat split; assumption.
Defined.
